(** * unified-llm-engine: the provider abstraction and its error taxonomy

    A shallow embedding of [llm_engine/providers] (Python): the exception
    classes and [from_http_status] of [exceptions.py], the request and
    response dataclasses, [validate_request] and [calculate_cost] of
    [base_provider.py], and the three adapters ([anthropic_provider.py],
    [openai_provider.py], [gemini_provider.py]).

    Conventions of the embedding.
    - A Python [str] is a [string], one [ascii] per character: the texts
      are those over the characters below 256, so that lengths and slices
      count characters, and [str.lower] is the one of these characters.
    - A Python [int] is a [Z]; a Python [float] is a primitive binary64
      [float], with the IEEE operations of [PrimFloat].
    - A [dict] with string keys is a [gmap string _].
    - A call that may raise returns a [Result]; code that also performs I/O
      runs in the state-and-error monad [M] over a [World] that scripts the
      vendor's answers and logs the calls and sleeps made.
    - The loggers are those of the standard library's [logging], at the
      level they have when nothing configures them (module [Logging]). A
      logging call that passes keywords is part of the embedding, since the
      logger may refuse them; one that passes none cannot raise and is left
      out, the sinks being outside the package. *)

From Stdlib Require Import ZArith String Ascii List Bool Lia DecimalString Floats.
From stdpp Require Import gmap strings.

Open Scope string_scope.
Open Scope Z_scope.

(** ** Python values and exceptions *)

(** The scalar values that travel in [**kwargs] and in [LLMRequest.metadata]. *)
Inductive PyVal :=
| VNone
| VBool (b : bool)
| VInt (z : Z)
| VStr (s : string).

(** Truth value of a scalar, as [if x:] tests it. *)
Definition truthy (v : PyVal) : bool :=
  match v with
  | VNone => false
  | VBool b => b
  | VInt z => negb (Z.eqb z 0)
  | VStr s => negb (String.eqb s "")
  end.

(** [str(z)] for an [int]. *)
Definition str_of_Z (z : Z) : string := NilZero.string_of_int (Z.to_int z).

(** [str(v)], as an f-string formats a scalar. *)
Definition py_str (v : PyVal) : string :=
  match v with
  | VNone => "None"
  | VBool true => "True"
  | VBool false => "False"
  | VInt z => str_of_Z z
  | VStr s => s
  end.

(** The lower case of one character: of the letters A to Z, and of the
    accented capitals from U+00C0 to U+00DE (U+00D7, the multiplication
    sign, is no letter). *)
Definition lower_ascii (c : ascii) : ascii :=
  let n := nat_of_ascii c in
  if ((Nat.leb 65 n && Nat.leb n 90)
      || (Nat.leb 192 n && Nat.leb n 222 && negb (Nat.eqb n 215)))%bool
  then ascii_of_nat (n + 32) else c.

(** [s.lower()]. *)
Fixpoint lower (s : string) : string :=
  match s with
  | EmptyString => EmptyString
  | String c s' => String (lower_ascii c) (lower s')
  end.

(** [needle in hay]. *)
Fixpoint contains (needle hay : string) : bool :=
  if String.prefix needle hay then true
  else match hay with
       | EmptyString => false
       | String _ hay' => contains needle hay'
       end.

(** [sep.join(items)]. *)
Fixpoint join (sep : string) (items : list string) : string :=
  match items with
  | [] => ""
  | [x] => x
  | x :: rest => x ++ sep ++ join sep rest
  end.

Fixpoint chars (s : string) : list string :=
  match s with
  | EmptyString => []
  | String c s' => String c EmptyString :: chars s'
  end.

#[export] Instance PyVal_eq_dec : EqDecision PyVal.
Proof. solve_decision. Defined.

Abbreviation kwargs := (gmap string PyVal).

Module Exceptions.

(** The fields every [LLMProviderError] carries: the message given to
    [Exception.__init__], [self.provider] and [self.metadata]. *)
Record ErrBase := {
  message : string;
  provider : PyVal;
  metadata : kwargs
}.

(** The class hierarchy of [exceptions.py]: one constructor per class, with
    the attributes its [__init__] sets besides the base fields. *)
Inductive LLMProviderError :=
| BaseError (b : ErrBase)
| RateLimitError (b : ErrBase) (retry_after : PyVal)
| QuotaExceededError (b : ErrBase)
| ModelNotFoundError (b : ErrBase) (model : PyVal) (available_models : PyVal)
| AuthenticationError (b : ErrBase)
| ProviderUnavailableError (b : ErrBase)
| ContentFilterError (b : ErrBase) (reason : PyVal)
| ContextLengthExceededError (b : ErrBase) (input_length max_length : Z)
| InvalidRequestError (b : ErrBase) (parameter reason : PyVal)
| TimeoutError (b : ErrBase) (timeout : Z).

(** The kinds of the taxonomy, as the class of an instance. *)
Inductive Kind :=
| Unclassified | RateLimited | QuotaExceeded | ModelNotFound
| AuthenticationFailed | ProviderUnavailable | ContentFiltered
| ContextLengthExceeded | InvalidRequest | TimedOut.

Definition kind_of (e : LLMProviderError) : Kind :=
  match e with
  | BaseError _ => Unclassified
  | RateLimitError _ _ => RateLimited
  | QuotaExceededError _ => QuotaExceeded
  | ModelNotFoundError _ _ _ => ModelNotFound
  | AuthenticationError _ => AuthenticationFailed
  | ProviderUnavailableError _ => ProviderUnavailable
  | ContentFilterError _ _ => ContentFiltered
  | ContextLengthExceededError _ _ _ => ContextLengthExceeded
  | InvalidRequestError _ _ _ => InvalidRequest
  | TimeoutError _ _ => TimedOut
  end.

Definition base_of (e : LLMProviderError) : ErrBase :=
  match e with
  | BaseError b | RateLimitError b _ | QuotaExceededError b
  | ModelNotFoundError b _ _ | AuthenticationError b
  | ProviderUnavailableError b | ContentFilterError b _
  | ContextLengthExceededError b _ _ | InvalidRequestError b _ _
  | TimeoutError b _ => b
  end.

End Exceptions.
Export Exceptions.

(** What a Python call can raise in this package. *)
Inductive PyExc :=
| Exception_ (msg : string)        (* [raise Exception(msg)], the builtin base class *)
| ValueError (msg : string)
| TypeError (msg : string)
| AttributeError (msg : string)
| KeyError (key : string)
| IndexError (msg : string)
| UnboundLocalError (name : string)
| OverflowError (msg : string)
| AsyncioTimeoutError              (* [asyncio.TimeoutError] *)
| ClientError (msg : string)       (* a failure of the HTTP client itself *)
| Classified (e : LLMProviderError).

Inductive Result (A : Type) :=
| Ok (a : A)
| Raise (e : PyExc).
Arguments Ok {A} a.
Arguments Raise {A} e.

Definition rbind {A B} (r : Result A) (k : A -> Result B) : Result B :=
  match r with
  | Ok a => k a
  | Raise e => Raise e
  end.

Notation "'let*' x ':=' r 'in' k" := (rbind r (fun x => k))
  (at level 10, x pattern, r at level 100, k at level 200).

(** ** Keyword arguments

    [f(a, k1=v1, ..., **kw)]: Python refuses a keyword that is written in the
    call and also comes through [**kw]. *)
Fixpoint pass_kw (explicit : list (string * PyVal)) (kw : kwargs) : Result kwargs :=
  match explicit with
  | [] => Ok kw
  | (k, v) :: rest =>
      let* kw' := pass_kw rest kw in
      match kw' !! k with
      | Some _ => Raise (TypeError ("got multiple values for keyword argument '" ++ k ++ "'"))
      | None => Ok (<[k := v]> kw')
      end
  end.

(** A parameter already bound by position may not come again as a keyword. *)
Fixpoint bound_by_position (params : list string) (kw : kwargs) : Result unit :=
  match params with
  | [] => Ok tt
  | p :: rest =>
      match kw !! p with
      | Some _ => Raise (TypeError ("got multiple values for argument '" ++ p ++ "'"))
      | None => bound_by_position rest kw
      end
  end.

(** A named parameter with a default takes its keyword out of [**kwargs]. *)
Definition take_kw (p : string) (dflt : PyVal) (kw : kwargs) : PyVal * kwargs :=
  (default dflt (kw !! p), delete p kw).

(** A named parameter without default must be among the keywords. *)
Definition require_kw (p : string) (kw : kwargs) : Result (PyVal * kwargs) :=
  match kw !! p with
  | Some v => Ok (v, delete p kw)
  | None => Raise (TypeError ("missing 1 required positional argument: '" ++ p ++ "'"))
  end.

Definition rmap {A B} (f : A -> B) (r : Result A) : Result B :=
  let* a := r in Ok (f a).

(** ** [exceptions.py]: the constructors

    Each [C_init] is the call [C(positional..., k=v..., **star)]: the keywords
    written in the call are [explicit], the dictionary behind [**] is [star]. *)
Module ExceptionsInit.

(** [LLMProviderError.__init__(self, message, provider=None, **kwargs)]. *)
Definition LLMProviderError_init (message : string)
    (explicit : list (string * PyVal)) (star : kwargs) : Result ErrBase :=
  let* kw := pass_kw explicit star in
  let* _ := bound_by_position ["self"; "message"] kw in
  let '(provider, rest) := take_kw "provider" VNone kw in
  Ok {| message := message; provider := provider; metadata := rest |}.

(** [RateLimitError.__init__(self, provider, retry_after=None, **kwargs)]. *)
Definition RateLimitError_init (provider : string)
    (explicit : list (string * PyVal)) (star : kwargs) : Result LLMProviderError :=
  let* kw := pass_kw explicit star in
  let* _ := bound_by_position ["self"; "provider"] kw in
  let '(retry_after, rest) := take_kw "retry_after" VNone kw in
  let* b := LLMProviderError_init
              ("Rate limit exceeded for " ++ provider ++
               (if truthy retry_after
                then ", retry after " ++ py_str retry_after ++ "s" else ""))
              [("provider", VStr provider)] rest in
  Ok (RateLimitError b retry_after).

(** [QuotaExceededError.__init__(self, provider, **kwargs)]. *)
Definition QuotaExceededError_init (provider : string)
    (explicit : list (string * PyVal)) (star : kwargs) : Result LLMProviderError :=
  let* kw := pass_kw explicit star in
  let* _ := bound_by_position ["self"; "provider"] kw in
  let* b := LLMProviderError_init
              ("Quota exceeded for " ++ provider ++ ". Add credits or increase limits.")
              [("provider", VStr provider)] kw in
  Ok (QuotaExceededError b).

(** [', '.join(available_models[:5])] on a scalar: a [str] is sliced and
    iterated by character, [bool] and [int] are not subscriptable. *)
Definition join_first5 (v : PyVal) : Result string :=
  match v with
  | VStr s => Ok (join ", " (chars (substring 0 5 s)))
  | VBool _ => Raise (TypeError "'bool' object is not subscriptable")
  | VInt _ => Raise (TypeError "'int' object is not subscriptable")
  | VNone => Raise (TypeError "'NoneType' object is not subscriptable")
  end.

(** [ModelNotFoundError.__init__(self, provider, model, available_models=None, **kwargs)]. *)
Definition ModelNotFoundError_init (provider : string)
    (explicit : list (string * PyVal)) (star : kwargs) : Result LLMProviderError :=
  let* kw := pass_kw explicit star in
  let* _ := bound_by_position ["self"; "provider"] kw in
  let* (model, kw1) := require_kw "model" kw in
  let '(available_models, rest) := take_kw "available_models" VNone kw1 in
  let message := "Model '" ++ py_str model ++ "' not found on " ++ provider in
  let* message :=
    if truthy available_models
    then let* l := join_first5 available_models in Ok (message ++ ". Available: " ++ l)
    else Ok message in
  let* b := LLMProviderError_init message [("provider", VStr provider)] rest in
  Ok (ModelNotFoundError b model available_models).

(** [AuthenticationError.__init__(self, provider, **kwargs)]. *)
Definition AuthenticationError_init (provider : string)
    (explicit : list (string * PyVal)) (star : kwargs) : Result LLMProviderError :=
  let* kw := pass_kw explicit star in
  let* _ := bound_by_position ["self"; "provider"] kw in
  let* b := LLMProviderError_init
              ("Authentication failed for " ++ provider ++ ". Check API key/credentials.")
              [("provider", VStr provider)] kw in
  Ok (AuthenticationError b).

(** [ProviderUnavailableError.__init__(self, provider, **kwargs)]. *)
Definition ProviderUnavailableError_init (provider : string)
    (explicit : list (string * PyVal)) (star : kwargs) : Result LLMProviderError :=
  let* kw := pass_kw explicit star in
  let* _ := bound_by_position ["self"; "provider"] kw in
  let* b := LLMProviderError_init
              ("Provider " ++ provider ++ " is unavailable or unreachable.")
              [("provider", VStr provider)] kw in
  Ok (ProviderUnavailableError b).

(** [InvalidRequestError.__init__(self, provider, parameter, reason, **kwargs)]. *)
Definition InvalidRequestError_init (provider : string)
    (explicit : list (string * PyVal)) (star : kwargs) : Result LLMProviderError :=
  let* kw := pass_kw explicit star in
  let* _ := bound_by_position ["self"; "provider"] kw in
  let* (parameter, kw1) := require_kw "parameter" kw in
  let* (reason, rest) := require_kw "reason" kw1 in
  let* b := LLMProviderError_init
              ("Invalid " ++ py_str parameter ++ " for " ++ provider ++ ": " ++ py_str reason)
              [("provider", VStr provider)] rest in
  Ok (InvalidRequestError b parameter reason).

End ExceptionsInit.
Export ExceptionsInit.

(** ** [exceptions.py]: [from_http_status]

    [from_http_status(status_code, provider, response_text="", **kwargs)]:
    the three parameters are bound by the call, and [kw] holds the further
    keywords it passes. One of them that repeats a parameter's name is
    refused at the call; the others are the function's [**kwargs]. *)
Definition from_http_status (status_code : Z) (provider : string)
    (response_text : string) (kw : kwargs) : Result LLMProviderError :=
  let* _ := bound_by_position ["status_code"; "provider"; "response_text"] kw in
  if (Z.eqb status_code 401 || Z.eqb status_code 403)%bool then
    AuthenticationError_init provider [("response", VStr response_text)] kw
  else if Z.eqb status_code 429 then
    let retry_after := default VNone (kw !! "retry_after") in
    RateLimitError_init provider
      [("retry_after", retry_after); ("response", VStr response_text)] kw
  else if (Z.eqb status_code 402 || contains "quota" (lower response_text))%bool then
    QuotaExceededError_init provider [("response", VStr response_text)] kw
  else if Z.eqb status_code 404 then
    ModelNotFoundError_init provider
      [("model", default (VStr "unknown") (kw !! "model"))] kw
  else if Z.eqb status_code 400 then
    InvalidRequestError_init provider
      [("parameter", VStr "unknown"); ("reason", VStr response_text)] kw
  else if (Z.eqb status_code 503 || Z.eqb status_code 502)%bool then
    ProviderUnavailableError_init provider [("response", VStr response_text)] kw
  else
    rmap BaseError
      (LLMProviderError_init
         ("HTTP " ++ str_of_Z status_code ++ " error from " ++ provider ++ ": " ++ response_text)
         [("provider", VStr provider); ("status_code", VInt status_code)] kw).

(** ** Python floats

    [float] is IEEE binary64; [+], [*], [/] and the comparisons are the
    primitive operations. What Python adds is the conversion of an [int] and
    the builtin [round]. *)
Module PyFloat.

(** [float(z)], as [z * x] converts its integer operand: the nearest double,
    ties to even, and [OverflowError] when that is beyond the largest one. *)
Definition of_int (z : Z) : Result float :=
  match binary_normalize prec emax z 0 false with
  | S754_infinity _ => Raise (OverflowError "int too large to convert to float")
  | f => Ok (SF2Prim f)
  end.

(** [z * x] for an [int] [z] and a [float] [x]. *)
Definition mul_int (z : Z) (x : float) : Result float :=
  let* f := of_int z in Ok (f * x)%float.

(** The integer nearest to [n / d], ties to even ([d] positive). *)
Definition div_half_even (n d : Z) : Z :=
  let q := n / d in
  let r := n mod d in
  match 2 * r ?= d with
  | Lt => q
  | Gt => q + 1
  | Eq => if Z.even q then q else q + 1
  end.

(** The double nearest to [k / 10^6] (ties to even), with sign [s], for a
    positive [k]: the quotient is taken with 80 extra bits, its last bit set
    when the division leaves a remainder, and that integer is rounded to 53
    bits. *)
Definition millionths (s : bool) (k : positive) : spec_float :=
  let n := Zpos k * 2 ^ 80 in
  let sticky := if n mod 1000000 =? 0 then 0 else 1 in
  binary_round prec emax s (Z.to_pos (2 * (n / 1000000) + sticky)) (-81).

(** The integer nearest to [m * 2^e * 10^6], ties to even. *)
Definition scaled_half_even (m : positive) (e : Z) : Z :=
  if 0 <=? e then Zpos m * 2 ^ e * 1000000
  else div_half_even (Zpos m * 1000000) (2 ^ (- e)).

(** [round(x, 6)]: the decimal with six fractional digits nearest to the
    exact value of [x] (ties to even), then the double nearest to that
    decimal. A zero, an infinity and a NaN round to themselves. *)
Definition round6 (x : float) : float :=
  match Prim2SF x with
  | S754_finite s m e =>
      match scaled_half_even m e with
      | Zpos k => SF2Prim (millionths s k)
      | _ => SF2Prim (S754_zero s)
      end
  | _ => x
  end.

End PyFloat.

(** ** [base_provider.py] *)
Module BaseProvider.

Inductive LLMProviderType :=
| OLLAMA | MISTRAL | GEMINI | ANTHROPIC | OPENAI
| AWS_BEDROCK | AZURE_OPENAI | VERTEX_AI.

(** An attribute of a dataclass instance, by the type its field declares. *)
Inductive Attr :=
| AStr (s : string)
| AOptStr (o : option string)
| AFloat (f : float)
| AInt (z : Z)
| AOptInt (o : option Z)
| ABool (b : bool)
| ADict (d : kwargs).

Fixpoint assoc {A} (k : string) (l : list (string * A)) : option A :=
  match l with
  | [] => None
  | (k', v) :: rest => if String.eqb k k' then Some v else assoc k rest
  end.

(** [@dataclass class LLMRequest]. *)
Module LLMRequest.

Record t := {
  prompt : string;
  system_message : option string;
  temperature : float;
  max_tokens : Z;
  top_p : float;
  stream : bool;
  metadata : kwargs;
  model_override : option string;
  timeout : option Z
}.

(** The instance's attributes: the declared fields and nothing else. *)
Definition attrs (r : t) : list (string * Attr) :=
  [ ("prompt", AStr (prompt r));
    ("system_message", AOptStr (system_message r));
    ("temperature", AFloat (temperature r));
    ("max_tokens", AInt (max_tokens r));
    ("top_p", AFloat (top_p r));
    ("stream", ABool (stream r));
    ("metadata", ADict (metadata r));
    ("model_override", AOptStr (model_override r));
    ("timeout", AOptInt (timeout r)) ].

(** [request.<name>], read by name. *)
Definition getattr (r : t) (name : string) : Result Attr :=
  match assoc name (attrs r) with
  | Some a => Ok a
  | None => Raise (AttributeError ("'LLMRequest' object has no attribute '" ++ name ++ "'"))
  end.

End LLMRequest.

(** [a or dflt] where a model name is wanted (only a [str] or [None]
    attribute is of use as one). *)
Definition str_or (a : Attr) (dflt : string) : string :=
  match a with
  | AStr s | AOptStr (Some s) => if String.eqb s "" then dflt else s
  | _ => dflt
  end.

(** What a provider puts under a key of [LLMResponse.metadata]. *)
Inductive MetaVal :=
| MVal (v : PyVal)
| MUsage (u : gmap string Z).

(** The [provider] argument a caller passes: the adapters pass either the
    enum member or a plain string. *)
Inductive ProviderId :=
| ByType (ty : LLMProviderType)
| ByName (s : string).

(** [@dataclass class LLMResponse]. The dataclass does not check what it
    is given: [content] and [tokens_used] are [None] when the adapter passes
    [None] (the Gemini adapter does, from what the SDK reports). *)
Module LLMResponse.

Record t := {
  content : option string;
  model : string;
  provider : ProviderId;
  tokens_used : option Z;
  cost : float;
  latency_ms : float;
  metadata : gmap string MetaVal;
  finish_reason : option string;
  error : option string
}.

Definition fields : list string :=
  ["content"; "model"; "provider"; "tokens_used"; "cost"; "latency_ms";
   "metadata"; "finish_reason"; "error"].

Definition required : list string :=
  ["content"; "model"; "provider"; "tokens_used"; "cost"; "latency_ms"].

Definition mem (k : string) (l : list string) : bool := existsb (String.eqb k) l.

(** The generated [__init__], as far as the keywords of a call go: a keyword
    that names no field is refused, then a field without default that no
    keyword gives. *)
Definition init_keywords (given : list string) : Result unit :=
  match filter (fun k => negb (mem k fields)) given with
  | k :: _ =>
      Raise (TypeError ("LLMResponse.__init__() got an unexpected keyword argument '" ++ k ++ "'"))
  | [] =>
      match filter (fun k => negb (mem k given)) required with
      | [] => Ok tt
      | missing =>
          Raise (TypeError ("LLMResponse.__init__() missing required arguments: " ++ join ", " missing))
      end
  end.

End LLMResponse.

(** The dictionary [get_cost_per_token] returns: its two keys. *)
Record CostPerToken := {
  input : float;
  output : float
}.

(** [class BaseLLMProvider(ABC)]: the abstract methods the cost computation
    needs. [generate] and [health_check] are given per adapter below. *)
Class BaseLLMProvider (P : Type) := {
  _get_provider_type : P -> LLMProviderType;
  get_cost_per_token : P -> string -> CostPerToken
}.

(** [BaseLLMProvider.calculate_cost]. *)
Definition calculate_cost {P} `{BaseLLMProvider P} (self : P)
    (input_tokens output_tokens : Z) (model : string) : Result float :=
  let costs := get_cost_per_token self model in
  let* a := PyFloat.mul_int input_tokens (input costs) in
  let* b := PyFloat.mul_int output_tokens (output costs) in
  let total := (a + b)%float in
  Ok (PyFloat.round6 total).

(** [BaseLLMProvider.validate_request]. *)
Definition validate_request (request : LLMRequest.t) : Result bool :=
  if String.eqb (LLMRequest.prompt request) "" then
    Raise (ValueError "Prompt cannot be empty")
  else if ((LLMRequest.temperature request <? 0)%float
           || (2 <? LLMRequest.temperature request)%float)%bool then
    Raise (ValueError "Temperature must be between 0 and 2")
  else if LLMRequest.max_tokens request <? 1 then
    Raise (ValueError "Max tokens must be at least 1")
  else Ok true.

End BaseProvider.
Export BaseProvider.

(** ** The world a call runs in

    [D] is the vendor's JSON body once parsed. The vendor is a script: its
    answer to the n-th POST (or SDK call). [clock] gives the successive
    readings of the event loop's [time()]. [sdk_config] is what the
    installed GenAI SDK makes of a generation config: its classes validate
    the values they are built from and may refuse them. The rest is what
    the call has done so far. *)
Module IO.

(** How one POST ends. *)
Inductive Outcome (D : Type) :=
| Responded (status : Z) (text : string) (json : option D)
| TimedOut                          (* the client timeout fires *)
| Failed (msg : string).            (* the HTTP client raises *)
Arguments Responded {D} status text json.
Arguments TimedOut {D}.
Arguments Failed {D} msg.

(** An argument of [asyncio.sleep]: the adapters pass an [int], a decorator
    a [float]. *)
Inductive Delay :=
| Secs (z : Z)
| FSecs (f : float).

Record World (D : Type) := {
  vendor : nat -> Outcome D;
  clock : nat -> float;
  sdk_config : LLMRequest.t -> PyVal -> Result unit;
  posts : nat;            (* vendor calls made *)
  reads : nat;            (* clock readings taken *)
  sleeps : list Delay;    (* the sleeps made, latest first *)
  held : nat              (* admission-gate slots this call holds *)
}.
Arguments vendor {D} w n.
Arguments clock {D} w n.
Arguments sdk_config {D} w request thinking_budget.
Arguments posts {D} w.
Arguments reads {D} w.
Arguments sleeps {D} w.
Arguments held {D} w.

Definition M (D A : Type) := World D -> Result A * World D.

Section Monad.
Context {D : Type}.

Definition ret {A} (a : A) : M D A := fun w => (Ok a, w).
Definition raise {A} (e : PyExc) : M D A := fun w => (Raise e, w).
Definition lift {A} (r : Result A) : M D A := fun w => (r, w).

Definition bind {A B} (m : M D A) (k : A -> M D B) : M D B :=
  fun w =>
    match m w with
    | (Ok a, w') => k a w'
    | (Raise e, w') => (Raise e, w')
    end.

(** [try: m  except ...: h e]. *)
Definition catch {A} (m : M D A) (h : PyExc -> M D A) : M D A :=
  fun w =>
    match m w with
    | (Ok a, w') => (Ok a, w')
    | (Raise e, w') => h e w'
    end.

(** [asyncio.get_event_loop().time()]. *)
Definition time : M D float :=
  fun w =>
    (Ok (clock w (reads w)),
     {| vendor := vendor w; clock := clock w; sdk_config := sdk_config w;
        posts := posts w; reads := S (reads w); sleeps := sleeps w;
        held := held w |}).

(** [await asyncio.sleep(d)]. *)
Definition sleep (d : Delay) : M D unit :=
  fun w =>
    (Ok tt,
     {| vendor := vendor w; clock := clock w; sdk_config := sdk_config w;
        posts := posts w; reads := reads w; sleeps := d :: sleeps w;
        held := held w |}).

(** One vendor call: [session.post(...)], or the SDK's request. *)
Definition post : M D (Outcome D) :=
  fun w =>
    (Ok (vendor w (posts w)),
     {| vendor := vendor w; clock := clock w; sdk_config := sdk_config w;
        posts := S (posts w); reads := reads w; sleeps := sleeps w;
        held := held w |}).

(** Building the SDK's generation config for a request and a thinking
    budget. *)
Definition build_sdk_config (request : LLMRequest.t) (thinking_budget : PyVal) : M D unit :=
  fun w => (sdk_config w request thinking_budget, w).

Definition set_held (n : nat) (w : World D) : World D :=
  {| vendor := vendor w; clock := clock w; sdk_config := sdk_config w;
     posts := posts w; reads := reads w; sleeps := sleeps w; held := n |}.

(** [async with semaphore: m], seen from the call that got a slot: the slot
    is taken on entry and given back however [m] ends. *)
Definition async_with_gate {A} (m : M D A) : M D A :=
  fun w =>
    let '(r, w') := m (set_held (S (held w)) w) in
    (r, set_held (pred (held w')) w').

End Monad.

Notation "'let!' x ':=' m 'in' k" := (bind m (fun x => k))
  (at level 10, x pattern, m at level 100, k at level 200).

(** An SDK that accepts every config. *)
Definition accepting : LLMRequest.t -> PyVal -> Result unit := fun _ _ => Ok tt.

(** A fresh world for a script and a clock, with an SDK that accepts every
    config. *)
Definition start {D} (v : nat -> Outcome D) (c : nat -> float) : World D :=
  {| vendor := v; clock := c; sdk_config := accepting;
     posts := 0; reads := 0; sleeps := []; held := 0 |}.

End IO.
Export IO.

(** ** Provider configuration

    The recognised keys of the [config] dictionary, each possibly absent,
    and the process environment [os.getenv] reads. *)
Module Config.

Record t := {
  api_key : option string;
  api_key_env : option string;
  api_base : option string;
  api_version : option string;
  organization : option string;
  default_model : option string;
  timeout : option Z;
  max_retries : option Z;
  max_concurrent_requests : option Z;
  thinking_mode : option bool
}.

Definition Env := string -> option string.

(** [a or b] on optional strings: [None] and the empty string are false. *)
Definition or_else (a b : option string) : option string :=
  match a with
  | Some s => if String.eqb s "" then b else a
  | None => b
  end.

(** [not x] for an optional string. *)
Definition falsy (a : option string) : bool :=
  match a with
  | Some s => String.eqb s ""
  | None => true
  end.

End Config.

(** ** Logging

    The adapters log through [logging.getLogger(__name__)], and nothing in
    the package configures logging, so a logger has the level it inherits
    from the root logger: WARNING. [Logger.info], [warning] and
    [error] test [isEnabledFor(level)] and, when the level is enabled, pass
    their keywords on to [Logger._log(level, msg, args, exc_info=None,
    extra=None, stack_info=False, stacklevel=1)], which refuses any other
    keyword; when it is not enabled they return at once. *)
Module Logging.

Inductive Level := DEBUG | INFO | WARNING | ERROR | CRITICAL.

Definition levelno (l : Level) : Z :=
  match l with
  | DEBUG => 10 | INFO => 20 | WARNING => 30 | ERROR => 40 | CRITICAL => 50
  end.

(** [logger.getEffectiveLevel()] when nothing has set a level. *)
Definition effective_level : Level := WARNING.

Definition isEnabledFor (l : Level) : bool := levelno effective_level <=? levelno l.

(** The keyword parameters of [Logger._log]. *)
Definition _log_keywords : list string :=
  ["exc_info"; "extra"; "stack_info"; "stacklevel"].

(** [logger.log(level, msg, k1=..., k2=...)], by the names of its keywords. *)
Definition log (level : Level) (keywords : list string) : Result unit :=
  if isEnabledFor level then
    match List.filter (fun k => negb (existsb (String.eqb k) _log_keywords)) keywords with
    | k :: _ =>
        Raise (TypeError ("Logger._log() got an unexpected keyword argument '" ++ k ++ "'"))
    | [] => Ok tt
    end
  else Ok tt.

Definition info := log INFO.
Definition warning := log WARNING.
Definition error := log ERROR.

End Logging.

(** [int(x)] for a [float], where only its success matters: a NaN and an
    infinity have no integer part. *)
Definition int_of_float_defined (x : float) : Result unit :=
  if PrimFloat.is_nan x then Raise (ValueError "cannot convert float NaN to integer")
  else if PrimFloat.is_infinity x
       then Raise (OverflowError "cannot convert float infinity to integer")
       else Ok tt.

(** ** [anthropic_provider.py] *)
Module AnthropicProvider.

(** The vendor's JSON body, as far as [generate] reads it. *)
Record Block := { type_ : option string; text : option string }.
Record Usage := { input_tokens : option Z; output_tokens : option Z }.
Record Data := {
  content : option (list Block);
  usage : option Usage;
  stop_reason : option string
}.

(** The instance, once [__init__] has run. *)
Record t := {
  config : Config.t;
  api_key : string;
  api_base : string;
  api_version : string;
  timeout : Z;
  max_retries : Z
}.

(** [AnthropicProvider.__init__]. *)
Definition init (cfg : Config.t) (env : Config.Env) : Result t :=
  let key :=
    Config.or_else (Config.api_key cfg)
      (env (default "ANTHROPIC_API_KEY" (Config.api_key_env cfg))) in
  if Config.falsy key then Raise (ValueError "Anthropic API key not provided")
  else
    let* _ := Logging.info ["api_base"; "api_version"] in
    Ok {| config := cfg;
          api_key := default "" key;
          api_base := default "https://api.anthropic.com" (Config.api_base cfg);
          api_version := default "2023-06-01" (Config.api_version cfg);
          timeout := default 60 (Config.timeout cfg);
          max_retries := default 3 (Config.max_retries cfg) |}.

(** [get_cost_per_token]: the pricing table and its default entry. *)
Definition pricing : gmap string CostPerToken :=
  <["claude-3-5-sonnet-20241022" :=
      {| input := 3 / 1000000; output := 15 / 1000000 |}]>
  (<["claude-3-5-haiku-20241022" :=
      {| input := 1 / 1000000; output := 5 / 1000000 |}]>
  (<["claude-3-opus-20240229" :=
      {| input := 15 / 1000000; output := 75 / 1000000 |}]>
  (<["claude-3-sonnet-20240229" :=
      {| input := 3 / 1000000; output := 15 / 1000000 |}]>
  (<["claude-3-haiku-20240307" :=
      {| input := 0.25 / 1000000; output := 1.25 / 1000000 |}]> ∅))))%float.

Definition cost_per_token (model : string) : CostPerToken :=
  default {| input := 3 / 1000000; output := 15 / 1000000 |}%float (pricing !! model).

#[export] Instance provider : BaseLLMProvider t := {
  _get_provider_type := fun _ => ANTHROPIC;
  get_cost_per_token := fun _ model => cost_per_token model
}.

(** The text blocks of [data['content']], concatenated. *)
Definition text_of (blocks : option (list Block)) : string :=
  match blocks with
  | Some l =>
      fold_left
        (fun acc b =>
           match type_ b with
           | Some "text" => acc ++ default "" (text b)
           | _ => acc
           end) l ""
  | None => ""
  end.

Definition usage_get (u : option Usage) (f : Usage -> option Z) : Z :=
  match u with
  | Some u => default 0 (f u)
  | None => 0
  end.

Definition put (k : string) (v : option Z) (m : gmap string Z) : gmap string Z :=
  match v with
  | Some z => <[k := z]> m
  | None => m
  end.

(** [data.get('usage')], as it is stored in the metadata. *)
Definition usage_meta (u : option Usage) : MetaVal :=
  match u with
  | Some u =>
      MUsage (put "input_tokens" (input_tokens u)
                (put "output_tokens" (output_tokens u) ∅))
  | None => MVal VNone
  end.

(** [AnthropicProvider.generate]. *)
Definition generate (self : t) (request : LLMRequest.t) : M Data LLMResponse.t :=
  let! _ := lift (validate_request request) in
  let! m := lift (LLMRequest.getattr request "model") in
  let model :=
    str_or m (default "claude-3-5-sonnet-20241022" (Config.default_model (config self))) in
  let! start_time := time in
  catch
    (let! o := post in
     match o with
     | TimedOut => raise AsyncioTimeoutError
     | Failed msg => raise (ClientError msg)
     | Responded status body json =>
         if status =? 200 then
           let! data := match json with
                        | Some d => ret d
                        | None => raise (ClientError "response is not JSON")
                        end in
           let! end_time := time in
           let latency_ms := ((end_time - start_time) * 1000)%float in
           let content := text_of (content data) in
           let input_tokens := usage_get (usage data) input_tokens in
           let output_tokens := usage_get (usage data) output_tokens in
           let total_tokens := input_tokens + output_tokens in
           let! cost := lift (calculate_cost self input_tokens output_tokens model) in
           let! _ := lift (Logging.info ["model"; "tokens"; "cost"; "latency_ms"]) in
           let! _ := lift (LLMResponse.init_keywords
                             ["content"; "model"; "provider"; "input_tokens";
                              "output_tokens"; "tokens_used"; "cost"; "latency_ms";
                              "metadata"]) in
           ret {| LLMResponse.content := Some content;
                  LLMResponse.model := model;
                  LLMResponse.provider := ByType (_get_provider_type self);
                  LLMResponse.tokens_used := Some total_tokens;
                  LLMResponse.cost := cost;
                  LLMResponse.latency_ms := latency_ms;
                  LLMResponse.metadata :=
                    <["stop_reason" :=
                        MVal (from_option VStr VNone (stop_reason data))]>
                    (<["usage" := usage_meta (usage data)]> ∅);
                  LLMResponse.finish_reason := None;
                  LLMResponse.error := None |}
         else
           let! _ := lift (Logging.error ["status"; "error"]) in
           raise (Exception_ ("Claude API error " ++ str_of_Z status ++ ": " ++ body))
     end)
    (fun e =>
       match e with
       | AsyncioTimeoutError =>
           let! _ := lift (Logging.error ["model"]) in
           raise (Exception_ ("Claude API timeout for model " ++ model))
       | _ =>
           let! _ := lift (Logging.error ["error"; "model"]) in
           raise e
       end).

(** [AnthropicProvider.health_check]. *)
Definition health_check (self : t) : bool :=
  if (String.eqb (api_key self) "" || negb (String.prefix "sk-ant-" (api_key self)))%bool
  then false else true.

End AnthropicProvider.

(** ** [openai_provider.py] *)
Module OpenAIProvider.

Record Message := { content : option string }.
Record Choice := { message : option Message; finish_reason : option string }.
Record Usage := {
  prompt_tokens : option Z;
  completion_tokens : option Z;
  total_tokens : option Z
}.
Record Data := { choices : option (list Choice); usage : option Usage }.

Record t := {
  config : Config.t;
  api_key : string;
  api_base : string;
  organization : option string;
  timeout : Z;
  max_retries : Z
}.

(** [OpenAIProvider.__init__]. *)
Definition init (cfg : Config.t) (env : Config.Env) : Result t :=
  let key :=
    Config.or_else (Config.api_key cfg)
      (env (default "OPENAI_API_KEY" (Config.api_key_env cfg))) in
  if Config.falsy key then Raise (ValueError "OpenAI API key not provided")
  else
    let* _ := Logging.info ["api_base"; "has_org"] in
    Ok {| config := cfg;
          api_key := default "" key;
          api_base := default "https://api.openai.com/v1" (Config.api_base cfg);
          organization := Config.organization cfg;
          timeout := default 60 (Config.timeout cfg);
          max_retries := default 3 (Config.max_retries cfg) |}.

Definition pricing : gmap string CostPerToken :=
  <["gpt-4-turbo" := {| input := 10 / 1000000; output := 30 / 1000000 |}]>
  (<["gpt-4-turbo-preview" := {| input := 10 / 1000000; output := 30 / 1000000 |}]>
  (<["gpt-4" := {| input := 30 / 1000000; output := 60 / 1000000 |}]>
  (<["gpt-4-0125-preview" := {| input := 10 / 1000000; output := 30 / 1000000 |}]>
  (<["gpt-4o" := {| input := 5 / 1000000; output := 15 / 1000000 |}]>
  (<["gpt-3.5-turbo" := {| input := 0.5 / 1000000; output := 1.5 / 1000000 |}]>
  (<["gpt-3.5-turbo-0125" :=
      {| input := 0.5 / 1000000; output := 1.5 / 1000000 |}]> ∅))))))%float.

Definition cost_per_token (model : string) : CostPerToken :=
  default {| input := 10 / 1000000; output := 30 / 1000000 |}%float (pricing !! model).

#[export] Instance provider : BaseLLMProvider t := {
  _get_provider_type := fun _ => OPENAI;
  get_cost_per_token := fun _ model => cost_per_token model
}.

(** [data['choices'][0]]. *)
Definition first_choice (data : Data) : Result Choice :=
  match choices data with
  | None => Raise (KeyError "choices")
  | Some [] => Raise (IndexError "list index out of range")
  | Some (c :: _) => Ok c
  end.

(** [choice['message']['content']]. *)
Definition content_of (c : Choice) : Result string :=
  match message c with
  | None => Raise (KeyError "message")
  | Some m =>
      match content m with
      | None => Raise (KeyError "content")
      | Some s => Ok s
      end
  end.

Definition usage_get (u : option Usage) (f : Usage -> option Z) (dflt : Z) : Z :=
  match u with
  | Some u => default dflt (f u)
  | None => dflt
  end.

Definition put (k : string) (v : option Z) (m : gmap string Z) : gmap string Z :=
  match v with
  | Some z => <[k := z]> m
  | None => m
  end.

Definition usage_meta (u : option Usage) : MetaVal :=
  match u with
  | Some u =>
      MUsage (put "prompt_tokens" (prompt_tokens u)
                (put "completion_tokens" (completion_tokens u)
                   (put "total_tokens" (total_tokens u) ∅)))
  | None => MVal VNone
  end.

(** [OpenAIProvider.generate]. *)
Definition generate (self : t) (request : LLMRequest.t) : M Data LLMResponse.t :=
  let! _ := lift (validate_request request) in
  let! m := lift (LLMRequest.getattr request "model") in
  let model :=
    str_or m (default "gpt-4-turbo-preview" (Config.default_model (config self))) in
  let! start_time := time in
  catch
    (let! o := post in
     match o with
     | TimedOut => raise AsyncioTimeoutError
     | Failed msg => raise (ClientError msg)
     | Responded status body json =>
         if status =? 200 then
           let! data := match json with
                        | Some d => ret d
                        | None => raise (ClientError "response is not JSON")
                        end in
           let! end_time := time in
           let latency_ms := ((end_time - start_time) * 1000)%float in
           let! choice := lift (first_choice data) in
           let! content := lift (content_of choice) in
           let input_tokens := usage_get (usage data) prompt_tokens 0 in
           let output_tokens := usage_get (usage data) completion_tokens 0 in
           let total_tokens :=
             usage_get (usage data) total_tokens (input_tokens + output_tokens) in
           let! cost := lift (calculate_cost self input_tokens output_tokens model) in
           let! _ := lift (Logging.info ["model"; "tokens"; "cost"; "latency_ms"]) in
           let! _ := lift (LLMResponse.init_keywords
                             ["content"; "model"; "provider"; "input_tokens";
                              "output_tokens"; "tokens_used"; "cost"; "latency_ms";
                              "metadata"]) in
           ret {| LLMResponse.content := Some content;
                  LLMResponse.model := model;
                  LLMResponse.provider := ByType (_get_provider_type self);
                  LLMResponse.tokens_used := Some total_tokens;
                  LLMResponse.cost := cost;
                  LLMResponse.latency_ms := latency_ms;
                  LLMResponse.metadata :=
                    <["finish_reason" :=
                        MVal (from_option VStr VNone (finish_reason choice))]>
                    (<["usage" := usage_meta (usage data)]> ∅);
                  LLMResponse.finish_reason := None;
                  LLMResponse.error := None |}
         else
           let! _ := lift (Logging.error ["status"; "error"]) in
           raise (Exception_ ("OpenAI API error " ++ str_of_Z status ++ ": " ++ body))
     end)
    (fun e =>
       match e with
       | AsyncioTimeoutError =>
           let! _ := lift (Logging.error ["model"]) in
           raise (Exception_ ("OpenAI API timeout for model " ++ model))
       | _ =>
           let! _ := lift (Logging.error ["error"; "model"]) in
           raise e
       end).

(** [OpenAIProvider.health_check]. *)
Definition health_check (self : t) : bool :=
  if (String.eqb (api_key self) "" || negb (String.prefix "sk-" (api_key self)))%bool
  then false else true.

End OpenAIProvider.

(** ** The retry decorator *)

(** Modelled from the spec: [shared.utils.retry.SmartRetry], which
    [gemini_provider.py] imports and puts on [generate], is not among the
    source files. Section 4.5 of the spec describes it: from a retryable
    failure, while the attempt count is below the configured maximum, the
    call is dispatched again after a backoff delay that doubles per attempt;
    otherwise the error is propagated unchanged. [retry_on] says which
    exceptions are retryable. *)
Fixpoint SmartRetry_from {D A} (retry_on : PyExc -> bool) (base_delay : float)
    (retries_left : nat) (attempt : Z) (f : M D A) : M D A :=
  catch f
    (fun e =>
       match retries_left with
       | O => raise e
       | S n =>
           if retry_on e then
             let! _ := sleep (FSecs (Z.ldexp base_delay attempt)) in
             SmartRetry_from retry_on base_delay n (attempt + 1) f
           else raise e
       end).

Definition SmartRetry {D A} (max_retries : Z) (base_delay : float)
    (retry_on : PyExc -> bool) (f : M D A) : M D A :=
  SmartRetry_from retry_on base_delay (Z.to_nat max_retries - 1) 0 f.

(** ** [gemini_provider.py] *)
Module GeminiProvider.

Record Part := { text : option string }.
Record Content := { parts : option (list Part) }.
Record Candidate := { content : option Content; finishReason : option string }.
Record UsageMetadata := {
  promptTokenCount : option Z;
  candidatesTokenCount : option Z;
  totalTokenCount : option Z
}.
Record Data := {
  candidates : option (list Candidate);
  usageMetadata : option UsageMetadata
}.

(** The class attribute [GeminiProvider._rate_limiter]: [None] until the
    first instance is built, then a semaphore of the given size. *)
Definition ClassState := option Z.

Record t := {
  api_key : string;
  default_model : string;
  thinking_mode : bool;
  base_url : string;
  timeout : Z;
  max_retries : Z;
  genai_client : bool      (* [self.genai_client is not None] *)
}.

(** [GeminiProvider.__init__]; [sdk] says whether the GenAI SDK is installed
    and its client could be built. The semaphore is made, and bound to the
    class attribute, before the API key is looked at; [asyncio.Semaphore]
    refuses a negative size. *)
Definition init (cfg : Config.t) (env : Config.Env) (sdk : bool)
    (cls : ClassState) : Result t * ClassState :=
  let '(made, cls') :=
    match cls with
    | Some _ => (Ok tt, cls)
    | None =>
        let max_concurrent := default 8 (Config.max_concurrent_requests cfg) in
        if max_concurrent <? 0
        then (Raise (ValueError "Semaphore initial value must be >= 0"), cls)
        else (Logging.info ["max_concurrent"], Some max_concurrent)
    end in
  match made with
  | Raise e => (Raise e, cls')
  | Ok _ =>
      let key := Config.or_else (Config.api_key cfg) (env "GEMINI_API_KEY") in
      if Config.falsy key then (Raise (ValueError "Gemini API key not provided"), cls')
      else
        (let* _ := Logging.info ["model"; "thinking_mode"; "genai_sdk_available"] in
         Ok {| api_key := default "" key;
               default_model := default "gemini-2.5-flash" (Config.default_model cfg);
               thinking_mode := default true (Config.thinking_mode cfg);
               base_url := "https://generativelanguage.googleapis.com/v1beta";
               timeout := default 60 (Config.timeout cfg);
               max_retries := default 3 (Config.max_retries cfg);
               genai_client := sdk |},
         cls')
  end.

(** [GeminiProvider.get_cost_per_token]. *)
Definition cost_per_token (model : string) : CostPerToken :=
  if contains "flash" (lower model) then {| input := 0; output := 0 |}
  else if contains "pro" (lower model) then {| input := 0; output := 0 |}
  else {| input := 0; output := 0 |}.

#[export] Instance provider : BaseLLMProvider t := {
  _get_provider_type := fun _ => GEMINI;
  get_cost_per_token := fun _ model => cost_per_token model
}.

(** The label the error message carries for a status. *)
Definition error_type (status : Z) : string :=
  if status =? 429 then "rate_limit"
  else if status =? 401 then "authentication"
  else if status =? 400 then "bad_request"
  else if 500 <=? status then "server_error"
  else "unknown".

(** How one pass through the loop body ends, when it does not raise. *)
Inductive Flow :=
| Returned (r : LLMResponse.t)
| Continued.

(** [if attempt < self.max_retries - 1: wait_time = 2 ** attempt;
    logger.info(..., attempt=attempt+1); sleep(wait_time); continue
    else: <last>]. *)
Definition backoff (self : t) (attempt : Z) (last : M Data Flow) : M Data Flow :=
  if attempt <? max_retries self - 1 then
    let! _ := lift (Logging.info ["attempt"]) in
    let! _ := sleep (Secs (2 ^ attempt)) in
    ret Continued
  else last.

(** The local variable [candidate] after an outcome: it is (re)bound only
    when a 200 body has a first candidate, and otherwise keeps what an
    earlier pass left in it. *)
Definition bind_candidate (prev : option Candidate) (o : Outcome Data) : option Candidate :=
  match o with
  | Responded status _ (Some d) =>
      if status =? 200 then
        match candidates d with
        | Some (c :: _) => Some c
        | _ => prev
        end
      else prev
  | _ => prev
  end.

(** The generated text of a 200 body. *)
Definition generated_text (d : Data) : Result string :=
  match candidates d with
  | Some (c :: _) =>
      match content c with
      | Some cc =>
          match parts cc with
          | Some (p :: _) => Ok (default "" (text p))
          | Some [] => Raise (IndexError "list index out of range")
          | None => Ok ""
          end
      | None => Ok ""
      end
  | _ => Ok ""
  end.

Definition usage_get (u : option UsageMetadata) (f : UsageMetadata -> option Z)
    (dflt : Z) : Z :=
  match u with
  | Some u => default dflt (f u)
  | None => dflt
  end.

(** The body of the [try] in the retry loop, from the outcome of the POST.
    On a status other than 200 the error is logged, with keywords, before
    the retry is decided. *)
Definition try_body (self : t) (model : string) (start_time : float)
    (attempt : Z) (candidate : option Candidate) (o : Outcome Data) : M Data Flow :=
  match o with
  | TimedOut => raise AsyncioTimeoutError
  | Failed msg => raise (ClientError msg)
  | Responded status body json =>
      if negb (status =? 200) then
        let! _ := lift (Logging.error
                          ["status"; "error_type"; "error_detail"; "model"; "will_retry"]) in
        backoff self attempt
          (raise (Exception_ ("Gemini API " ++ error_type status ++ " (HTTP "
                              ++ str_of_Z status ++ "): " ++ substring 0 500 body)))
      else
        let! result := match json with
                       | Some d => ret d
                       | None => raise (ClientError "response is not JSON")
                       end in
        let! generated := lift (generated_text result) in
        let! now := time in
        let latency_ms := ((now - start_time) * 1000)%float in
        let prompt_tokens := usage_get (usageMetadata result) promptTokenCount 0 in
        let candidates_tokens := usage_get (usageMetadata result) candidatesTokenCount 0 in
        let total_tokens :=
          usage_get (usageMetadata result) totalTokenCount
            (prompt_tokens + candidates_tokens) in
        let! cost := lift (calculate_cost self prompt_tokens candidates_tokens model) in
        let! finish := match candidate with
                       | Some c => ret (default "STOP" (finishReason c))
                       | None => raise (UnboundLocalError "candidate")
                       end in
        let! _ := lift (LLMResponse.init_keywords
                          ["content"; "model"; "provider"; "tokens_used"; "cost";
                           "latency_ms"; "metadata"]) in
        ret (Returned
               {| LLMResponse.content := Some generated;
                  LLMResponse.model := model;
                  LLMResponse.provider := ByName "gemini";
                  LLMResponse.tokens_used := Some total_tokens;
                  LLMResponse.cost := cost;
                  LLMResponse.latency_ms := latency_ms;
                  LLMResponse.metadata :=
                    <["prompt_tokens" := MVal (VInt prompt_tokens)]>
                    (<["completion_tokens" := MVal (VInt candidates_tokens)]>
                    (<["thinking_mode" := MVal (VBool (thinking_mode self))]>
                    (<["finish_reason" := MVal (VStr finish)]> ∅)));
                  LLMResponse.finish_reason := None;
                  LLMResponse.error := None |})
  end.

(** The two [except] clauses of the loop: [asyncio.TimeoutError], then
    [Exception]. Each logs, with keywords, before it decides on the retry;
    what a clause raises leaves the loop. *)
Definition handlers (self : t) (attempt : Z) (e : PyExc) : M Data Flow :=
  match e with
  | AsyncioTimeoutError =>
      let! _ := lift (Logging.warning ["timeout"; "model"; "will_retry"]) in
      backoff self attempt
        (raise (Exception_ ("Gemini API timeout after "
                            ++ str_of_Z (max_retries self) ++ " attempts ("
                            ++ str_of_Z (timeout self) ++ "s each)")))
  | _ =>
      let! _ := lift (Logging.error ["error"; "error_type"; "model"; "will_retry"]) in
      backoff self attempt (raise e)
  end.

(** [for attempt in <todo>: try: ... except ...], with the value of the
    local [candidate] on entry. Falling out of the loop returns [None]. *)
Fixpoint retry_loop (self : t) (model : string) (start_time : float)
    (todo : list Z) (candidate : option Candidate) : M Data (option LLMResponse.t) :=
  match todo with
  | [] => ret None
  | attempt :: rest =>
      let! o := post in
      let candidate' := bind_candidate candidate o in
      let! flow :=
        catch (try_body self model start_time attempt candidate' o)
              (handlers self attempt) in
      match flow with
      | Returned r => ret (Some r)
      | Continued => retry_loop self model start_time rest candidate'
      end
  end.

(** [range(n)]. *)
Definition range (n : Z) : list Z := map Z.of_nat (seq 0 (Z.to_nat n)).

(** An attribute of an object the GenAI SDK hands back, as [hasattr] and
    [getattr] see it: absent, present and [None], or present with a value. *)
Inductive SdkAttr (A : Type) :=
| Absent
| IsNone
| Has (a : A).
Arguments Absent {A}.
Arguments IsNone {A}.
Arguments Has {A} a.

(** The attributes [_generate_with_sdk] probes. *)
Record SdkUsage := {
  prompt_token_count : SdkAttr Z;
  candidates_token_count : SdkAttr Z;
  total_token_count : SdkAttr Z
}.
Record SdkResponse := {
  sdk_text : SdkAttr string;
  usage_metadata : SdkAttr SdkUsage
}.

(** The text of the first part of the first candidate, when there is one. *)
Definition first_text (d : Data) : option string :=
  match candidates d with
  | Some (c :: _) =>
      match content c with
      | Some cc =>
          match parts cc with
          | Some (p :: _) => text p
          | _ => None
          end
      | None => None
      end
  | _ => None
  end.

Definition attr_of {A} (o : option A) : SdkAttr A :=
  match o with
  | Some a => Has a
  | None => IsNone
  end.

(** The SDK's reading of a 200 body. Its response objects declare their
    attributes, so that one the body does not give is there and [None]. *)
Definition sdk_response (d : Data) : SdkResponse :=
  {| sdk_text := attr_of (first_text d);
     usage_metadata :=
       attr_of
         (option_map
            (fun u => {| prompt_token_count := attr_of (promptTokenCount u);
                         candidates_token_count := attr_of (candidatesTokenCount u);
                         total_token_count := attr_of (totalTokenCount u) |})
            (usageMetadata d)) |}.

(** [self.genai_client.models.generate_content(...)]: the SDK makes the
    vendor call itself and raises on anything but a 200 with a JSON body. *)
Definition sdk_generate_content : M Data SdkResponse :=
  let! o := post in
  match o with
  | Responded status body (Some d) =>
      if status =? 200 then ret (sdk_response d) else raise (ClientError body)
  | Responded _ body None => raise (ClientError body)
  | TimedOut => raise (ClientError "deadline exceeded")
  | Failed msg => raise (ClientError msg)
  end.

(** [getattr(usage, name, dflt)] for a count: [None] or an [int]. *)
Definition sdk_getattr (a : SdkAttr Z) (dflt : option Z) : option Z :=
  match a with
  | Absent => dflt
  | IsNone => None
  | Has z => Some z
  end.

(** The three counts [_generate_with_sdk] takes from a response: zeros
    unless [response.usage_metadata] is there; [getattr] on [None] gives
    its default; and the default of the total, [prompt_tokens +
    completion_tokens], is computed whether it is needed or not, which
    [None] does not allow. *)
Definition sdk_usage (response : SdkResponse) : Result (Z * Z * option Z) :=
  match usage_metadata response with
  | Has usage =>
      match sdk_getattr (prompt_token_count usage) (Some 0),
            sdk_getattr (candidates_token_count usage) (Some 0) with
      | Some prompt_tokens, Some completion_tokens =>
          Ok (prompt_tokens, completion_tokens,
              sdk_getattr (total_token_count usage)
                (Some (prompt_tokens + completion_tokens)))
      | None, Some _ =>
          Raise (TypeError "unsupported operand type(s) for +: 'NoneType' and 'int'")
      | Some _, None =>
          Raise (TypeError "unsupported operand type(s) for +: 'int' and 'NoneType'")
      | None, None =>
          Raise (TypeError "unsupported operand type(s) for +: 'NoneType' and 'NoneType'")
      end
  | IsNone | Absent => Ok (0, 0, Some 0)
  end.

(** [response.text if hasattr(response, 'text') else ""]. *)
Definition sdk_generated_text (response : SdkResponse) : option string :=
  match sdk_text response with
  | Absent => Some ""
  | IsNone => None
  | Has s => Some s
  end.

(** [GeminiProvider._generate_with_sdk]. The [except] clause logs, with
    keywords, before it re-raises. *)
Definition _generate_with_sdk (self : t) (request : LLMRequest.t) (model : string)
    (thinking_budget : PyVal) : M Data LLMResponse.t :=
  let! start_time := time in
  catch
    (let! _ := build_sdk_config request thinking_budget in
     let! _ := lift (Logging.info ["model"; "thinking_budget"]) in
     let! response := sdk_generate_content in
     let generated := sdk_generated_text response in
     let! now := time in
     let latency_ms := ((now - start_time) * 1000)%float in
     let! (prompt_tokens, completion_tokens, total_tokens) := lift (sdk_usage response) in
     let! cost := lift (calculate_cost self prompt_tokens completion_tokens model) in
     let! _ := lift (int_of_float_defined latency_ms) in
     let! _ := lift (Logging.info ["model"; "thinking_budget"; "tokens"; "latency_ms"]) in
     let! _ := lift (LLMResponse.init_keywords
                       ["content"; "model"; "provider"; "tokens_used"; "cost";
                        "latency_ms"; "metadata"]) in
     ret {| LLMResponse.content := generated;
            LLMResponse.model := model;
            LLMResponse.provider := ByName "gemini";
            LLMResponse.tokens_used := total_tokens;
            LLMResponse.cost := cost;
            LLMResponse.latency_ms := latency_ms;
            LLMResponse.metadata :=
              <["prompt_tokens" := MVal (VInt prompt_tokens)]>
              (<["completion_tokens" := MVal (VInt completion_tokens)]>
              (<["thinking_mode" := MVal (VBool true)]>
              (<["thinking_budget" := MVal thinking_budget]>
              (<["sdk_used" := MVal (VStr "google-genai")]> ∅))));
            LLMResponse.finish_reason := None;
            LLMResponse.error := None |})
    (fun e =>
       let! _ := lift (Logging.error ["model"; "thinking_budget"]) in
       raise e).

(** [a or b] for an optional and a plain string. *)
Definition or_str (a : option string) (b : string) : string :=
  match a with
  | Some s => if String.eqb s "" then b else s
  | None => b
  end.

(** [request.metadata.get('thinking_budget') if request.metadata else None]. *)
Definition thinking_budget_of (request : LLMRequest.t) : PyVal :=
  if bool_decide (LLMRequest.metadata request = ∅) then VNone
  else default VNone (LLMRequest.metadata request !! "thinking_budget").

(** The function under the decorator: the body of [GeminiProvider.generate]
    as the source file writes it. *)
Definition generate_body (self : t) (request : LLMRequest.t)
    : M Data (option LLMResponse.t) :=
  let! _ := lift (validate_request request) in
  let model := or_str (LLMRequest.model_override request) (default_model self) in
  let thinking_budget := thinking_budget_of request in
  if (negb (bool_decide (thinking_budget = VNone)) && genai_client self)%bool then
    let! r := _generate_with_sdk self request model thinking_budget in
    ret (Some r)
  else
    let! start_time := time in
    async_with_gate
      (retry_loop self model start_time (range (max_retries self)) None).

(** [GeminiProvider.generate]:
    [@SmartRetry(max_retries=3, base_delay=2.0, retry_on=(Exception,))]. *)
Definition generate (self : t) (request : LLMRequest.t)
    : M Data (option LLMResponse.t) :=
  SmartRetry 3 2 (fun _ => true) (generate_body self request).

(** [LLMRequest(prompt="test", max_tokens=10, temperature=0.1)]; the two
    literals are the doubles Python reads [0.1] and [0.9] as. *)
Definition test_request : LLMRequest.t :=
  {| LLMRequest.prompt := "test";
     LLMRequest.system_message := None;
     LLMRequest.temperature := 0x1.999999999999ap-4;
     LLMRequest.max_tokens := 10;
     LLMRequest.top_p := 0x1.ccccccccccccdp-1;
     LLMRequest.stream := false;
     LLMRequest.metadata := ∅;
     LLMRequest.model_override := None;
     LLMRequest.timeout := None |}.

(** [GeminiProvider.health_check]. *)
Definition health_check (self : t) : M Data bool :=
  catch (let! _ := generate self test_request in ret true)
        (fun _ => ret false).

End GeminiProvider.

(** * Properties *)

(** ** The classification function *)
Section Classification.

(** The quota marker the classifier looks for in a response body. *)
Definition has_quota_marker (body : string) : bool :=
  contains "quota" (lower body).

(** The kind [from_http_status] gives a triple, with no further keywords. *)
Definition classify (status : Z) (provider body : string) : Result Kind :=
  rmap kind_of (from_http_status status provider body ∅).

(** With no keywords of its own, a constructor call never fails on its
    arguments: the case analysis below evaluates each branch. *)
Lemma from_http_status_total status provider body :
  exists e, from_http_status status provider body ∅ = Ok e
            /\ Exceptions.provider (base_of e) = VStr provider.
Proof.
  unfold from_http_status.
  repeat match goal with
         | |- context [if ?c then _ else _] => destruct c
         end; eexists; (split; [reflexivity | reflexivity]).
Qed.

(** The decision list of [from_http_status], read as a function of the
    status and of whether the body has the quota marker. *)
Lemma classify_cases status provider body :
  classify status provider body =
  Ok (if (Z.eqb status 401 || Z.eqb status 403)%bool then AuthenticationFailed
      else if Z.eqb status 429 then RateLimited
      else if (Z.eqb status 402 || has_quota_marker body)%bool then QuotaExceeded
      else if Z.eqb status 404 then ModelNotFound
      else if Z.eqb status 400 then InvalidRequest
      else if (Z.eqb status 503 || Z.eqb status 502)%bool then ProviderUnavailable
      else Unclassified).
Proof.
  unfold classify, from_http_status, has_quota_marker.
  repeat match goal with
         | |- context [if ?c then _ else _] => destruct c
         end; reflexivity.
Qed.

(** C5, as stated, fails: a 404 whose body has the quota marker is
    classified QuotaExceeded, not ModelNotFound, because the quota test
    comes before the 404 test. *)
Lemma from_http_status_404_quota_body :
  ~ (forall provider body, classify 404 provider body = Ok ModelNotFound).
Proof.
  intros H. specialize (H "openai" "Quota exceeded for this project").
  vm_compute in H. discriminate H.
Qed.

(** C5 (amended): for every (status, body, provider) triple the
    classification succeeds, keeps the provider identifier, and gives the
    kind of the table, the quota marker taking precedence over every status
    but 401, 403 and 429: 401 and 403 give AuthenticationFailed; 429 gives
    RateLimited; otherwise 402 or a body with the quota marker gives
    QuotaExceeded; otherwise 404 gives ModelNotFound, 400 InvalidRequest,
    502 and 503 ProviderUnavailable, and any other status the base error
    carrying the status code. The kind does not depend on the provider. *)
Theorem from_http_status_table status provider body :
  exists e,
    from_http_status status provider body ∅ = Ok e
    /\ Exceptions.provider (base_of e) = VStr provider
    /\ (status = 401 \/ status = 403 -> kind_of e = AuthenticationFailed)
    /\ (status = 429 -> kind_of e = RateLimited)
    /\ (status <> 401 -> status <> 403 -> status <> 429 ->
        status = 402 \/ has_quota_marker body = true -> kind_of e = QuotaExceeded)
    /\ (has_quota_marker body = false ->
        (status = 404 -> kind_of e = ModelNotFound)
        /\ (status = 400 -> kind_of e = InvalidRequest)
        /\ (status = 502 \/ status = 503 -> kind_of e = ProviderUnavailable)
        /\ (~ In status [400; 401; 402; 403; 404; 429; 502; 503] ->
            kind_of e = Unclassified
            /\ Exceptions.metadata (base_of e) !! "status_code" = Some (VInt status)))
    /\ (forall provider', classify status provider' body = Ok (kind_of e)).
Proof.
  destruct (from_http_status_total status provider body) as (e & He & Hp).
  exists e. split; [exact He|]. split; [exact Hp|].
  assert (Hk : classify status provider body = Ok (kind_of e))
    by (unfold classify; rewrite He; reflexivity).
  rewrite classify_cases in Hk.
  assert (Hall : forall provider', classify status provider' body = Ok (kind_of e))
    by (intros p'; rewrite classify_cases; exact Hk).
  injection Hk as Hk'.
  repeat split; try exact Hall; intros.
  - rewrite <- Hk'. destruct H as [-> | ->]; reflexivity.
  - rewrite <- Hk'. subst; reflexivity.
  - rewrite <- Hk'.
    destruct (Z.eqb_spec status 401); [lia|].
    destruct (Z.eqb_spec status 403); [lia|].
    destruct (Z.eqb_spec status 429); [lia|]. simpl.
    destruct H2 as [-> | ->]; [reflexivity|]. by rewrite orb_true_r.
  - subst. rewrite <- Hk', H. reflexivity.
  - subst. rewrite <- Hk', H. reflexivity.
  - rewrite <- Hk', H. destruct H0 as [-> | ->]; reflexivity.
  - rewrite <- Hk', H.
    simpl in H0.
    repeat match goal with
           | |- context [Z.eqb ?a ?b] => destruct (Z.eqb_spec a b); [lia|]
           end.
    reflexivity.
  - revert He. unfold from_http_status. unfold has_quota_marker in H. rewrite H.
    simpl in H0.
    repeat match goal with
           | |- context [Z.eqb ?a ?b] => destruct (Z.eqb_spec a b); [lia|]
           end.
    simpl. intros He. injection He as <-. reflexivity.
Qed.

(** The table at a 404 without marker. *)
Lemma from_http_status_table_witness :
  exists e, from_http_status 404 "gemini" "no such model" ∅ = Ok e
            /\ kind_of e = ModelNotFound.
Proof.
  destruct (from_http_status_table 404 "gemini" "no such model")
    as (e & He & _ & _ & _ & _ & Hq & _).
  exists e. split; [exact He|]. apply Hq; reflexivity.
Defined.

End Classification.

(** ** Parameters bound twice *)
Section BoundByPosition.

Lemma bound_by_position_Ok params kw :
  bound_by_position params kw = Ok tt <-> forall p, In p params -> kw !! p = None.
Proof.
  induction params as [|p0 rest IH]; simpl.
  - split; [intros _ p []|reflexivity].
  - destruct (kw !! p0) eqn:E.
    + split; [discriminate|]. intros H. rewrite (H p0) in E; [discriminate|left; reflexivity].
    + rewrite IH. split.
      * intros H p [<-|Hp]; [exact E|apply H, Hp].
      * intros H p Hp. apply H. right. exact Hp.
Qed.

Lemma bound_by_position_Raise params kw e :
  bound_by_position params kw = Raise e -> exists msg, e = TypeError msg.
Proof.
  induction params as [|p0 rest IH]; simpl; [discriminate|].
  destruct (kw !! p0); [intros [= <-]; eauto|exact IH].
Qed.

Lemma bound_by_position_cases params kw :
  bound_by_position params kw = Ok tt
  \/ exists msg, bound_by_position params kw = Raise (TypeError msg).
Proof.
  destruct (bound_by_position params kw) as [[]|e] eqn:E; [left; reflexivity|right].
  destruct (bound_by_position_Raise _ _ _ E) as [msg ->]. eauto.
Qed.

End BoundByPosition.

(** ** Rate limits and the retry-after hint *)
Section RetryAfter.

(** A keyword written in a call and present behind [**] is refused. *)
Lemma pass_kw_duplicate k v rest kw :
  is_Some (kw !! k) ->
  exists msg, pass_kw ((k, v) :: rest) kw = Raise (TypeError msg).
Proof.
  intros Hk. simpl.
  assert (H : (exists msg, pass_kw rest kw = Raise (TypeError msg))
              \/ (exists kw', pass_kw rest kw = Ok kw' /\ is_Some (kw' !! k))).
  { clear v. induction rest as [|[k1 v1] rest IH]; simpl.
    - right. eauto.
    - destruct IH as [(msg & ->) | (kw' & -> & Hs)]; simpl.
      + left. eauto.
      + destruct (kw' !! k1) eqn:E1; [left; eauto|].
        right. eexists. split; [reflexivity|].
        destruct (decide (k1 = k)) as [->|Hne].
        * rewrite lookup_insert_eq. eauto.
        * by rewrite lookup_insert_ne. }
  destruct H as [(msg & ->) | (kw' & -> & [x Hx])]; simpl; [eauto|].
  rewrite Hx. eauto.
Qed.

(** C4: at status 429 with [retry_after=5] the classifier does not return a
    RateLimited error: the hint is passed to [RateLimitError] twice, by name
    and through [**kwargs], and the call raises [TypeError]. *)
Theorem from_http_status_429_retry_after_5 provider body :
  from_http_status 429 provider body {[ "retry_after" := VInt 5 ]}
  = Raise (TypeError "got multiple values for keyword argument 'retry_after'").
Proof. reflexivity. Qed.

(** The same for every hint and every further keyword. *)
Lemma from_http_status_429_hint_raises provider body kw v :
  kw !! "retry_after" = Some v ->
  exists msg, from_http_status 429 provider body kw = Raise (TypeError msg).
Proof.
  intros Hv. unfold from_http_status.
  destruct (bound_by_position_cases ["status_code"; "provider"; "response_text"] kw)
    as [->|[msg ->]]; cbn [rbind]; [|eauto].
  simpl. unfold RateLimitError_init.
  destruct (pass_kw_duplicate "retry_after" (default VNone (kw !! "retry_after"))
              [("response", VStr body)] kw) as (msg & ->); [eauto|].
  simpl. eauto.
Qed.

(** So whatever the classifier returns at 429 carries no hint. *)
Lemma from_http_status_429_no_hint provider body kw e :
  from_http_status 429 provider body kw = Ok e ->
  exists b, e = RateLimitError b VNone.
Proof.
  intros He. destruct (kw !! "retry_after") as [v|] eqn:Hv.
  - destruct (from_http_status_429_hint_raises provider body kw v Hv) as (msg & Hm).
    rewrite Hm in He. discriminate.
  - revert He. unfold from_http_status.
    destruct (bound_by_position _ kw) as [[]|]; cbn [rbind]; [|discriminate].
    simpl. rewrite Hv. simpl.
    unfold RateLimitError_init. simpl.
    destruct (kw !! "response") eqn:Hr; simpl; [discriminate|].
    rewrite lookup_insert_ne by done. rewrite Hv. simpl.
    rewrite !lookup_insert_eq. simpl. intros He.
    repeat match goal with
           | H : rbind ?r _ = Ok _ |- _ =>
               destruct r eqn:?; simpl in H; [|discriminate H]
           end.
    injection He as <-. eauto.
Qed.

End RetryAfter.

(** ** Facts on binary64 comparisons *)
Module FloatFacts.

Lemma SFcompare_antisym x y c :
  SFcompare x y = Some c -> SFcompare y x = Some (CompOpp c).
Proof.
  destruct x as [sx|sx| |sx mx ex], y as [sy|sy| |sy my ey]; simpl;
    try discriminate; try (intros [= <-]);
    try (destruct sx; reflexivity); try (destruct sy; reflexivity);
    try (destruct sx, sy; reflexivity).
  destruct sx, sy; try reflexivity;
    rewrite (Z.compare_antisym ex ey);
    change (Pos.compare_cont Eq my mx) with (Pos.compare my mx);
    change (Pos.compare_cont Eq mx my) with (Pos.compare mx my);
    rewrite (Pos.compare_antisym mx my);
    destruct (ex ?= ey); simpl; try reflexivity;
    destruct (mx ?= my)%positive; reflexivity.
Qed.

(** [x <= y] excludes [y < x]. *)
Lemma leb_ltb_false (x y : float) :
  (x <=? y)%float = true -> (y <? x)%float = false.
Proof.
  rewrite leb_spec, ltb_spec. unfold SFleb, SFltb.
  destruct (SFcompare (Prim2SF x) (Prim2SF y)) as [c|] eqn:E; [|discriminate].
  rewrite (SFcompare_antisym _ _ _ E). destruct c; simpl; congruence.
Qed.

End FloatFacts.

(** ** Validation *)
Section Validation.

(** A request [validate_request] must refuse: empty prompt, temperature
    below 0 or above 2, or fewer than one output token. *)
Definition invalid (r : LLMRequest.t) : Prop :=
  LLMRequest.prompt r = ""
  \/ (LLMRequest.temperature r <? 0)%float = true
  \/ (2 <? LLMRequest.temperature r)%float = true
  \/ LLMRequest.max_tokens r < 1.

(** A request with non-empty prompt, temperature in [0,2] and at least one
    output token. *)
Definition valid (r : LLMRequest.t) : Prop :=
  LLMRequest.prompt r <> ""
  /\ (0 <=? LLMRequest.temperature r)%float = true
  /\ (LLMRequest.temperature r <=? 2)%float = true
  /\ 1 <= LLMRequest.max_tokens r.

(** [LLMRequest(prompt=p)]: the defaults of the dataclass ([0.7] and [0.9]
    as the doubles Python reads them). *)
Definition request_of (p : string) : LLMRequest.t :=
  {| LLMRequest.prompt := p;
     LLMRequest.system_message := None;
     LLMRequest.temperature := 0x1.6666666666666p-1;
     LLMRequest.max_tokens := 2048;
     LLMRequest.top_p := 0x1.ccccccccccccdp-1;
     LLMRequest.stream := false;
     LLMRequest.metadata := ∅;
     LLMRequest.model_override := None;
     LLMRequest.timeout := None |}.

Lemma validate_request_invalid r :
  invalid r -> exists msg, validate_request r = Raise (ValueError msg).
Proof.
  unfold invalid, validate_request. intros H.
  destruct (String.eqb_spec (LLMRequest.prompt r) ""); [eauto|].
  destruct H as [H|[H|[H|H]]]; [contradiction| | |].
  - rewrite H. simpl. eauto.
  - rewrite H, orb_true_r. eauto.
  - destruct (_ || _)%bool; [eauto|].
    destruct (Z.ltb_spec (LLMRequest.max_tokens r) 1); [eauto|lia].
Qed.

Lemma validate_request_valid r : valid r -> validate_request r = Ok true.
Proof.
  unfold valid, validate_request. intros (Hp & H0 & H2 & Hm).
  destruct (String.eqb_spec (LLMRequest.prompt r) ""); [contradiction|].
  rewrite (FloatFacts.leb_ltb_false _ _ H0), (FloatFacts.leb_ltb_false _ _ H2). simpl.
  destruct (Z.ltb_spec (LLMRequest.max_tokens r) 1); [lia|reflexivity].
Qed.

(** A call that fails before touching the world keeps failing under the
    decorator, which only sleeps in between. *)
Lemma SmartRetry_from_early_raise {D A} (f : M D A) e :
  (forall w, f w = (Raise e, w)) ->
  forall retry_on base_delay n k w,
  exists w', SmartRetry_from retry_on base_delay n k f w = (Raise e, w')
             /\ posts w' = posts w.
Proof.
  intros Hf retry_on base_delay n. induction n as [|n IH]; intros k w; simpl.
  - unfold catch. rewrite Hf. simpl. eauto.
  - unfold catch. rewrite Hf. destruct (retry_on e); simpl; [|eauto].
    unfold bind, sleep. simpl.
    match goal with
    | |- context [SmartRetry_from _ _ n ?k' f ?w'] =>
        destruct (IH k' w') as (w1 & -> & H2)
    end.
    exists w1. split; [reflexivity | exact H2].
Qed.

(** Every adapter validates first: a refused request ends the call where
    it stands. *)
Lemma generate_validates_first r e :
  validate_request r = Raise e ->
  (forall self w, AnthropicProvider.generate self r w = (Raise e, w))
  /\ (forall self w, OpenAIProvider.generate self r w = (Raise e, w))
  /\ (forall self w, GeminiProvider.generate_body self r w = (Raise e, w)).
Proof.
  intros H. repeat split; intros self w.
  - unfold AnthropicProvider.generate, bind, lift. rewrite H. reflexivity.
  - unfold OpenAIProvider.generate, bind, lift. rewrite H. reflexivity.
  - unfold GeminiProvider.generate_body, bind, lift. rewrite H. reflexivity.
Qed.

(** C6, as stated, fails: an empty prompt is refused with the builtin
    [ValueError], not with an error of the taxonomy's InvalidRequest kind. *)
Lemma validate_request_not_InvalidRequest :
  ~ (forall r, LLMRequest.prompt r = "" ->
       exists e, validate_request r = Raise (Classified e)
                 /\ kind_of e = InvalidRequest).
Proof.
  intros H. destruct (H (request_of "") eq_refl) as (e & He & _).
  vm_compute in He. discriminate He.
Qed.

(** C6 (amended): a request with empty prompt, temperature below 0 or above
    2, or fewer than one output token is refused with a [ValueError] (the
    builtin, not the taxonomy's InvalidRequest); every [generate] runs this
    validation first and ends with that error having made no vendor call
    (under Gemini's decorator too, which only sleeps between its tries); a
    request with non-empty prompt, 0 <= temperature <= 2 and at least one
    output token passes. *)
Theorem validate_request_before_network r :
  (invalid r ->
   exists msg,
     validate_request r = Raise (ValueError msg)
     /\ (forall self w,
           AnthropicProvider.generate self r w = (Raise (ValueError msg), w))
     /\ (forall self w,
           OpenAIProvider.generate self r w = (Raise (ValueError msg), w))
     /\ (forall self w,
           GeminiProvider.generate_body self r w = (Raise (ValueError msg), w))
     /\ (forall self w,
           exists w', GeminiProvider.generate self r w = (Raise (ValueError msg), w')
                      /\ posts w' = posts w))
  /\ (valid r -> validate_request r = Ok true).
Proof.
  split; [|apply validate_request_valid].
  intros Hr. destruct (validate_request_invalid r Hr) as (msg & Hm).
  destruct (generate_validates_first r _ Hm) as (HA & HO & HG).
  exists msg. repeat split; try assumption.
  intros self w. unfold GeminiProvider.generate, SmartRetry.
  apply SmartRetry_from_early_raise. apply HG.
Qed.

(** [LLMRequest(prompt="hi", temperature=2.5, max_tokens=16, top_p=1.0)]. *)
Definition hot_request : LLMRequest.t :=
  {| LLMRequest.prompt := "hi"; LLMRequest.system_message := None;
     LLMRequest.temperature := 2.5; LLMRequest.max_tokens := 16;
     LLMRequest.top_p := 1; LLMRequest.stream := false;
     LLMRequest.metadata := ∅; LLMRequest.model_override := None;
     LLMRequest.timeout := None |}.

(** The theorem at a request with temperature 2.5, and at the default
    request. *)
Lemma validate_request_before_network_witness :
  (exists msg, validate_request hot_request = Raise (ValueError msg))
  /\ validate_request (request_of "hi") = Ok true.
Proof.
  split.
  - destruct (proj1 (validate_request_before_network hot_request)) as (msg & Hm & _).
    + right. right. left. reflexivity.
    + exists msg. exact Hm.
  - apply (proj2 (validate_request_before_network (request_of "hi"))).
    repeat split; try reflexivity; done.
Defined.

End Validation.

(** ** What a failed call raises *)
Section Failures.


Definition type_error (e : PyExc) : Prop := exists msg, e = TypeError msg.




(** A computation all of whose exceptions satisfy [P]. *)
Definition raises_only {D A} (P : PyExc -> Prop) (m : M D A) : Prop :=
  forall w e w', m w = (Raise e, w') -> P e.

Definition pure_raises_only {A} (P : PyExc -> Prop) (r : Result A) : Prop :=
  forall e, r = Raise e -> P e.

Context {D : Type}.
Variable P : PyExc -> Prop.




Lemma ro_bind {A B} (m : M D A) (k : A -> M D B) :
  raises_only P m -> (forall a, raises_only P (k a)) -> raises_only P (bind m k).
Proof.
  intros Hm Hk w e w'. unfold bind.
  destruct (m w) as [[a|e0] w0] eqn:E.
  - apply Hk.
  - intros [= <- _]. eapply Hm, E.
Qed.

(** What leaves a [try] is what its handler raises. *)
Lemma ro_catch {A} (Q : PyExc -> Prop) (m : M D A) (h : PyExc -> M D A) :
  raises_only Q m -> (forall e, Q e -> raises_only P (h e)) ->
  raises_only P (catch m h).
Proof.
  intros Hm Hh w e w'. unfold catch.
  destruct (m w) as [[a|e0] w0] eqn:E; [discriminate|].
  apply Hh. eapply Hm, E.
Qed.

Lemma ro_any {A} (m : M D A) : raises_only (fun _ => True) m.
Proof. intros w e w' _. exact I. Qed.

Lemma ro_time : raises_only (D:=D) P time.
Proof. intros w e w' H. discriminate H. Qed.





End Failures.

Section FailuresOfAdapters.


(** A logging call raises nothing but [TypeError]. *)
Lemma log_raises level keywords : pure_raises_only type_error (Logging.log level keywords).
Proof.
  intros e. unfold Logging.log.
  destruct (Logging.isEnabledFor level); [|discriminate].
  destruct (List.filter _ keywords); [discriminate|]. intros [= <-]. eexists. reflexivity.
Qed.

(** At the level in force a call at INFO returns, whatever it passes. *)
Lemma info_returns keywords : Logging.info keywords = Ok tt.
Proof. reflexivity. Qed.

(** The Anthropic and OpenAI adapters read [request.model]; the dataclass
    has no such field (the override is [model_override]), so for a request
    that passes validation the call ends there, before the vendor is
    reached. *)
Lemma generate_reads_missing_attribute r :
  validate_request r = Ok true ->
  (forall self w,
     AnthropicProvider.generate self r w
     = (Raise (AttributeError "'LLMRequest' object has no attribute 'model'"), w))
  /\ (forall self w,
        OpenAIProvider.generate self r w
        = (Raise (AttributeError "'LLMRequest' object has no attribute 'model'"), w)).
Proof.
  intros Hv. split; intros self w.
  - unfold AnthropicProvider.generate, bind, lift. rewrite Hv. reflexivity.
  - unfold OpenAIProvider.generate, bind, lift. rewrite Hv. reflexivity.
Qed.



End FailuresOfAdapters.

(** ** One pass of the Gemini adapter's loop *)
Section GeminiRetries.
Import GeminiProvider.


(** [m] neither calls the vendor nor sleeps. *)
Definition quiet {A} (m : M Data A) : Prop :=
  forall w, posts (snd (m w)) = posts w /\ sleeps (snd (m w)) = sleeps w.

(** A pass that neither calls the vendor nor sleeps, and does not go on to
    a further attempt. *)
Definition settled (m : M Data Flow) : Prop :=
  forall w,
    posts (snd (m w)) = posts w
    /\ sleeps (snd (m w)) = sleeps w
    /\ fst (m w) <> Ok Continued.

Lemma quiet_ret {A} (a : A) : quiet (ret a).
Proof. intros w. split; reflexivity. Qed.

Lemma quiet_lift {A} (r : Result A) : quiet (lift r).
Proof. intros w. split; reflexivity. Qed.

Lemma quiet_time : quiet time.
Proof. intros w. split; reflexivity. Qed.

Lemma quiet_raise {A} e : quiet (A:=A) (raise e).
Proof. intros w. split; reflexivity. Qed.

Lemma quiet_match_json (json : option Data) :
  quiet (match json with
         | Some d => ret d
         | None => raise (ClientError "response is not JSON")
         end).
Proof. destruct json; [apply quiet_ret|apply quiet_raise]. Qed.

Lemma settled_raise e : settled (raise e).
Proof. intros w. repeat split. discriminate. Qed.

Lemma settled_returned r : settled (ret (Returned r)).
Proof. intros w. repeat split. discriminate. Qed.

Lemma settled_bind {A} (m : M Data A) (k : A -> M Data Flow) :
  quiet m -> (forall a, settled (k a)) -> settled (bind m k).
Proof.
  intros Hm Hk w. unfold bind. destruct (Hm w) as [Hp Hs].
  destruct (m w) as [[a|e] w1]; simpl in *.
  - destruct (Hk a w1) as (Hp' & Hs' & Hc). rewrite Hp in Hp'. rewrite Hs in Hs'.
    repeat split; assumption.
  - repeat split; try assumption. discriminate.
Qed.

(** A pass that begins with a logging call the logger refuses ends
    there. *)
Lemma settled_refused {A} e (k : A -> M Data Flow) : settled (bind (lift (Raise e)) k).
Proof. intros w. repeat split. discriminate. Qed.

Lemma settled_catch (m : M Data Flow) (h : PyExc -> M Data Flow) :
  settled m -> (forall e, settled (h e)) -> settled (catch m h).
Proof.
  intros Hm Hh w. unfold catch. specialize (Hm w).
  destruct (m w) as [[a|e] w1]; simpl in *; [exact Hm|].
  destruct Hm as (Hp & Hs & _).
  destruct (Hh e w1) as (Hp' & Hs' & Hc). rewrite Hp in Hp'. rewrite Hs in Hs'.
  repeat split; assumption.
Qed.

(** Either [except] clause raises the logger's [TypeError] and leaves the
    world as it is: the logging call comes first and passes keywords. *)
Lemma handlers_raise self attempt e (w : World Data) :
  exists msg, handlers self attempt e w = (Raise (TypeError msg), w).
Proof. destruct e; eexists; reflexivity. Qed.

Lemma settled_handlers self attempt e : settled (handlers self attempt e).
Proof.
  intros w. destruct (handlers_raise self attempt e w) as [msg ->].
  repeat split. discriminate.
Qed.

Lemma settled_try_body self model st attempt cand o :
  settled (try_body self model st attempt cand o).
Proof.
  unfold try_body. destruct o as [status body json| |msg]; try apply settled_raise.
  destruct (negb _); [apply settled_refused|].
  apply settled_bind; [apply quiet_match_json|]. intros result.
  apply settled_bind; [apply quiet_lift|]. intros generated.
  apply settled_bind; [apply quiet_time|]. intros now.
  apply settled_bind; [apply quiet_lift|]. intros cost.
  apply settled_bind; [destruct cand; [apply quiet_ret|apply quiet_raise]|]. intros finish.
  apply settled_bind; [apply quiet_lift|]. intros _.
  apply settled_returned.
Qed.

(** One pass of the loop, after its vendor call: it returns a response or
    raises the logger's [TypeError], without a further call or a sleep. *)
Lemma pass_ends self model st attempt cand o (w : World Data) :
  posts (snd (catch (try_body self model st attempt cand o) (handlers self attempt) w))
  = posts w
  /\ sleeps (snd (catch (try_body self model st attempt cand o) (handlers self attempt) w))
     = sleeps w
  /\ ((exists r, fst (catch (try_body self model st attempt cand o)
                        (handlers self attempt) w) = Ok (Returned r))
      \/ (exists msg, fst (catch (try_body self model st attempt cand o)
                             (handlers self attempt) w) = Raise (TypeError msg))).
Proof.
  destruct (settled_catch _ _ (settled_try_body self model st attempt cand o)
              (settled_handlers self attempt) w) as (Hp & Hs & Hc).
  split; [exact Hp|]. split; [exact Hs|].
  unfold catch in *.
  destruct (try_body self model st attempt cand o w) as [[[r|]|e] w1]; cbn [fst snd] in *.
  - left. eauto.
  - contradiction.
  - right. destruct (handlers_raise self attempt e w1) as [msg ->]. eauto.
Qed.

Lemma retry_loop_cons self model st attempt rest cand :
  retry_loop self model st (attempt :: rest) cand =
  (let! o := post in
   let candidate' := bind_candidate cand o in
   let! flow := catch (try_body self model st attempt candidate' o)
                      (handlers self attempt) in
   match flow with
   | Returned r => ret (Some r)
   | Continued => retry_loop self model st rest candidate'
   end).
Proof. reflexivity. Qed.

Lemma retry_loop_step self model st a rest cand (w : World Data) :
  retry_loop self model st (a :: rest) cand w =
  let o := vendor w (posts w) in
  let w1 := {| vendor := vendor w; clock := clock w; sdk_config := sdk_config w;
               posts := S (posts w); reads := reads w; sleeps := sleeps w;
               held := held w |} in
  match catch (try_body self model st a (bind_candidate cand o) o) (handlers self a) w1 with
  | (Ok (Returned r), w2) => (Ok (Some r), w2)
  | (Ok Continued, w2) => retry_loop self model st rest (bind_candidate cand o) w2
  | (Raise e, w2) => (Raise e, w2)
  end.
Proof.
  rewrite retry_loop_cons. unfold bind, post. cbn zeta.
  destruct (catch _ _ _) as [[[resp|]|e] w2]; reflexivity.
Qed.

(** The loop with at least one attempt to make: one vendor call, no sleep,
    and then a response or the logger's [TypeError]. The attempts that
    remain are never made. *)
Lemma retry_loop_one_pass self model st a rest cand (w : World Data) :
  posts (snd (retry_loop self model st (a :: rest) cand w)) = S (posts w)
  /\ sleeps (snd (retry_loop self model st (a :: rest) cand w)) = sleeps w
  /\ ((exists r, fst (retry_loop self model st (a :: rest) cand w) = Ok (Some r))
      \/ (exists msg, fst (retry_loop self model st (a :: rest) cand w)
                      = Raise (TypeError msg))).
Proof.
  rewrite retry_loop_step. cbn zeta.
  match goal with
  | |- context [catch ?m ?h ?w1] =>
      destruct (pass_ends self model st a
                  (bind_candidate cand (vendor w (posts w))) (vendor w (posts w)) w1)
        as (Hp & Hs & Hr);
      destruct (catch m h w1) as [[[r|]|e] w2]
  end; cbn [fst snd posts sleeps] in *.
  - split; [exact Hp|]. split; [exact Hs|]. left. eauto.
  - exfalso. destruct Hr as [[r Hr]|[msg Hr]]; discriminate Hr.
  - split; [exact Hp|]. split; [exact Hs|]. right.
    destruct Hr as [[r Hr]|[msg Hr]]; [discriminate Hr|]. injection Hr as ->. eauto.
Qed.


(** The call takes the REST path: no thinking budget asked for, or no SDK
    client. *)
Definition uses_rest (self : t) (r : LLMRequest.t) : Prop :=
  thinking_budget_of r = VNone \/ genai_client self = false.

Lemma uses_rest_branch self r :
  uses_rest self r ->
  (negb (bool_decide (thinking_budget_of r = VNone)) && genai_client self)%bool = false.
Proof. intros [-> | ->]; [reflexivity | apply andb_false_r]. Qed.

Lemma range_seq n : range n = map Z.of_nat (seq 0 (Z.to_nat n)).
Proof. reflexivity. Qed.

Lemma range_cons n : 1 <= n -> exists rest, range n = 0 :: rest.
Proof.
  intros Hn. rewrite range_seq. destruct (Z.to_nat n) as [|k] eqn:E; [lia|].
  eexists. reflexivity.
Qed.

(** The REST path, written out. *)
Lemma generate_body_rest self r (w : World Data) :
  validate_request r = Ok true -> uses_rest self r ->
  generate_body self r w
  = async_with_gate
      (retry_loop self (or_str (LLMRequest.model_override r) (default_model self))
         (clock w (reads w)) (range (max_retries self)) None)
      {| vendor := vendor w; clock := clock w; sdk_config := sdk_config w;
         posts := posts w; reads := S (reads w); sleeps := sleeps w; held := held w |}.
Proof.
  intros Hv Hrest. unfold generate_body, bind at 1, lift.
  rewrite Hv, (uses_rest_branch _ _ Hrest). reflexivity.
Qed.

(** One run of the function under the decorator on the REST path, with at
    least one attempt configured: one vendor call, no sleep, the slot of the
    gate given back, and a response or the logger's [TypeError]. *)
Lemma generate_body_one_call self r (w : World Data) :
  validate_request r = Ok true -> uses_rest self r -> 1 <= max_retries self ->
  posts (snd (generate_body self r w)) = S (posts w)
  /\ sleeps (snd (generate_body self r w)) = sleeps w
  /\ ((exists resp, fst (generate_body self r w) = Ok (Some resp))
      \/ (exists msg, fst (generate_body self r w) = Raise (TypeError msg))).
Proof.
  intros Hv Hrest Hn. rewrite (generate_body_rest self r w Hv Hrest).
  destruct (range_cons _ Hn) as [rest ->]. unfold async_with_gate.
  match goal with
  | |- context [retry_loop ?s ?m ?st (0 :: rest) ?c ?w1] =>
      destruct (retry_loop_one_pass s m st 0 rest c w1) as (Hp & Hs & Hr);
      destruct (retry_loop s m st (0 :: rest) c w1) as [res w2]
  end.
  cbn [fst snd set_held posts sleeps] in *. repeat split; assumption.
Qed.


(** With no attempt configured the loop body never runs: the call returns
    [None] without a vendor call. *)
Lemma generate_body_no_attempt self r (w : World Data) :
  validate_request r = Ok true -> uses_rest self r -> max_retries self <= 0 ->
  generate_body self r w
  = (Ok None,
     {| vendor := vendor w; clock := clock w; sdk_config := sdk_config w;
        posts := posts w; reads := S (reads w); sleeps := sleeps w; held := held w |}).
Proof.
  intros Hv Hrest Hn. rewrite (generate_body_rest self r w Hv Hrest).
  rewrite range_seq. replace (Z.to_nat (max_retries self)) with 0%nat by lia.
  reflexivity.
Qed.

(** *** What the Gemini adapter raises *)



(** On the SDK path every failure passes through the [except] clause, whose
    logging call raises. *)
Lemma ro_sdk self r model budget :
  raises_only type_error (_generate_with_sdk self r model budget).
Proof.
  unfold _generate_with_sdk. apply ro_bind; [apply ro_time|]. intros st.
  apply (ro_catch type_error (fun _ => True)); [apply ro_any|].
  intros e _ w e' w' [= <- _]. eexists. reflexivity.
Qed.



End GeminiRetries.

(** ** Failures as the caller sees them *)
Section CallerView.
Import GeminiProvider.

(** A Gemini adapter built with the defaults and no SDK:
    [GeminiProvider({'api_key': 'k'})]. *)
Definition gemini_defaults : t :=
  {| api_key := "k";
     default_model := "gemini-2.5-flash";
     thinking_mode := true;
     base_url := "https://generativelanguage.googleapis.com/v1beta";
     timeout := 60;
     max_retries := 3;
     genai_client := false |}.

Definition key_only : Config.t :=
  {| Config.api_key := Some "k"; Config.api_key_env := None;
     Config.api_base := None; Config.api_version := None;
     Config.organization := None; Config.default_model := None;
     Config.timeout := None; Config.max_retries := None;
     Config.max_concurrent_requests := None; Config.thinking_mode := None |}.

Lemma init_defaults :
  init key_only (fun _ => None) false None = (Ok gemini_defaults, Some 8).
Proof. reflexivity. Qed.

(** A vendor that always answers the same. *)
Definition always (o : Outcome Data) : World Data :=
  start (fun _ => o) (fun _ => 0%float).







(** Under the decorator, which retries on every [Exception], the same call
    reaches the vendor three times, with the decorator's sleeps of 2 and 4
    seconds in between, and ends in the same [TypeError]. *)
Lemma gemini_401_decorated :
  generate gemini_defaults (request_of "hi") (always (Responded 401 "bad key" None))
  = (Raise (TypeError "Logger._log() got an unexpected keyword argument 'error'"),
     {| vendor := fun _ => Responded 401 "bad key" None; clock := fun _ => 0%float;
        sdk_config := accepting;
        posts := 3; reads := 3; sleeps := [FSecs 4; FSecs 2]; held := 0 |}).
Proof. vm_compute. reflexivity. Qed.



End CallerView.

(** ** The admission gate of the Gemini adapter

    Several [generate] calls run interleaved on one event loop and meet at
    [GeminiProvider._rate_limiter], a semaphore kept in a class attribute.
    The model follows the calls that take the REST path through the states
    in which they can be suspended; an event is one scheduling step. The
    moves are those the loop is written to make, whether or not a handler of
    the loop runs to its end: an exception that leaves a handler leaves the
    [async with] as a cancellation does. *)
Module Gate.

(** Where a call stands. *)
Inductive Phase :=
| Waiting                   (* at [async with self._rate_limiter], no slot yet *)
| InFlight (attempt : Z)    (* holds a slot; the POST of this attempt is pending *)
| Sleeping (attempt : Z)    (* holds a slot; in the backoff sleep after this attempt *)
| Finished.                 (* returned or raised: out of the [async with] *)

(** An adapter instance, by the two options that matter here. *)
Record Adapter := {
  max_concurrent_requests : option Z;
  max_retries : Z
}.

Record Task := {
  adapter : nat;     (* the instance the call was made on *)
  phase : Phase
}.

(** The semaphore: the size it was made with and its free slots. *)
Record Semaphore := {
  size : Z;
  free : Z
}.

Record State := {
  _rate_limiter : option Semaphore;   (* the class attribute *)
  adapters : list Adapter;            (* the instances, in construction order *)
  tasks : list Task
}.

Definition initial : State :=
  {| _rate_limiter := None; adapters := []; tasks := [] |}.

Inductive Event :=
| Construct (a : Adapter) (has_key : bool)  (* [GeminiProvider(config)] *)
| Call (i : nat)                            (* [generate] reaches the gate *)
| Acquire (t : nat)                         (* the call gets a slot *)
| Succeed (t : nat)                         (* a 200 answer: [return] *)
| Fail (t : nat)                            (* a failed attempt, its handler run to the end *)
| Wake (t : nat)                            (* the backoff sleep is over *)
| Cancel (t : nat).                         (* the call is cancelled, or a handler raises *)

Definition holds_slot (p : Phase) : bool :=
  match p with
  | InFlight _ | Sleeping _ => true
  | _ => false
  end.

Definition in_flight (p : Phase) : bool :=
  match p with
  | InFlight _ => true
  | _ => false
  end.

Definition set_phase (s : State) (t : nat) (i : nat) (p : Phase) : State :=
  {| _rate_limiter := _rate_limiter s; adapters := adapters s;
     tasks := <[t := {| adapter := i; phase := p |}]> (tasks s) |}.

Definition set_free (s : State) (d : Z) : State :=
  {| _rate_limiter :=
       match _rate_limiter s with
       | Some sem => Some {| size := size sem; free := free sem + d |}
       | None => None
       end;
     adapters := adapters s; tasks := tasks s |}.

(** [__init__]: the first constructor call makes the semaphore, of the size
    its own config asks for (8 by default); later calls find it made. A
    negative size, or a missing API key afterwards, fails the constructor. *)
Definition construct (s : State) (a : Adapter) (has_key : bool) : option State :=
  let limiter :=
    match _rate_limiter s with
    | Some sem => Some (Some sem)
    | None =>
        let max_concurrent := default 8 (max_concurrent_requests a) in
        if max_concurrent <? 0 then None
        else Some (Some {| size := max_concurrent; free := max_concurrent |})
    end in
  match limiter with
  | None => None
  | Some l =>
      Some {| _rate_limiter := l;
              adapters := if has_key then (adapters s ++ [a])%list else adapters s;
              tasks := tasks s |}
  end.

(** One scheduling step; [None] when the event cannot happen in [s]. *)
Definition step (s : State) (ev : Event) : option State :=
  match ev with
  | Construct a has_key => construct s a has_key
  | Call i =>
      match adapters s !! i with
      | Some _ =>
          Some {| _rate_limiter := _rate_limiter s; adapters := adapters s;
                  tasks := (tasks s ++ [{| adapter := i; phase := Waiting |}])%list |}
      | None => None
      end
  | Acquire t =>
      match tasks s !! t, _rate_limiter s with
      | Some {| adapter := i; phase := Waiting |}, Some sem =>
          if 0 <? free sem then
            match adapters s !! i with
            | Some a =>
                if 0 <? max_retries a
                then Some (set_free (set_phase s t i (InFlight 0)) (-1))
                else Some (set_phase s t i Finished)   (* empty loop: in and out *)
            | None => None
            end
          else None
      | _, _ => None
      end
  | Succeed t =>
      match tasks s !! t with
      | Some {| adapter := i; phase := InFlight _ |} =>
          Some (set_free (set_phase s t i Finished) 1)
      | _ => None
      end
  | Fail t =>
      match tasks s !! t with
      | Some {| adapter := i; phase := InFlight k |} =>
          match adapters s !! i with
          | Some a =>
              if k <? max_retries a - 1
              then Some (set_phase s t i (Sleeping k))
              else Some (set_free (set_phase s t i Finished) 1)
          | None => None
          end
      | _ => None
      end
  | Wake t =>
      match tasks s !! t with
      | Some {| adapter := i; phase := Sleeping k |} =>
          Some (set_phase s t i (InFlight (k + 1)))
      | _ => None
      end
  | Cancel t =>
      match tasks s !! t with
      | Some {| adapter := i; phase := p |} =>
          match p with
          | Finished => None
          | Waiting => Some (set_phase s t i Finished)
          | _ => Some (set_free (set_phase s t i Finished) 1)
          end
      | None => None
      end
  end.

Fixpoint run (s : State) (evs : list Event) : option State :=
  match evs with
  | [] => Some s
  | ev :: rest =>
      match step s ev with
      | Some s' => run s' rest
      | None => None
      end
  end.

Definition reachable (s : State) : Prop := exists evs, run initial evs = Some s.

Fixpoint count (p : Task -> bool) (l : list Task) : Z :=
  match l with
  | [] => 0
  | x :: rest => (if p x then 1 else 0) + count p rest
  end.

(** Vendor calls in flight, over all instances and on one of them. *)
Definition calls_in_flight (s : State) : Z :=
  count (fun t => in_flight (phase t)) (tasks s).

Definition calls_in_flight_on (i : nat) (s : State) : Z :=
  count (fun t => (Nat.eqb (adapter t) i && in_flight (phase t))%bool) (tasks s).

Definition slots_held (s : State) : Z :=
  count (fun t => holds_slot (phase t)) (tasks s).

(** What the semaphore guarantees: the slots held and the free slots add up
    to its size. Before the first constructor call there is no instance and
    no call. *)
Definition balanced (s : State) : Prop :=
  match _rate_limiter s with
  | Some sem => 0 <= free sem /\ free sem + slots_held s = size sem
  | None => tasks s = [] /\ adapters s = []
  end.

(** C9 as the claim states it: on each adapter instance, no more vendor
    calls are in flight than that instance's [max_concurrent_requests]. *)
Definition bound_per_adapter : Prop :=
  forall s, reachable s ->
  forall i a, adapters s !! i = Some a ->
    calls_in_flight_on i s <= default 8 (max_concurrent_requests a).

Lemma count_app p l1 l2 : count p (l1 ++ l2) = count p l1 + count p l2.
Proof. induction l1 as [|x l1 IH]; simpl; [reflexivity|]. rewrite IH. lia. Qed.

Lemma count_insert p l t x y :
  l !! t = Some x ->
  count p (<[t := y]> l)
  = count p l - (if p x then 1 else 0) + (if p y then 1 else 0).
Proof.
  revert t. induction l as [|z l IH]; intros [|t] H; simpl in *; try discriminate.
  - injection H as ->. lia.
  - rewrite (IH t H). lia.
Qed.

Lemma count_le p q l :
  (forall x, p x = true -> q x = true) -> 0 <= count p l <= count q l.
Proof.
  intros Hpq. induction l as [|x l IH]; simpl; [lia|].
  destruct (p x) eqn:Ep; [rewrite (Hpq x Ep); lia|]. destruct (q x); lia.
Qed.

Lemma slots_held_set_phase s t i p x :
  tasks s !! t = Some x ->
  slots_held (set_phase s t i p)
  = slots_held s - (if holds_slot (phase x) then 1 else 0)
    + (if holds_slot p then 1 else 0).
Proof. intros H. unfold slots_held. simpl. by rewrite (count_insert _ _ _ _ _ H). Qed.

Lemma slots_held_set_free s d : slots_held (set_free s d) = slots_held s.
Proof. reflexivity. Qed.

(** Every step keeps the balance and the size of the semaphore. *)
Lemma step_balanced s ev s' :
  balanced s -> step s ev = Some s' ->
  balanced s'
  /\ (forall sem, _rate_limiter s = Some sem ->
       exists sem', _rate_limiter s' = Some sem' /\ size sem' = size sem).
Proof.
  unfold balanced. intros Hb Hstep.
  destruct ev as [a k|i|t|t|t|t|t]; simpl in Hstep.
  - unfold construct in Hstep.
    destruct (_rate_limiter s) as [sem|] eqn:El.
    + injection Hstep as <-. simpl. split; [exact Hb|]. intros ? [= <-]. eauto.
    + destruct (default 8 (max_concurrent_requests a) <? 0) eqn:En; [discriminate|].
      injection Hstep as <-. simpl. destruct Hb as [Ht Ha].
      split; [|discriminate]. unfold slots_held. simpl. rewrite Ht. simpl. lia.
  - destruct (adapters s !! i) eqn:Ea; [|discriminate]. injection Hstep as <-. simpl.
    destruct (_rate_limiter s) as [sem|] eqn:El.
    + split; [|intros ? [= <-]; eauto];
      unfold slots_held in *. simpl. rewrite count_app. simpl. lia.
    + destruct Hb as [_ Ha]. rewrite Ha in Ea. discriminate.
  - destruct (tasks s !! t) as [[i p]|] eqn:Et; [|discriminate].
    destruct p; try discriminate.
    destruct (_rate_limiter s) as [sem|] eqn:El; [|discriminate].
    destruct (Z.ltb_spec 0 (free sem)); [|discriminate].
    destruct (adapters s !! i); [|discriminate].
    destruct (0 <? max_retries a); injection Hstep as <-; simpl; rewrite ?El;
      (split; [|intros ? [= <-]; eauto]); simpl;
      unfold slots_held in *; simpl; rewrite (count_insert _ _ _ _ _ Et); simpl; lia.
  - destruct (tasks s !! t) as [[i p]|] eqn:Et; [|discriminate].
    destruct p; try discriminate. injection Hstep as <-. simpl.
    destruct (_rate_limiter s) as [sem|] eqn:El.
    + split; [|intros ? [= <-]; eauto]; simpl;
      unfold slots_held in *; simpl; rewrite (count_insert _ _ _ _ _ Et); simpl; lia.
    + destruct Hb as [Ht _]. rewrite Ht in Et. discriminate.
  - destruct (tasks s !! t) as [[i p]|] eqn:Et; [|discriminate].
    destruct p; try discriminate.
    destruct (adapters s !! i); [|discriminate].
    destruct (_rate_limiter s) as [sem|] eqn:El;
      [|destruct Hb as [Ht _]; rewrite Ht in Et; discriminate].
    destruct (attempt <? max_retries a - 1); injection Hstep as <-; simpl; rewrite ?El;
      (split; [|intros ? [= <-]; eauto]); simpl;
      unfold slots_held in *; simpl; rewrite (count_insert _ _ _ _ _ Et); simpl; lia.
  - destruct (tasks s !! t) as [[i p]|] eqn:Et; [|discriminate].
    destruct p; try discriminate. injection Hstep as <-. simpl.
    destruct (_rate_limiter s) as [sem|] eqn:El;
      [|destruct Hb as [Ht _]; rewrite Ht in Et; discriminate].
    split; [|intros ? [= <-]; eauto];
      unfold slots_held in *; simpl; rewrite (count_insert _ _ _ _ _ Et); simpl; lia.
  - destruct (tasks s !! t) as [[i p]|] eqn:Et; [|discriminate].
    destruct (_rate_limiter s) as [sem|] eqn:El;
      [|destruct Hb as [Ht _]; rewrite Ht in Et; discriminate].
    destruct p; try discriminate; injection Hstep as <-; simpl; rewrite ?El;
      (split; [|intros ? [= <-]; eauto]); simpl;
      unfold slots_held in *; simpl; rewrite (count_insert _ _ _ _ _ Et); simpl; lia.
Qed.

Lemma run_balanced evs : forall s s',
  balanced s -> run s evs = Some s' ->
  balanced s'
  /\ (forall sem, _rate_limiter s = Some sem ->
       exists sem', _rate_limiter s' = Some sem' /\ size sem' = size sem).
Proof.
  induction evs as [|ev evs IH]; intros s s' Hb Hrun; simpl in Hrun.
  - injection Hrun as <-. split; [exact Hb|]. eauto.
  - destruct (step s ev) as [s1|] eqn:E1; [|discriminate].
    destruct (step_balanced s ev s1 Hb E1) as [Hb1 Hsz1].
    destruct (IH s1 s' Hb1 Hrun) as [Hb' Hsz'].
    split; [exact Hb'|]. intros sem Hsem.
    destruct (Hsz1 sem Hsem) as (sem1 & Hsem1 & <-). apply Hsz', Hsem1.
Qed.

Lemma initial_balanced : balanced initial.
Proof. split; reflexivity. Qed.

(** Two instances, the first with the default size of 8, the second asking
    for one call at a time. *)
Definition two_instances : list Event :=
  [ Construct {| max_concurrent_requests := None; max_retries := 3 |} true;
    Construct {| max_concurrent_requests := Some 1; max_retries := 3 |} true;
    Call 1; Call 1; Acquire 0; Acquire 1 ].

(** C9, as stated, fails: the semaphore is a class attribute made by the
    first constructor call, so the second instance's own limit of 1 does not
    hold: two calls on it are in flight at once. *)
Lemma gate_not_per_adapter : ~ bound_per_adapter.
Proof.
  intros H.
  destruct (run initial two_instances) as [s|] eqn:E; [|discriminate E].
  assert (Hr : reachable s) by (exists two_instances; exact E).
  vm_compute in E. injection E as <-.
  specialize (H _ Hr 1%nat {| max_concurrent_requests := Some 1; max_retries := 3 |} eq_refl).
  vm_compute in H. apply H. reflexivity.
Qed.

(** C9 (amended): the admission gate is one semaphore for the whole class,
    made by the first constructor call with the size that call's config
    asks for (8 by default). In every state the interleaved REST-path calls
    can reach, over all instances together, the slots held and the free
    slots add up to that size, so at no instant are more vendor calls in
    flight than that size (whatever a later instance's own
    max_concurrent_requests says), and a slot taken by a call is given back
    on every exit from the gate: return, raise after the last attempt, and
    cancellation. *)
Theorem gate_is_class_wide a has_key evs s :
  run initial (Construct a has_key :: evs) = Some s ->
  exists sem,
    _rate_limiter s = Some sem
    /\ size sem = default 8 (max_concurrent_requests a)
    /\ 0 <= free sem
    /\ free sem + slots_held s = size sem
    /\ 0 <= calls_in_flight s <= size sem.
Proof.
  intros Hrun. simpl in Hrun. unfold construct in Hrun. simpl in Hrun.
  destruct (default 8 (max_concurrent_requests a) <? 0) eqn:En; [discriminate|].
  match type of Hrun with
  | run ?s1 evs = _ =>
      assert (Hb1 : balanced s1) by (unfold balanced, slots_held; simpl; lia);
      destruct (run_balanced evs s1 s Hb1 Hrun) as [Hb Hsz]
  end.
  destruct (Hsz _ eq_refl) as (sem & Hsem & Hsize). simpl in Hsize.
  exists sem. unfold balanced in Hb. rewrite Hsem in Hb. destruct Hb as [Hf Hsum].
  assert (Hle : 0 <= calls_in_flight s <= slots_held s).
  { apply count_le. intros x. destruct (phase x); simpl; done. }
  repeat split; try assumption; lia.
Qed.

(** The theorem on the run of [two_instances]: the size is the first
    instance's 8, and the two calls made on the second are in flight. *)
Lemma gate_is_class_wide_witness :
  exists s sem,
    run initial two_instances = Some s
    /\ _rate_limiter s = Some sem /\ size sem = 8
    /\ free sem + slots_held s = 8 /\ calls_in_flight s = 2.
Proof.
  destruct (run initial two_instances) as [s|] eqn:E; [|discriminate E].
  destruct (gate_is_class_wide _ _ _ s E) as (sem & Hsem & Hsize & _ & Hsum & _).
  exists s, sem. rewrite Hsize in Hsum.
  repeat split; try assumption.
  vm_compute in E. injection E as <-. reflexivity.
Defined.

End Gate.

(** ** The gate slot of one call

    Seen from the call itself: whatever [generate] does, the number of gate
    slots it holds when it ends is the number it held when it began. *)
Section SlotOfOneCall.
Context {D : Type}.

Definition keeps_held {A} (m : M D A) : Prop :=
  forall w, held (snd (m w)) = held w.

Lemma kh_ret {A} (a : A) : keeps_held (ret a).
Proof. intros w. reflexivity. Qed.

Lemma kh_raise {A} e : keeps_held (A:=A) (raise e).
Proof. intros w. reflexivity. Qed.

Lemma kh_lift {A} (r : Result A) : keeps_held (lift r).
Proof. intros w. reflexivity. Qed.

Lemma kh_time : keeps_held time.
Proof. intros w. reflexivity. Qed.

Lemma kh_post : keeps_held post.
Proof. intros w. reflexivity. Qed.

Lemma kh_sleep d : keeps_held (sleep d).
Proof. intros w. reflexivity. Qed.

Lemma kh_build_sdk_config request budget : keeps_held (build_sdk_config request budget).
Proof. intros w. reflexivity. Qed.

Lemma kh_bind {A B} (m : M D A) (k : A -> M D B) :
  keeps_held m -> (forall a, keeps_held (k a)) -> keeps_held (bind m k).
Proof.
  intros Hm Hk w. unfold bind. specialize (Hm w).
  destruct (m w) as [[a|e] w1]; simpl in *; [rewrite Hk|]; exact Hm.
Qed.

Lemma kh_catch {A} (m : M D A) (h : PyExc -> M D A) :
  keeps_held m -> (forall e, keeps_held (h e)) -> keeps_held (catch m h).
Proof.
  intros Hm Hh w. unfold catch. specialize (Hm w).
  destruct (m w) as [[a|e] w1]; simpl in *; [|rewrite Hh]; exact Hm.
Qed.

(** [async with] gives the slot back on every way out of its body. *)
Lemma kh_gate {A} (m : M D A) : keeps_held m -> keeps_held (async_with_gate m).
Proof.
  intros Hm w. unfold async_with_gate.
  specialize (Hm (set_held (S (held w)) w)).
  destruct (m _) as [r w1]. simpl in *. rewrite Hm. reflexivity.
Qed.

Lemma kh_SmartRetry_from {A} retry_on base_delay (f : M D A) n k :
  keeps_held f -> keeps_held (SmartRetry_from retry_on base_delay n k f).
Proof.
  intros Hf. revert k. induction n as [|n IH]; intros k; simpl.
  - apply kh_catch; [exact Hf|]. intros e. apply kh_raise.
  - apply kh_catch; [exact Hf|]. intros e.
    destruct (retry_on e); [|apply kh_raise].
    apply kh_bind; [apply kh_sleep|]. intros _. apply IH.
Qed.

End SlotOfOneCall.

Ltac kh_step :=
  match goal with
  | |- keeps_held (ret _) => apply kh_ret
  | |- keeps_held time => apply kh_time
  | |- keeps_held post => apply kh_post
  | |- keeps_held (sleep _) => apply kh_sleep
  | |- keeps_held (build_sdk_config _ _) => apply kh_build_sdk_config
  | |- keeps_held (raise _) => apply kh_raise
  | |- keeps_held (lift _) => apply kh_lift
  | |- keeps_held (bind _ _) => apply kh_bind; [|intros ?]
  | |- keeps_held (catch _ _) => apply kh_catch; [|intros ?]
  | |- keeps_held (async_with_gate _) => apply kh_gate
  | |- keeps_held (if ?c then _ else _) => destruct c
  | |- keeps_held (match ?x with _ => _ end) => destruct x
  | |- keeps_held (let '(_, _) := ?x in _) => destruct x
  end.

Lemma kh_backoff self attempt last :
  keeps_held last -> keeps_held (GeminiProvider.backoff self attempt last).
Proof. intros H. unfold GeminiProvider.backoff. repeat kh_step. exact H. Qed.

Lemma kh_retry_loop self model st todo cand :
  keeps_held (GeminiProvider.retry_loop self model st todo cand).
Proof.
  revert cand. induction todo as [|a rest IH]; intros cand; simpl.
  - apply kh_ret.
  - apply kh_bind; [apply kh_post|]. intros o.
    apply kh_bind.
    + apply kh_catch.
      * unfold GeminiProvider.try_body. repeat first [kh_step | apply kh_backoff].
      * intros e. unfold GeminiProvider.handlers.
        destruct e; repeat first [kh_step | apply kh_backoff].
    + intros [r|]; [apply kh_ret|apply IH].
Qed.

(** However a Gemini call ends, with or without the decorator, it holds no
    more slots than before. *)
Lemma generate_returns_slot self r w :
  held (snd (GeminiProvider.generate_body self r w)) = held w
  /\ held (snd (GeminiProvider.generate self r w)) = held w.
Proof.
  assert (Hb : keeps_held (GeminiProvider.generate_body self r)).
  { unfold GeminiProvider.generate_body, GeminiProvider._generate_with_sdk,
      GeminiProvider.sdk_generate_content.
    repeat first [kh_step | apply kh_retry_loop]. }
  split; [apply Hb|]. apply kh_SmartRetry_from, Hb.
Qed.

(** ** What a successful vendor call gives back *)
Section Success.

(** Neither of the two ever returns a response. *)
Lemma generate_never_returns r :
  (forall self w resp w', AnthropicProvider.generate self r w <> (Ok resp, w'))
  /\ (forall self w resp w', OpenAIProvider.generate self r w <> (Ok resp, w')).
Proof.
  split; intros self w resp w'.
  - unfold AnthropicProvider.generate, bind, lift.
    destruct (validate_request r); discriminate.
  - unfold OpenAIProvider.generate, bind, lift.
    destruct (validate_request r); discriminate.
Qed.

(** C1: for the Anthropic and the OpenAI adapter, a valid request and a
    vendor that would answer 200 give no response: [generate] raises
    [AttributeError] on [request.model] without calling the vendor; and the
    keywords both adapters pass to [LLMResponse] ([input_tokens],
    [output_tokens]) name no field of the dataclass, so the construction
    itself would raise [TypeError]. *)
Theorem generate_200_without_response selfA selfO wA wO :
  AnthropicProvider.generate selfA (request_of "Hello") wA
  = (Raise (AttributeError "'LLMRequest' object has no attribute 'model'"), wA)
  /\ OpenAIProvider.generate selfO (request_of "Hello") wO
     = (Raise (AttributeError "'LLMRequest' object has no attribute 'model'"), wO)
  /\ LLMResponse.init_keywords
       ["content"; "model"; "provider"; "input_tokens"; "output_tokens";
        "tokens_used"; "cost"; "latency_ms"; "metadata"]
     = Raise (TypeError "LLMResponse.__init__() got an unexpected keyword argument 'input_tokens'").
Proof.
  destruct (generate_reads_missing_attribute (request_of "Hello") eq_refl) as [HA HO].
  split; [apply HA|]. split; [apply HO|]. reflexivity.
Qed.

End Success.

(** * Binary64 arithmetic

    What the cost computation needs of the floating-point operations: the
    rounding [binary_round] performs, as a quotient rounded to the nearest
    integer with ties to even; that it is monotone; and from there that
    products, sums and [round6] of non-negative floats are non-negative and
    monotone. *)
Module Rounding.
Import PyFloat.

(** *** Digits *)

Lemma digits2_bounds m :
  2 ^ (Zpos (digits2_pos m) - 1) <= Zpos m < 2 ^ Zpos (digits2_pos m).
Proof.
  induction m as [m IH|m IH|]; cbn [digits2_pos].
  - rewrite Pos2Z.inj_succ, Z.pow_succ_r by lia.
    replace (Z.succ (Zpos (digits2_pos m)) - 1) with (Z.succ (Zpos (digits2_pos m) - 1)) by lia.
    rewrite Z.pow_succ_r by lia. lia.
  - rewrite Pos2Z.inj_succ, Z.pow_succ_r by lia.
    replace (Z.succ (Zpos (digits2_pos m)) - 1) with (Z.succ (Zpos (digits2_pos m) - 1)) by lia.
    rewrite Z.pow_succ_r by lia. lia.
  - simpl. lia.
Qed.

(** A number between two consecutive powers of two has that many digits. *)
Lemma digits2_unique m k :
  2 ^ (k - 1) <= Zpos m < 2 ^ k -> Zpos (digits2_pos m) = k.
Proof.
  intros [Hl Hu]. destruct (digits2_bounds m) as [Hl' Hu'].
  assert (0 < k).
  { destruct (Z.lt_ge_cases 0 k); [assumption|].
    assert (2 ^ k <= 2 ^ 0) by (destruct (Z.eq_dec k 0) as [->|]; [lia|rewrite Z.pow_neg_r by lia; simpl; lia]).
    simpl in *. lia. }
  destruct (Z.lt_trichotomy (Zpos (digits2_pos m)) k) as [Hlt|[Heq|Hgt]]; [|assumption|].
  - assert (2 ^ Zpos (digits2_pos m) <= 2 ^ (k - 1)) by (apply Z.pow_le_mono_r; lia). lia.
  - assert (2 ^ k <= 2 ^ (Zpos (digits2_pos m) - 1)) by (apply Z.pow_le_mono_r; lia). lia.
Qed.

Lemma digits2_le m1 m2 :
  (m1 <= m2)%positive -> Zpos (digits2_pos m1) <= Zpos (digits2_pos m2).
Proof.
  intros H. destruct (digits2_bounds m1) as [Hl1 Hu1], (digits2_bounds m2) as [Hl2 Hu2].
  destruct (Z.le_gt_cases (Zpos (digits2_pos m1)) (Zpos (digits2_pos m2))); [assumption|].
  assert (2 ^ Zpos (digits2_pos m2) <= 2 ^ (Zpos (digits2_pos m1) - 1))
    by (apply Z.pow_le_mono_r; lia).
  lia.
Qed.

(** *** Rounding a quotient to the nearest integer, ties to even *)

Lemma dhe_spec n d :
  0 < d ->
  let k := div_half_even n d in
  2 * d * k - d <= 2 * n <= 2 * d * k + d.
Proof.
  intros Hd. unfold div_half_even.
  pose proof (Z.div_mod n d ltac:(lia)) as Hdm.
  pose proof (Z.mod_pos_bound n d Hd) as Hb.
  destruct (Z.compare_spec (2 * (n mod d)) d); [destruct (Z.even (n / d))| |]; nia.
Qed.

Lemma dhe_exact d k : 0 < d -> div_half_even (d * k) d = k.
Proof.
  intros Hd. unfold div_half_even.
  replace (d * k) with (k * d) by ring.
  rewrite Z.div_mul, Z.mod_mul by lia.
  destruct (Z.compare_spec (2 * 0) d); lia.
Qed.

Lemma dhe_mono a b d : 0 < d -> a <= b -> div_half_even a d <= div_half_even b d.
Proof.
  intros Hd Hab. unfold div_half_even.
  pose proof (Z.div_mod a d ltac:(lia)) as Ha.
  pose proof (Z.div_mod b d ltac:(lia)) as Hb.
  pose proof (Z.mod_pos_bound a d Hd) as Ba.
  pose proof (Z.mod_pos_bound b d Hd) as Bb.
  assert (Hq : a / d <= b / d) by (apply Z.div_le_mono; lia).
  destruct (Z.eq_dec (a / d) (b / d)) as [Heq|Hne].
  - rewrite <- Heq in *.
    destruct (Z.compare_spec (2 * (a mod d)) d), (Z.compare_spec (2 * (b mod d)) d);
      destruct (Z.even (a / d)); lia.
  - assert (a / d + 1 <= b / d) by lia.
    destruct (Z.compare_spec (2 * (a mod d)) d), (Z.compare_spec (2 * (b mod d)) d);
      destruct (Z.even (a / d)), (Z.even (b / d)); lia.
Qed.

Lemma dhe_scale a d c : 0 < d -> 0 < c -> div_half_even (a * c) (d * c) = div_half_even a d.
Proof.
  intros Hd Hc. unfold div_half_even.
  rewrite Z.div_mul_cancel_r by lia.
  rewrite Z.mul_mod_distr_r by lia.
  replace (2 * (a mod d * c)) with (2 * (a mod d) * c) by ring.
  destruct (Z.compare_spec (2 * (a mod d) * c) (d * c)),
    (Z.compare_spec (2 * (a mod d)) d); try reflexivity; nia.
Qed.

(** *** Shifting right with round and sticky bits *)

Definition b2z (b : bool) : Z := if b then 1 else 0.

(** [mrs] is [m] shifted right by [n >= 1] bits: the mantissa and the round
    bit are the upper bits, the sticky bit says whether anything is left
    below. *)
Definition shifted (m n : Z) (mrs : shr_record) : Prop :=
  exists low,
    0 <= low < 2 ^ (n - 1)
    /\ m = (2 * shr_m mrs + b2z (shr_r mrs)) * 2 ^ (n - 1) + low
    /\ (shr_s mrs = true <-> low <> 0)
    /\ 0 <= shr_m mrs.

Lemma shr_1_halves m r s :
  0 <= m ->
  exists m' r',
    shr_1 (Build_shr_record m r s) = Build_shr_record m' r' (r || s)
    /\ m = 2 * m' + b2z r' /\ 0 <= m'.
Proof.
  intros Hm. destruct m as [|[p|p|]|p]; simpl; try lia;
    eexists _, _; (split; [reflexivity|]); simpl; lia.
Qed.

Lemma shifted_first m : 0 <= m -> shifted m 1 (shr_1 (Build_shr_record m false false)).
Proof.
  intros Hm. destruct (shr_1_halves m false false Hm) as (m' & r' & -> & H1 & H3).
  exists 0. change (2 ^ (1 - 1)) with 1. simpl. repeat split; try lia; try discriminate.
Qed.

Lemma shifted_next m n mrs : 1 <= n -> shifted m n mrs -> shifted m (n + 1) (shr_1 mrs).
Proof.
  intros Hn (low & Hlow & Hm & Hs & Hpos).
  destruct mrs as [mm r s]. simpl in Hm, Hs, Hpos.
  destruct (shr_1_halves mm r s Hpos) as (m' & r' & -> & H1 & H3).
  unfold shifted. simpl.
  replace (n + 1 - 1) with (Z.succ (n - 1)) by lia.
  rewrite Z.pow_succ_r by lia.
  exists (b2z r * 2 ^ (n - 1) + low).
  assert (0 < 2 ^ (n - 1)) by (apply Z.pow_pos_nonneg; lia).
  repeat split.
  - destruct r; simpl; lia.
  - destruct r; simpl; lia.
  - rewrite Hm, H1. ring.
  - intros Hrs. apply orb_true_iff in Hrs.
    destruct Hrs as [-> | Hs']; simpl; [lia|]. apply Hs in Hs'. destruct r; simpl; lia.
  - intros Hne. destruct r; simpl in *; [reflexivity|].
    apply Hs. lia.
  - exact H3.
Qed.

Lemma iter_pos_comm {A} (f : A -> A) p x : SpecFloat.iter_pos f p (f x) = f (SpecFloat.iter_pos f p x).
Proof.
  revert x. induction p as [p IH|p IH|]; intros x; simpl.
  - now rewrite !IH.
  - now rewrite !IH.
  - reflexivity.
Qed.

Lemma iter_pos_succ {A} (f : A -> A) p x :
  SpecFloat.iter_pos f (Pos.succ p) x = f (SpecFloat.iter_pos f p x).
Proof.
  revert x. induction p as [p IH|p IH|]; intros x; simpl.
  - rewrite !IH. now rewrite !iter_pos_comm.
  - now rewrite !iter_pos_comm.
  - reflexivity.
Qed.

Lemma shifted_iter m p :
  0 <= m -> shifted m (Zpos p) (SpecFloat.iter_pos shr_1 p (Build_shr_record m false false)).
Proof.
  intros Hm. induction p as [|p IH] using Pos.peano_ind.
  - simpl. now apply shifted_first.
  - rewrite iter_pos_succ, Pos2Z.inj_succ.
    apply shifted_next; [lia|exact IH].
Qed.

(** Rounding the shifted record to nearest even is rounding the quotient. *)
Lemma round_shifted m n mrs :
  1 <= n -> shifted m n mrs ->
  round_nearest_even (shr_m mrs) (loc_of_shr_record mrs) = div_half_even m (2 ^ n).
Proof.
  intros Hn (low & Hlow & Hm & Hs & Hpos).
  destruct mrs as [q r s]. simpl in *.
  assert (Hp : 0 < 2 ^ (n - 1)) by (apply Z.pow_pos_nonneg; lia).
  assert (Hpn : 2 ^ n = 2 * 2 ^ (n - 1)).
  { replace n with (Z.succ (n - 1)) at 1 by lia. now rewrite Z.pow_succ_r by lia. }
  set (P := 2 ^ (n - 1)) in *.
  assert (Hq : m / 2 ^ n = q).
  { symmetry. apply (Z.div_unique m (2 ^ n) q (b2z r * P + low)); [destruct r; simpl; lia|].
    rewrite Hm, Hpn. ring. }
  assert (Hr : m mod 2 ^ n = b2z r * P + low).
  { symmetry. apply (Z.mod_unique m (2 ^ n) q (b2z r * P + low)); [destruct r; simpl; lia|].
    rewrite Hm, Hpn. ring. }
  unfold div_half_even. rewrite Hq, Hr, Hpn.
  destruct r, s; simpl.
  - assert (low <> 0) by now apply Hs.
    destruct (Z.compare_spec (2 * (1 * P + low)) (2 * P)); lia.
  - assert (low = 0).
    { destruct (Z.eq_dec low 0); [assumption|]. assert (false = true) by now apply Hs. discriminate. }
    subst low. destruct (Z.compare_spec (2 * (1 * P + 0)) (2 * P)); lia.
  - destruct (Z.compare_spec (2 * (0 * P + low)) (2 * P)); lia.
  - destruct (Z.compare_spec (2 * (0 * P + low)) (2 * P)); lia.
Qed.

(** *** What [binary_round_aux] computes *)

Abbreviation fx := (fexp prec emax).

Lemma fx_eq k : fx k = Z.max (k - 53) (-1074).
Proof. reflexivity. Qed.

(** The exponent is not above the one the format gives the number. *)
Definition aligned (m : positive) (e : Z) : Prop :=
  e <= fx (Zpos (digits2_pos m) + e).

(** The rounding of [m * 2^e] to binary64, to nearest, ties to even. *)
Definition rounded (s : bool) (m : positive) (e : Z) : spec_float :=
  let E := fx (Zpos (digits2_pos m) + e) in
  match div_half_even (Zpos m) (2 ^ (E - e)) with
  | Zpos p =>
      if (p =? 2 ^ 53)%positive then
        if E + 1 <=? 971 then S754_finite s (2 ^ 52) (E + 1) else S754_infinity s
      else
        if E <=? 971 then S754_finite s p E else S754_infinity s
  | _ => S754_zero s
  end.

Lemma dhe_nonneg n d : 0 < d -> 0 <= n -> 0 <= div_half_even n d.
Proof.
  intros Hd Hn. rewrite <- (dhe_exact d 0 Hd). apply dhe_mono; lia.
Qed.

Lemma dhe_one n : div_half_even n 1 = n.
Proof. rewrite <- (dhe_exact 1 n) at 2 by lia. f_equal. lia. Qed.

(** The first shift and rounding of [binary_round_aux]. *)
Lemma first_round m e :
  aligned m e ->
  let E := fx (Zpos (digits2_pos m) + e) in
  let '(mrs, e') := shr_fexp prec emax (Zpos m) e loc_Exact in
  e' = E
  /\ round_nearest_even (shr_m mrs) (loc_of_shr_record mrs)
     = div_half_even (Zpos m) (2 ^ (E - e)).
Proof.
  unfold aligned, shr_fexp, shr. cbn [Zdigits2 shr_record_of_loc]. intros Ha.
  set (E := fx (Zpos (digits2_pos m) + e)) in *.
  destruct (E - e) as [|p|p] eqn:En; try lia.
  - split; [lia|]. simpl. now rewrite dhe_one.
  - split; [lia|].
    apply round_shifted; [lia|]. apply shifted_iter. lia.
Qed.

Lemma rounded_le_2p53 m e :
  aligned m e ->
  0 <= div_half_even (Zpos m) (2 ^ (fx (Zpos (digits2_pos m) + e) - e)) <= 2 ^ 53.
Proof.
  unfold aligned. intros Ha.
  set (E := fx (Zpos (digits2_pos m) + e)) in *.
  assert (Hp : 0 < 2 ^ (E - e)) by (apply Z.pow_pos_nonneg; lia).
  split; [apply dhe_nonneg; lia|].
  rewrite <- (dhe_exact (2 ^ (E - e)) (2 ^ 53) Hp). apply dhe_mono; [lia|].
  destruct (digits2_bounds m) as [_ Hu].
  rewrite <- Z.pow_add_r by lia.
  assert (2 ^ Zpos (digits2_pos m) <= 2 ^ (E - e + 53)).
  { apply Z.pow_le_mono_r; [lia|]. subst E. rewrite fx_eq. lia. }
  lia.
Qed.

Lemma bra_rounded s m e :
  aligned m e -> binary_round_aux prec emax s (Zpos m) e loc_Exact = rounded s m e.
Proof.
  intros Ha. unfold binary_round_aux, rounded.
  pose proof (first_round m e Ha) as H1. cbv zeta in H1.
  pose proof (rounded_le_2p53 m e Ha) as Hb.
  assert (HE : -1074 <= fx (Zpos (digits2_pos m) + e)) by (rewrite fx_eq; lia).
  destruct (shr_fexp prec emax (Zpos m) e loc_Exact) as [mrs e'].
  destruct H1 as [-> ->].
  set (E := fx (Zpos (digits2_pos m) + e)) in *.
  destruct (div_half_even (Zpos m) (2 ^ (E - e))) as [|p|p] eqn:Ed; try lia.
  - unfold shr_fexp, shr. cbn [Zdigits2 shr_record_of_loc].
    destruct (fx (0 + E) - E) eqn:En; try reflexivity.
    rewrite fx_eq in En. lia.
  - unfold shr_fexp, shr. cbn [Zdigits2 shr_record_of_loc].
    destruct (Pos.eqb_spec p (2 ^ 53)) as [->|Hne].
    + replace (fx (Zpos (digits2_pos (2 ^ 53)) + E) - E) with 1
        by (rewrite fx_eq; change (Zpos (digits2_pos (2 ^ 53))) with 54; lia).
      simpl. replace (E + 1 <=? emax - prec) with (E + 1 <=? 971) by reflexivity.
      reflexivity.
    + assert (Hd : Zpos (digits2_pos p) <= 53).
      { destruct (digits2_bounds p) as [Hl _].
        destruct (Z.le_gt_cases (Zpos (digits2_pos p)) 53); [assumption|].
        assert (2 ^ 53 <= 2 ^ (Zpos (digits2_pos p) - 1)) by (apply Z.pow_le_mono_r; lia).
        assert (Zpos p = 2 ^ 53) by lia. exfalso. apply Hne.
        apply Pos2Z.inj. assumption. }
      destruct (fx (Zpos (digits2_pos p) + E) - E) eqn:En;
        try (rewrite fx_eq in En; lia); reflexivity.
Qed.

(** *** Order of exact values *)

(** [m1 * 2^e1 <= m2 * 2^e2], on integers. *)
Definition vle (m1 e1 m2 e2 : Z) : Prop :=
  m1 * 2 ^ (e1 - Z.min e1 e2) <= m2 * 2 ^ (e2 - Z.min e1 e2).

(** The same comparison from any exponent below both. *)
Lemma vle_base m1 e1 m2 e2 b :
  b <= e1 -> b <= e2 ->
  (vle m1 e1 m2 e2 <-> m1 * 2 ^ (e1 - b) <= m2 * 2 ^ (e2 - b)).
Proof.
  intros H1 H2. unfold vle. set (e0 := Z.min e1 e2).
  assert (Hp : 0 < 2 ^ (e0 - b)) by (apply Z.pow_pos_nonneg; lia).
  replace (e1 - b) with ((e1 - e0) + (e0 - b)) by lia.
  replace (e2 - b) with ((e2 - e0) + (e0 - b)) by lia.
  rewrite !Z.pow_add_r by lia. split; intros H; nia.
Qed.

Lemma vle_trans m1 e1 m2 e2 m3 e3 :
  vle m1 e1 m2 e2 -> vle m2 e2 m3 e3 -> vle m1 e1 m3 e3.
Proof.
  intros H12 H23.
  assert (Hb1 : Z.min e1 (Z.min e2 e3) <= e1) by lia.
  assert (Hb2 : Z.min e1 (Z.min e2 e3) <= e2) by lia.
  assert (Hb3 : Z.min e1 (Z.min e2 e3) <= e3) by lia.
  pose proof (proj1 (vle_base m1 e1 m2 e2 _ Hb1 Hb2) H12).
  pose proof (proj1 (vle_base m2 e2 m3 e3 _ Hb2 Hb3) H23).
  apply (vle_base m1 e1 m3 e3 _ Hb1 Hb3). lia.
Qed.

(** A larger value has no fewer digits before its exponent. *)
Lemma vle_mag m1 e1 m2 e2 :
  vle (Zpos m1) e1 (Zpos m2) e2 ->
  Zpos (digits2_pos m1) + e1 <= Zpos (digits2_pos m2) + e2.
Proof.
  intros H.
  assert (Hb1 : Z.min e1 e2 <= e1) by lia. assert (Hb2 : Z.min e1 e2 <= e2) by lia.
  unfold vle in H. set (b := Z.min e1 e2) in *.
  destruct (digits2_bounds m1) as [Hl1 _], (digits2_bounds m2) as [_ Hu2].
  set (d1 := Zpos (digits2_pos m1)) in *. set (d2 := Zpos (digits2_pos m2)) in *.
  assert (0 < d1) by (subst d1; lia). assert (0 < d2) by (subst d2; lia).
  destruct (Z.le_gt_cases (d1 + e1) (d2 + e2)); [assumption|exfalso].
  assert (Hp1 : 0 < 2 ^ (e1 - b)) by (apply Z.pow_pos_nonneg; lia).
  assert (Hp2 : 0 < 2 ^ (e2 - b)) by (apply Z.pow_pos_nonneg; lia).
  assert (2 ^ (d2 + (e2 - b)) <= 2 ^ ((d1 - 1) + (e1 - b)))
    by (apply Z.pow_le_mono_r; lia).
  rewrite !Z.pow_add_r in * by lia.
  assert (2 ^ (d1 - 1) * 2 ^ (e1 - b) <= Zpos m1 * 2 ^ (e1 - b))
    by (apply Z.mul_le_mono_nonneg_r; lia).
  assert (Zpos m2 * 2 ^ (e2 - b) < 2 ^ d2 * 2 ^ (e2 - b))
    by (apply Z.mul_lt_mono_pos_r; lia).
  lia.
Qed.

(** *** The rounded mantissa on its grid *)

Definition grid (m : positive) (e : Z) : Z := fx (Zpos (digits2_pos m) + e).

Definition rmant (m : positive) (e : Z) : Z :=
  div_half_even (Zpos m) (2 ^ (grid m e - e)).

Lemma grid_ge m e : -1074 <= grid m e.
Proof. unfold grid. rewrite fx_eq. lia. Qed.

Lemma rmant_bounds m e : aligned m e -> 0 <= rmant m e <= 2 ^ 53.
Proof. apply rounded_le_2p53. Qed.

(** Above the smallest exponent the rounded mantissa has all its bits. *)
Lemma rmant_normal m e : aligned m e -> -1074 < grid m e -> 2 ^ 52 <= rmant m e.
Proof.
  unfold aligned, rmant, grid. rewrite fx_eq. intros Ha Hn.
  set (d := Zpos (digits2_pos m)) in *.
  assert (HE : Z.max (d + e - 53) (-1074) = d + e - 53) by lia.
  rewrite HE in *.
  assert (Hp : 0 < 2 ^ (d + e - 53 - e)) by (apply Z.pow_pos_nonneg; lia).
  rewrite <- (dhe_exact (2 ^ (d + e - 53 - e)) (2 ^ 52) Hp). apply dhe_mono; [lia|].
  rewrite <- Z.pow_add_r by lia.
  destruct (digits2_bounds m) as [Hl _]. fold d in Hl.
  replace (d + e - 53 - e + 52) with (d - 1) by lia. exact Hl.
Qed.

(** Rounding keeps the order of the exact values. *)
Lemma rmant_mono m1 e1 m2 e2 :
  aligned m1 e1 -> aligned m2 e2 ->
  vle (Zpos m1) e1 (Zpos m2) e2 ->
  vle (rmant m1 e1) (grid m1 e1) (rmant m2 e2) (grid m2 e2).
Proof.
  intros Ha1 Ha2 Hv.
  pose proof (vle_mag _ _ _ _ Hv) as Hmag.
  pose proof (rmant_bounds m1 e1 Ha1) as Hb1.
  pose proof (rmant_bounds m2 e2 Ha2) as Hb2.
  assert (HE : grid m1 e1 <= grid m2 e2) by (unfold grid; rewrite !fx_eq; lia).
  apply (vle_base _ _ _ _ (grid m1 e1)); [lia|lia|].
  rewrite Z.sub_diag, Z.mul_1_r.
  destruct (Z.eq_dec (grid m1 e1) (grid m2 e2)) as [Heq|Hne].
  - rewrite <- Heq, Z.sub_diag, Z.mul_1_r.
    unfold rmant. rewrite <- Heq. set (E := grid m1 e1) in *.
    unfold aligned in Ha1, Ha2. fold (grid m1 e1) in Ha1. fold (grid m2 e2) in Ha2.
    fold E in Ha1. rewrite <- Heq in Ha2.
    assert (Hm1 : Z.min e1 e2 <= e1) by lia. assert (Hm2 : Z.min e1 e2 <= e2) by lia.
    unfold vle in Hv. set (e0 := Z.min e1 e2) in *.
    assert (Hp1 : 0 < 2 ^ (e1 - e0)) by (apply Z.pow_pos_nonneg; lia).
    assert (Hp2 : 0 < 2 ^ (e2 - e0)) by (apply Z.pow_pos_nonneg; lia).
    assert (Hq1 : 0 < 2 ^ (E - e1)) by (apply Z.pow_pos_nonneg; lia).
    assert (Hq2 : 0 < 2 ^ (E - e2)) by (apply Z.pow_pos_nonneg; lia).
    rewrite <- (dhe_scale (Zpos m1) (2 ^ (E - e1)) (2 ^ (e1 - e0))) by assumption.
    rewrite <- (dhe_scale (Zpos m2) (2 ^ (E - e2)) (2 ^ (e2 - e0))) by assumption.
    rewrite <- !Z.pow_add_r by lia.
    replace (E - e1 + (e1 - e0)) with (E - e0) by lia.
    replace (E - e2 + (e2 - e0)) with (E - e0) by lia.
    apply dhe_mono; [apply Z.pow_pos_nonneg; lia|exact Hv].
  - assert (Hlt : grid m1 e1 < grid m2 e2) by lia.
    assert (Hn2 : 2 ^ 52 <= rmant m2 e2) by (apply rmant_normal; [assumption|pose proof (grid_ge m1 e1); lia]).
    (* the first value is below 2^mag1, the second at least 2^(mag2 - 1) *)
    assert (H1 : rmant m1 e1 <= 2 ^ (52 + (grid m2 e2 - grid m1 e1))).
    { unfold rmant. unfold aligned in Ha1. fold (grid m1 e1) in Ha1.
      assert (Hq : 0 < 2 ^ (grid m1 e1 - e1)) by (apply Z.pow_pos_nonneg; lia).
      rewrite <- (dhe_exact (2 ^ (grid m1 e1 - e1)) (2 ^ (52 + (grid m2 e2 - grid m1 e1))) Hq).
      apply dhe_mono; [assumption|].
      rewrite <- Z.pow_add_r by lia.
      destruct (digits2_bounds m1) as [_ Hu].
      assert (2 ^ Zpos (digits2_pos m1)
              <= 2 ^ (grid m1 e1 - e1 + (52 + (grid m2 e2 - grid m1 e1)))).
      { apply Z.pow_le_mono_r; [lia|]. unfold grid in *. rewrite !fx_eq in *. lia. }
      lia. }
    rewrite Z.pow_add_r in H1 by lia.
    assert (0 < 2 ^ (grid m2 e2 - grid m1 e1)) by (apply Z.pow_pos_nonneg; lia).
    nia.
Qed.

(** *** The rounded float *)

(** Zero, finite or infinite, with positive sign. *)
Definition nonneg_sf (x : spec_float) : bool :=
  match x with
  | S754_zero false | S754_infinity false | S754_finite false _ _ => true
  | _ => false
  end.

Lemma rounded_unfold s m e :
  rounded s m e =
  match rmant m e with
  | Zpos p =>
      if (p =? 2 ^ 53)%positive then
        if grid m e + 1 <=? 971 then S754_finite s (2 ^ 52) (grid m e + 1)
        else S754_infinity s
      else
        if grid m e <=? 971 then S754_finite s p (grid m e) else S754_infinity s
  | _ => S754_zero s
  end.
Proof. reflexivity. Qed.

Lemma rounded_nonneg m e : nonneg_sf (rounded false m e) = true.
Proof.
  rewrite rounded_unfold.
  destruct (rmant m e); try reflexivity.
  destruct (_ =? _)%positive; [destruct (_ <=? _)|destruct (_ <=? _)]; reflexivity.
Qed.

Lemma digits_lt_2p53 p : Zpos p < 2 ^ 53 -> Zpos (digits2_pos p) <= 53.
Proof.
  intros H. destruct (digits2_bounds p) as [Hl _].
  destruct (Z.le_gt_cases (Zpos (digits2_pos p)) 53); [assumption|].
  assert (2 ^ 53 <= 2 ^ (Zpos (digits2_pos p) - 1)) by (apply Z.pow_le_mono_r; lia).
  lia.
Qed.

Lemma digits_ge_2p52 p : 2 ^ 52 <= Zpos p -> 53 <= Zpos (digits2_pos p).
Proof.
  intros H. destruct (digits2_bounds p) as [_ Hu].
  destruct (Z.le_gt_cases 53 (Zpos (digits2_pos p))); [assumption|].
  assert (2 ^ Zpos (digits2_pos p) <= 2 ^ 52) by (apply Z.pow_le_mono_r; lia).
  lia.
Qed.

(** A mantissa fits the format at an exponent: fewer than 54 bits, and all
    53 of them above the smallest exponent. *)
Lemma bounded_iff p E :
  bounded prec emax p E = true <->
  Zpos p < 2 ^ 53 /\ -1074 <= E <= 971 /\ (-1074 < E -> 2 ^ 52 <= Zpos p).
Proof.
  unfold bounded, canonical_mantissa. rewrite andb_true_iff, Z.eqb_eq, Z.leb_le, fx_eq.
  change (emax - prec) with 971.
  destruct (digits2_bounds p) as [Hl Hu].
  split.
  - intros [Hc He]. split; [|split; [lia|]].
    + assert (Zpos (digits2_pos p) <= 53) by lia.
      assert (2 ^ Zpos (digits2_pos p) <= 2 ^ 53) by (apply Z.pow_le_mono_r; lia). lia.
    + intros Hn. assert (Zpos (digits2_pos p) = 53) by lia.
      replace 52 with (Zpos (digits2_pos p) - 1) by lia. exact Hl.
  - intros (Hp & HE & Hn). split; [|lia].
    pose proof (digits_lt_2p53 p Hp).
    destruct (Z.eq_dec E (-1074)) as [->|Hne]; [lia|].
    pose proof (digits_ge_2p52 p (Hn ltac:(lia))). lia.
Qed.

Lemma rounded_valid s m e : aligned m e -> valid_binary (rounded s m e) = true.
Proof.
  intros Ha. rewrite rounded_unfold.
  pose proof (rmant_bounds m e Ha) as Hb.
  pose proof (rmant_normal m e Ha) as Hn.
  pose proof (grid_ge m e) as Hg.
  destruct (rmant m e) as [|p|p]; try reflexivity.
  destruct (Pos.eqb_spec p (2 ^ 53)) as [->|Hne].
  - destruct (Z.leb_spec (grid m e + 1) 971); [|reflexivity].
    simpl. apply bounded_iff. change (Zpos (2 ^ 52)) with (2 ^ 52).
    repeat split; try lia.
  - destruct (Z.leb_spec (grid m e) 971); [|reflexivity].
    simpl. apply bounded_iff.
    assert (Zpos p <> 2 ^ 53) by (intros Hc; apply Hne, Pos2Z.inj; exact Hc).
    repeat split; try lia.
Qed.

(** On floats of the format the order of values is the order of
    (exponent, mantissa). *)
Lemma vle_lex P1 F1 P2 F2 :
  vle (Zpos P1) F1 (Zpos P2) F2 ->
  Zpos P2 < 2 ^ 53 -> (-1074 < F1 -> 2 ^ 52 <= Zpos P1) -> -1074 <= F2 ->
  F1 < F2 \/ (F1 = F2 /\ (P1 <= P2)%positive).
Proof.
  intros Hv Hp2 Hn1 HF2.
  destruct (Z.lt_trichotomy F1 F2) as [Hlt|[Heq|Hgt]]; [left; assumption| |].
  - right. split; [assumption|]. subst F2. unfold vle in Hv.
    rewrite Z.min_id, Z.sub_diag in Hv. change (2 ^ 0) with 1 in Hv. lia.
  - exfalso. pose proof (Hn1 ltac:(lia)) as Hn.
    pose proof (proj1 (vle_base (Zpos P1) F1 (Zpos P2) F2 F2 ltac:(lia) ltac:(lia)) Hv) as H.
    rewrite Z.sub_diag, Z.mul_1_r in H.
    assert (2 ^ 1 <= 2 ^ (F1 - F2)) by (apply Z.pow_le_mono_r; lia).
    change (2 ^ 1) with 2 in *. nia.
Qed.

Lemma SFleb_lex P1 F1 P2 F2 :
  F1 < F2 \/ (F1 = F2 /\ (P1 <= P2)%positive) ->
  SFleb (S754_finite false P1 F1) (S754_finite false P2 F2) = true.
Proof.
  unfold SFleb, SFcompare. intros [Hlt|[-> Hle]].
  - now rewrite (proj2 (Z.compare_lt_iff F1 F2) Hlt).
  - rewrite Z.compare_refl. change (Pos.compare_cont Eq P1 P2) with (P1 ?= P2)%positive.
    destruct (P1 ?= P2)%positive eqn:E; try reflexivity. exfalso. now apply Hle.
Qed.

(** The mantissa and exponent of the result: a rounded mantissa of 2^53
    moves to the next exponent. *)
Definition norm (p : positive) (E : Z) : positive * Z :=
  if (p =? 2 ^ 53)%positive then ((2 ^ 52)%positive, E + 1) else (p, E).

Lemma rounded_norm s m e p :
  rmant m e = Zpos p ->
  rounded s m e =
  if snd (norm p (grid m e)) <=? 971
  then S754_finite s (fst (norm p (grid m e))) (snd (norm p (grid m e)))
  else S754_infinity s.
Proof.
  intros Hr. rewrite rounded_unfold, Hr. unfold norm.
  destruct (p =? 2 ^ 53)%positive; reflexivity.
Qed.

Lemma norm_same p E :
  vle (Zpos (fst (norm p E))) (snd (norm p E)) (Zpos p) E
  /\ vle (Zpos p) E (Zpos (fst (norm p E))) (snd (norm p E)).
Proof.
  unfold norm. destruct (Pos.eqb_spec p (2 ^ 53)) as [->|Hne]; simpl.
  - unfold vle. rewrite Z.min_r, Z.min_l by lia.
    replace (E + 1 - E) with 1 by lia. rewrite Z.sub_diag. split; reflexivity.
  - unfold vle. split; lia.
Qed.

Lemma norm_fits m e p :
  aligned m e -> rmant m e = Zpos p ->
  let n := norm p (grid m e) in
  Zpos (fst n) < 2 ^ 53 /\ -1074 <= snd n /\ (-1074 < snd n -> 2 ^ 52 <= Zpos (fst n)).
Proof.
  intros Ha Hr.
  pose proof (rmant_bounds m e Ha) as Hb. pose proof (rmant_normal m e Ha) as Hn.
  pose proof (grid_ge m e) as Hg. rewrite Hr in *.
  unfold norm. destruct (Pos.eqb_spec p (2 ^ 53)) as [->|Hne]; simpl.
  - change (Zpos (2 ^ 52)) with (2 ^ 52). repeat split; lia.
  - assert (Zpos p <> 2 ^ 53) by (intros Hc; apply Hne, Pos2Z.inj; exact Hc).
    repeat split; try lia.
Qed.

(** Rounding is monotone. *)
Lemma rounded_mono m1 e1 m2 e2 :
  aligned m1 e1 -> aligned m2 e2 ->
  vle (Zpos m1) e1 (Zpos m2) e2 ->
  SFleb (rounded false m1 e1) (rounded false m2 e2) = true.
Proof.
  intros Ha1 Ha2 Hv.
  pose proof (rmant_mono m1 e1 m2 e2 Ha1 Ha2 Hv) as Hr.
  pose proof (rmant_bounds m1 e1 Ha1) as Hb1.
  pose proof (rmant_bounds m2 e2 Ha2) as Hb2.
  destruct (rmant m1 e1) as [|p1|p1] eqn:E1; [| |lia].
  - rewrite (rounded_unfold false m1), E1.
    pose proof (rounded_nonneg m2 e2) as Hnn.
    destruct (rounded false m2 e2) as [[|]|[|]| |[|] ? ?]; try discriminate; reflexivity.
  - destruct (rmant m2 e2) as [|p2|p2] eqn:E2; [| |lia].
    + exfalso. unfold vle in Hr.
      assert (0 < 2 ^ (grid m1 e1 - Z.min (grid m1 e1) (grid m2 e2)))
        by (apply Z.pow_pos_nonneg; lia).
      nia.
    + rewrite (rounded_norm false m1 e1 p1 E1), (rounded_norm false m2 e2 p2 E2).
      destruct (norm_fits m1 e1 p1 Ha1 E1) as (Hp1 & Hg1 & Hn1).
      destruct (norm_fits m2 e2 p2 Ha2 E2) as (Hp2 & Hg2 & Hn2).
      destruct (norm_same p1 (grid m1 e1)) as [Hs1 _].
      destruct (norm_same p2 (grid m2 e2)) as [_ Hs2].
      pose proof (vle_trans _ _ _ _ _ _ Hs1 (vle_trans _ _ _ _ _ _ Hr Hs2)) as Hn.
      pose proof (vle_lex _ _ _ _ Hn Hp2 Hn1 Hg2) as Hlex.
      destruct (Z.leb_spec (snd (norm p2 (grid m2 e2))) 971).
      * destruct (Z.leb_spec (snd (norm p1 (grid m1 e1))) 971); [|lia].
        now apply SFleb_lex.
      * destruct (Z.leb_spec (snd (norm p1 (grid m1 e1))) 971); reflexivity.
Qed.

(** *** [binary_round]: aligning first *)

Lemma shl_align_spec mx ex ex' :
  let '(mz, ez) := shl_align mx ex ex' in
  ez = Z.min ex ex' /\ Zpos mz = Zpos mx * 2 ^ (ex - ez).
Proof.
  unfold shl_align. destruct (ex' - ex) as [|d|d] eqn:Ed.
  - split; [lia|]. replace (ex - ex) with 0 by lia. simpl. lia.
  - split; [lia|]. replace (ex - ex) with 0 by lia. simpl. lia.
  - split; [lia|]. change (Pos.iter xO mx d) with (shift_pos d mx).
    rewrite shift_pos_correct, Z.pow_pos_fold.
    replace (ex - ex') with (Zpos d) by lia. ring.
Qed.

Lemma digits2_shift m k :
  0 <= k -> forall mz, Zpos mz = Zpos m * 2 ^ k ->
  Zpos (digits2_pos mz) = Zpos (digits2_pos m) + k.
Proof.
  intros Hk mz Hmz. apply digits2_unique. rewrite Hmz.
  destruct (digits2_bounds m) as [Hl Hu].
  assert (0 < 2 ^ k) by (apply Z.pow_pos_nonneg; lia).
  replace (Zpos (digits2_pos m) + k - 1) with ((Zpos (digits2_pos m) - 1) + k) by lia.
  rewrite !Z.pow_add_r by lia. nia.
Qed.

(** [binary_round] is [rounded] at an aligned pair of the same value. *)
Lemma binary_round_rounded s mx ex :
  exists mz ez,
    binary_round prec emax s mx ex = rounded s mz ez
    /\ aligned mz ez /\ ez <= ex /\ Zpos mz = Zpos mx * 2 ^ (ex - ez)
    /\ Zpos (digits2_pos mz) + ez = Zpos (digits2_pos mx) + ex.
Proof.
  unfold binary_round.
  pose proof (shl_align_spec mx ex (fx (Zpos (digits2_pos mx) + ex))) as H.
  destruct (shl_align mx ex (fx (Zpos (digits2_pos mx) + ex))) as [mz ez].
  destruct H as [Hez Hmz].
  assert (Hd : Zpos (digits2_pos mz) + ez = Zpos (digits2_pos mx) + ex).
  { rewrite (digits2_shift mx (ex - ez) ltac:(lia) mz Hmz). lia. }
  assert (Ha : aligned mz ez) by (unfold aligned; rewrite Hd; lia).
  exists mz, ez. split; [apply bra_rounded, Ha|]. repeat split; try assumption. lia.
Qed.

Lemma vle_refl m e : vle m e m e.
Proof. unfold vle. lia. Qed.

Lemma vle_scaled mz ez mx ex :
  ez <= ex -> mz = mx * 2 ^ (ex - ez) -> vle mz ez mx ex /\ vle mx ex mz ez.
Proof.
  intros He ->. split.
  - apply (vle_base _ _ _ _ ez); [lia|lia|]. rewrite Z.sub_diag. lia.
  - apply (vle_base _ _ _ _ ez); [lia|lia|]. rewrite Z.sub_diag. lia.
Qed.

Lemma binary_round_nonneg m e : nonneg_sf (binary_round prec emax false m e) = true.
Proof.
  destruct (binary_round_rounded false m e) as (mz & ez & -> & _). apply rounded_nonneg.
Qed.

Lemma binary_round_valid s m e : valid_binary (binary_round prec emax s m e) = true.
Proof.
  destruct (binary_round_rounded s m e) as (mz & ez & -> & Ha & _).
  now apply rounded_valid.
Qed.

Lemma binary_round_mono m1 e1 m2 e2 :
  vle (Zpos m1) e1 (Zpos m2) e2 ->
  SFleb (binary_round prec emax false m1 e1) (binary_round prec emax false m2 e2) = true.
Proof.
  intros Hv.
  destruct (binary_round_rounded false m1 e1) as (mz1 & ez1 & -> & Ha1 & He1 & Hm1 & _).
  destruct (binary_round_rounded false m2 e2) as (mz2 & ez2 & -> & Ha2 & He2 & Hm2 & _).
  apply rounded_mono; try assumption.
  destruct (vle_scaled _ _ _ _ He1 Hm1) as [H1 _].
  destruct (vle_scaled _ _ _ _ He2 Hm2) as [_ H2].
  exact (vle_trans _ _ _ _ _ _ H1 (vle_trans _ _ _ _ _ _ Hv H2)).
Qed.

(** A float of the format rounds to itself. *)
Lemma binary_round_bounded s m e :
  bounded prec emax m e = true -> binary_round prec emax s m e = S754_finite s m e.
Proof.
  intros Hb. pose proof Hb as Hb'. apply bounded_iff in Hb' as (Hp & HE & Hn).
  unfold bounded, canonical_mantissa in Hb. apply andb_true_iff in Hb as [Hc _].
  apply Z.eqb_eq in Hc.
  unfold binary_round, shl_align. rewrite Hc, Z.sub_diag.
  rewrite bra_rounded by (unfold aligned; lia).
  rewrite rounded_unfold. unfold rmant, grid. rewrite Hc, Z.sub_diag, dhe_one.
  destruct (Pos.eqb_spec m (2 ^ 53)) as [->|_]; [simpl in Hp; lia|].
  destruct (Z.leb_spec e 971); [reflexivity|lia].
Qed.

(** Below 2^1023 nothing overflows. *)
Lemma binary_round_finite s m e :
  Zpos (digits2_pos m) + e <= 1023 ->
  match binary_round prec emax s m e with
  | S754_infinity _ | S754_nan => False
  | _ => True
  end.
Proof.
  intros Hmag.
  destruct (binary_round_rounded s m e) as (mz & ez & -> & Ha & _ & _ & Hd).
  rewrite rounded_unfold. destruct (rmant mz ez); try exact I.
  assert (grid mz ez <= 970) by (unfold grid; rewrite fx_eq; lia).
  destruct (_ =? _)%positive.
  - destruct (Z.leb_spec (grid mz ez + 1) 971); [exact I|lia].
  - destruct (Z.leb_spec (grid mz ez) 971); [exact I|lia].
Qed.

Lemma binary_round_not_nan s m e : binary_round prec emax s m e <> S754_nan.
Proof.
  destruct (binary_round_rounded s m e) as (mz & ez & -> & _).
  rewrite rounded_unfold. destruct (rmant mz ez); try discriminate.
  destruct (_ =? _)%positive; destruct (_ <=? _); discriminate.
Qed.

End Rounding.

(** ** The operations on non-negative floats *)
Module SFOps.
Import PyFloat Rounding.

(** A non-negative float of the format (an infinity included). *)
Definition good (x : spec_float) : Prop :=
  nonneg_sf x = true /\ valid_binary x = true.

Definition finite_or_zero (x : spec_float) : bool :=
  match x with
  | S754_zero _ | S754_finite _ _ _ => true
  | _ => false
  end.

Lemma SFleb_zero_l x : nonneg_sf x = true -> SFleb (S754_zero false) x = true.
Proof. destruct x as [[|]|[|]| |[|] m e]; simpl; try discriminate; reflexivity. Qed.

Lemma SFleb_inf_r x : nonneg_sf x = true -> SFleb x (S754_infinity false) = true.
Proof. destruct x as [[|]|[|]| |[|] m e]; simpl; try discriminate; reflexivity. Qed.

Lemma SFleb_refl x : nonneg_sf x = true -> SFleb x x = true.
Proof.
  destruct x as [[|]|[|]| |[|] m e]; simpl; try discriminate; try reflexivity.
  intros _. apply SFleb_lex. right. split; [reflexivity|apply Pos.le_refl].
Qed.

(** On floats of the format the comparison is the order of values. *)
Lemma SFleb_vle m1 e1 m2 e2 :
  bounded prec emax m1 e1 = true -> bounded prec emax m2 e2 = true ->
  SFleb (S754_finite false m1 e1) (S754_finite false m2 e2) = true ->
  vle (Zpos m1) e1 (Zpos m2) e2.
Proof.
  intros Hb1 Hb2. apply bounded_iff in Hb1 as (Hp1 & HE1 & Hn1).
  apply bounded_iff in Hb2 as (Hp2 & HE2 & Hn2).
  unfold SFleb, SFcompare.
  destruct (Z.compare_spec e1 e2) as [->|Hlt|Hgt]; [| |discriminate].
  - change (Pos.compare_cont Eq m1 m2) with (m1 ?= m2)%positive.
    intros H. unfold vle. rewrite Z.min_id, Z.sub_diag. change (2 ^ 0) with 1.
    destruct (Pos.compare_spec m1 m2); try discriminate; lia.
  - intros _. apply (vle_base _ _ _ _ e1); [lia|lia|].
    rewrite Z.sub_diag, Z.mul_1_r.
    assert (2 ^ 1 <= 2 ^ (e2 - e1)) by (apply Z.pow_le_mono_r; lia).
    change (2 ^ 1) with 2 in *. specialize (Hn2 ltac:(lia)). nia.
Qed.

(** *** An integer as a float *)

Definition int_sf (z : Z) : spec_float := binary_normalize prec emax z 0 false.

Lemma int_sf_good z : 0 <= z -> good (int_sf z).
Proof.
  intros Hz. unfold int_sf, good. destruct z as [|p|p]; simpl; [split; reflexivity| |lia].
  split; [apply binary_round_nonneg|apply binary_round_valid].
Qed.

Lemma int_sf_mono z z' : 0 <= z <= z' -> SFleb (int_sf z) (int_sf z') = true.
Proof.
  intros [Hz Hzz].
  destruct z as [|p|p]; [apply SFleb_zero_l, int_sf_good; lia| |lia].
  destruct z' as [|p'|p']; try lia.
  unfold int_sf. simpl. apply binary_round_mono. unfold vle.
  rewrite Z.min_id, Z.sub_diag. lia.
Qed.

Lemma int_sf_finite z : 0 <= z < 2 ^ 1023 -> finite_or_zero (int_sf z) = true.
Proof.
  intros [Hz Hlt]. destruct z as [|p|p]; [reflexivity| |lia].
  unfold int_sf. simpl.
  assert (Hd : Zpos (digits2_pos p) + 0 <= 1023).
  { destruct (digits2_bounds p) as [Hl _].
    destruct (Z.le_gt_cases (Zpos (digits2_pos p)) 1023); [lia|].
    assert (2 ^ 1023 <= 2 ^ (Zpos (digits2_pos p) - 1)) by (apply Z.pow_le_mono_r; lia).
    lia. }
  pose proof (binary_round_finite false p 0 Hd) as Hf.
  pose proof (binary_round_nonneg p 0) as Hn.
  destruct (binary_round prec emax false p 0); try reflexivity; contradiction.
Qed.

(** *** Product *)

Lemma SFmul_comm x y : SFmul prec emax x y = SFmul prec emax y x.
Proof.
  destruct x as [sx|sx| |sx mx ex], y as [sy|sy| |sy my ey]; simpl;
    rewrite ?(xorb_comm sx sy), ?(Pos.mul_comm mx my), ?(Z.add_comm ex ey); reflexivity.
Qed.

(** The product of two mantissas of the format needs no shift to the left. *)
Lemma mul_aligned mx ex my ey :
  bounded prec emax mx ex = true -> bounded prec emax my ey = true ->
  aligned (mx * my) (ex + ey).
Proof.
  intros Hx Hy. apply bounded_iff in Hx as (Hpx & HEx & Hnx).
  apply bounded_iff in Hy as (Hpy & HEy & Hny).
  unfold aligned. rewrite fx_eq.
  destruct (Z.le_gt_cases (ex + ey) (-1074)) as [Hs|Hs]; [lia|].
  assert (Hprod : 2 ^ 52 <= Zpos (mx * my)).
  { rewrite Pos2Z.inj_mul.
    destruct (Z.eq_dec ex (-1074)) as [Hex|Hex].
    - specialize (Hny ltac:(lia)). nia.
    - specialize (Hnx ltac:(lia)). nia. }
  pose proof (digits_ge_2p52 _ Hprod). lia.
Qed.

Lemma SFmul_finite mx ex my ey :
  bounded prec emax mx ex = true -> bounded prec emax my ey = true ->
  SFmul prec emax (S754_finite false mx ex) (S754_finite false my ey)
  = rounded false (mx * my) (ex + ey).
Proof. intros Hx Hy. simpl. apply bra_rounded, mul_aligned; assumption. Qed.

Lemma SFmul_good x p :
  good x -> good p -> finite_or_zero x = true -> finite_or_zero p = true ->
  good (SFmul prec emax x p).
Proof.
  intros [Hnx Hvx] [Hnp Hvp] Hfx Hfp.
  destruct x as [[|]|[|]| |[|] mx ex], p as [[|]|[|]| |[|] mp ep];
    try discriminate; try (split; reflexivity).
  rewrite SFmul_finite by assumption.
  split; [apply rounded_nonneg|apply rounded_valid, mul_aligned; assumption].
Qed.

Lemma SFmul_mono x x' p :
  good x -> good x' -> good p ->
  finite_or_zero x = true -> finite_or_zero x' = true -> finite_or_zero p = true ->
  SFleb x x' = true -> SFleb (SFmul prec emax x p) (SFmul prec emax x' p) = true.
Proof.
  intros [Hnx Hvx] [Hnx' Hvx'] [Hnp Hvp] Hfx Hfx' Hfp Hle.
  destruct x as [[|]|[|]| |[|] mx ex]; try discriminate;
    destruct x' as [[|]|[|]| |[|] mx' ex']; try discriminate;
    destruct p as [[|]|[|]| |[|] mp ep]; try discriminate; try reflexivity.
  - apply SFleb_zero_l.
    apply SFmul_good; try (split; assumption); reflexivity.
  - rewrite !SFmul_finite by assumption.
    apply rounded_mono; try (apply mul_aligned; assumption).
    pose proof (SFleb_vle _ _ _ _ Hvx Hvx' Hle) as Hv.
    set (b := Z.min ex ex').
    apply (vle_base _ _ _ _ b) in Hv; [|lia|lia].
    apply (vle_base _ _ _ _ (b + ep)); [lia|lia|].
    replace (ex + ep - (b + ep)) with (ex - b) by lia.
    replace (ex' + ep - (b + ep)) with (ex' - b) by lia.
    rewrite !Pos2Z.inj_mul.
    replace (Zpos mx * Zpos mp * 2 ^ (ex - b)) with (Zpos mx * 2 ^ (ex - b) * Zpos mp) by ring.
    replace (Zpos mx' * Zpos mp * 2 ^ (ex' - b)) with (Zpos mx' * 2 ^ (ex' - b) * Zpos mp) by ring.
    apply Z.mul_le_mono_nonneg_r; [lia|exact Hv].
Qed.

(** *** Sum *)

Lemma SFadd_comm x y : SFadd prec emax x y = SFadd prec emax y x.
Proof.
  destruct x as [[|]|[|]| |sx mx ex], y as [[|]|[|]| |sy my ey]; try reflexivity.
  simpl. rewrite (Z.min_comm ey ex). f_equal. apply Z.add_comm.
Qed.

Lemma SFadd_finite mx ex my ey :
  exists m,
    SFadd prec emax (S754_finite false mx ex) (S754_finite false my ey)
    = binary_round prec emax false m (Z.min ex ey)
    /\ Zpos m = Zpos mx * 2 ^ (ex - Z.min ex ey) + Zpos my * 2 ^ (ey - Z.min ex ey).
Proof.
  pose proof (shl_align_spec mx ex (Z.min ex ey)) as Hx.
  pose proof (shl_align_spec my ey (Z.min ex ey)) as Hy.
  unfold SFadd. cbn [cond_Zopp].
  destruct (shl_align mx ex (Z.min ex ey)) as [ax zx].
  destruct (shl_align my ey (Z.min ex ey)) as [ay zy].
  destruct Hx as [Hzx Hax], Hy as [Hzy Hay]. cbn [fst].
  exists (ax + ay)%positive. split; [reflexivity|].
  rewrite Pos2Z.inj_add, Hax, Hay, Hzx, Hzy.
  replace (Z.min ex (Z.min ex ey)) with (Z.min ex ey) by lia.
  replace (Z.min ey (Z.min ex ey)) with (Z.min ex ey) by lia.
  reflexivity.
Qed.

Lemma SFadd_good a b : good a -> good b -> good (SFadd prec emax a b).
Proof.
  intros [Hna Hva] [Hnb Hvb].
  destruct a as [[|]|[|]| |[|] ma ea]; try discriminate;
    destruct b as [[|]|[|]| |[|] mb eb]; try discriminate;
    try (split; [reflexivity|assumption]); try (split; reflexivity).
  destruct (SFadd_finite ma ea mb eb) as (m & -> & _).
  split; [apply binary_round_nonneg|apply binary_round_valid].
Qed.

Lemma SFadd_mono a a' b :
  good a -> good a' -> good b ->
  SFleb a a' = true -> SFleb (SFadd prec emax a b) (SFadd prec emax a' b) = true.
Proof.
  intros [Hna Hva] [Hna' Hva'] [Hnb Hvb] Hle.
  destruct a as [[|]|[|]| |[|] ma ea]; try discriminate;
    destruct a' as [[|]|[|]| |[|] ma' ea']; try discriminate;
    destruct b as [[|]|[|]| |[|] mb eb]; try discriminate;
    try reflexivity; try exact Hle.
  - apply SFleb_refl. reflexivity.
  - (* 0 + b <= a' + b *)
    destruct (SFadd_finite ma' ea' mb eb) as (m & Hs & Hm).
    change (SFadd prec emax (S754_zero false) (S754_finite false mb eb))
      with (S754_finite false mb eb).
    rewrite Hs, <- (binary_round_bounded false mb eb Hvb).
    apply binary_round_mono.
    apply (vle_base _ _ _ _ (Z.min ea' eb)); [lia|lia|].
    rewrite Z.sub_diag, Z.mul_1_r, Hm.
    assert (0 < 2 ^ (ea' - Z.min ea' eb)) by (apply Z.pow_pos_nonneg; lia).
    nia.
  - destruct (SFadd_finite ma ea mb eb) as (m & -> & _).
    apply SFleb_inf_r, binary_round_nonneg.
  - (* a + b <= a' + b *)
    destruct (SFadd_finite ma ea mb eb) as (m & -> & Hm).
    destruct (SFadd_finite ma' ea' mb eb) as (m' & -> & Hm').
    apply binary_round_mono.
    pose proof (SFleb_vle _ _ _ _ Hva Hva' Hle) as Hv.
    set (z := Z.min ea eb) in *. set (z' := Z.min ea' eb) in *.
    set (c := Z.min z z').
    assert (Hc : c <= z /\ c <= z' /\ z <= ea /\ z <= eb /\ z' <= ea' /\ z' <= eb)
      by (subst c z z'; lia).
    apply (vle_base _ _ _ _ c) in Hv; [|lia|lia].
    apply (vle_base _ _ _ _ c); [lia|lia|].
    rewrite Hm, Hm', !Z.mul_add_distr_r, <- !Z.mul_assoc, <- !Z.pow_add_r by lia.
    replace (ea - z + (z - c)) with (ea - c) by lia.
    replace (eb - z + (z - c)) with (eb - c) by lia.
    replace (ea' - z' + (z' - c)) with (ea' - c) by lia.
    replace (eb - z' + (z' - c)) with (eb - c) by lia.
    lia.
Qed.

(** *** Six decimals *)

(** [round6] on the float's value. *)
Definition round6_sf (x : spec_float) : spec_float :=
  match x with
  | S754_finite s m e =>
      match scaled_half_even m e with
      | Zpos k => millionths s k
      | _ => S754_zero s
      end
  | _ => x
  end.

(** The scaled integer, from any exponent below the float's and zero. *)
Lemma scaled_half_even_base m e b :
  b <= e -> b <= 0 ->
  scaled_half_even m e = div_half_even (Zpos m * 2 ^ (e - b) * 1000000) (2 ^ (- b)).
Proof.
  intros Hbe Hb0. unfold scaled_half_even.
  assert (Hd : 0 < 2 ^ (- b)) by (apply Z.pow_pos_nonneg; lia).
  destruct (Z.leb_spec 0 e) as [He|He].
  - replace (e - b) with (- b + e) by lia. rewrite Z.pow_add_r by lia.
    replace (Zpos m * (2 ^ (- b) * 2 ^ e) * 1000000)
      with (2 ^ (- b) * (Zpos m * 2 ^ e * 1000000)) by ring.
    symmetry. apply dhe_exact, Hd.
  - replace (- b) with (- e + (e - b)) by lia. rewrite Z.pow_add_r by lia.
    replace (Zpos m * 2 ^ (e - b) * 1000000) with (Zpos m * 1000000 * 2 ^ (e - b)) by ring.
    symmetry. apply dhe_scale; apply Z.pow_pos_nonneg; lia.
Qed.

Lemma scaled_half_even_mono m1 e1 m2 e2 :
  vle (Zpos m1) e1 (Zpos m2) e2 -> scaled_half_even m1 e1 <= scaled_half_even m2 e2.
Proof.
  intros Hv. set (b := Z.min (Z.min e1 e2) 0).
  assert (Hb : b <= e1 /\ b <= e2 /\ b <= 0) by (subst b; lia).
  rewrite (scaled_half_even_base m1 e1 b), (scaled_half_even_base m2 e2 b) by lia.
  apply (vle_base _ _ _ _ b) in Hv; [|lia|lia].
  apply dhe_mono; [apply Z.pow_pos_nonneg; lia|lia].
Qed.

Lemma scaled_half_even_nonneg m e : 0 <= scaled_half_even m e.
Proof.
  unfold scaled_half_even. destruct (Z.leb_spec 0 e).
  - assert (0 < 2 ^ e) by (apply Z.pow_pos_nonneg; lia). nia.
  - apply dhe_nonneg; [apply Z.pow_pos_nonneg; lia|lia].
Qed.

(** The integer [millionths] rounds: twice the quotient, plus one when the
    division is not exact. *)
Definition sticky_quotient (k : positive) : Z :=
  let n := Zpos k * 2 ^ 80 in
  2 * (n / 1000000) + (if n mod 1000000 =? 0 then 0 else 1).

Lemma sticky_quotient_pos k : 0 < sticky_quotient k.
Proof.
  unfold sticky_quotient.
  assert (1 <= Zpos k * 2 ^ 80 / 1000000).
  { apply Z.div_le_lower_bound; [lia|].
    assert (1000000 <= 2 ^ 80) by (vm_compute; discriminate). nia. }
  destruct (_ =? _); lia.
Qed.

Lemma sticky_quotient_mono k1 k2 :
  (k1 <= k2)%positive -> sticky_quotient k1 <= sticky_quotient k2.
Proof.
  intros Hk. unfold sticky_quotient.
  assert (Hn : Zpos k1 * 2 ^ 80 <= Zpos k2 * 2 ^ 80).
  { assert (0 < 2 ^ 80) by (vm_compute; reflexivity). nia. }
  set (n1 := Zpos k1 * 2 ^ 80) in *. set (n2 := Zpos k2 * 2 ^ 80) in *.
  pose proof (Z.div_mod n1 1000000 ltac:(lia)) as H1.
  pose proof (Z.div_mod n2 1000000 ltac:(lia)) as H2.
  pose proof (Z.mod_pos_bound n1 1000000 ltac:(lia)) as B1.
  pose proof (Z.mod_pos_bound n2 1000000 ltac:(lia)) as B2.
  destruct (Z.eqb_spec (n1 mod 1000000) 0), (Z.eqb_spec (n2 mod 1000000) 0); lia.
Qed.

Lemma millionths_eq s k :
  millionths s k = binary_round prec emax s (Z.to_pos (sticky_quotient k)) (-81).
Proof. reflexivity. Qed.

Lemma millionths_mono k1 k2 :
  (k1 <= k2)%positive -> SFleb (millionths false k1) (millionths false k2) = true.
Proof.
  intros Hk. rewrite !millionths_eq. apply binary_round_mono.
  unfold vle. rewrite Z.min_id, Z.sub_diag, !Z.mul_1_r.
  pose proof (sticky_quotient_pos k1). pose proof (sticky_quotient_pos k2).
  rewrite !Z2Pos.id by assumption. apply sticky_quotient_mono, Hk.
Qed.

Lemma round6_sf_good x : good x -> good (round6_sf x).
Proof.
  intros [Hn Hv]. destruct x as [[|]|[|]| |[|] m e]; try discriminate;
    try (split; reflexivity).
  unfold round6_sf. destruct (scaled_half_even m e); try (split; reflexivity).
  rewrite millionths_eq. split; [apply binary_round_nonneg|apply binary_round_valid].
Qed.

Lemma round6_sf_valid x : valid_binary x = true -> valid_binary (round6_sf x) = true.
Proof.
  intros Hv. destruct x as [s|s| |s m e]; try exact Hv.
  unfold round6_sf. destruct (scaled_half_even m e); try reflexivity.
  rewrite millionths_eq. apply binary_round_valid.
Qed.

Lemma round6_sf_mono x y :
  good x -> good y -> SFleb x y = true -> SFleb (round6_sf x) (round6_sf y) = true.
Proof.
  intros [Hnx Hvx] [Hny Hvy] Hle.
  destruct x as [[|]|[|]| |[|] mx ex]; try discriminate;
    destruct y as [[|]|[|]| |[|] my ey]; try discriminate; try reflexivity.
  - apply SFleb_zero_l, round6_sf_good. split; assumption.
  - apply SFleb_inf_r, round6_sf_good. split; assumption.
  - pose proof (scaled_half_even_mono _ _ _ _ (SFleb_vle _ _ _ _ Hvx Hvy Hle)) as Hs.
    pose proof (scaled_half_even_nonneg mx ex) as H0.
    unfold round6_sf.
    destruct (scaled_half_even mx ex) as [|k1|k1] eqn:E1; [| |lia].
    + apply SFleb_zero_l.
      destruct (scaled_half_even my ey); try reflexivity.
      rewrite millionths_eq. apply binary_round_nonneg.
    + destruct (scaled_half_even my ey) as [|k2|k2]; try lia.
      apply millionths_mono. lia.
Qed.

End SFOps.

(** * The cost of a call *)

(** ** Floats and their values *)
Module CostFloats.
Import PyFloat Rounding SFOps.

Lemma float_mul_comm (x y : float) : (x * y)%float = (y * x)%float.
Proof. apply Prim2SF_inj. rewrite !mul_spec. apply SFmul_comm. Qed.

Lemma float_add_comm (x y : float) : (x + y)%float = (y + x)%float.
Proof. apply Prim2SF_inj. rewrite !add_spec. apply SFadd_comm. Qed.

Lemma Prim2SF_round6 x : Prim2SF (round6 x) = round6_sf (Prim2SF x).
Proof.
  unfold round6, round6_sf.
  destruct (Prim2SF x) as [s|s| |s m e] eqn:E; try exact E.
  destruct (scaled_half_even m e); apply Prim2SF_SF2Prim; try reflexivity.
  rewrite millionths_eq. apply binary_round_valid.
Qed.

(** [float(z)], when it is defined, is the rounding of [z], and is finite. *)
Lemma of_int_finite z f :
  of_int z = Ok f ->
  Prim2SF f = int_sf z /\ finite_or_zero (int_sf z) = true.
Proof.
  unfold of_int. change (binary_normalize prec emax z 0 false) with (int_sf z).
  assert (Hv : valid_binary (int_sf z) = true /\ int_sf z <> S754_nan).
  { unfold int_sf. destruct z; simpl;
      [split; [reflexivity|discriminate]
      |split; [apply binary_round_valid|apply binary_round_not_nan]..]. }
  destruct Hv as [Hv Hn].
  destruct (int_sf z) as [s|s| |s m e] eqn:E; try discriminate; try contradiction;
    intros H;
    apply (f_equal (fun r => match r with Ok a => a | Raise _ => f end)) in H;
    cbv beta iota in H; rewrite <- H;
    (split; [exact (Prim2SF_SF2Prim _ Hv)|reflexivity]).
Qed.

Lemma of_int_total z : 0 <= z < 2 ^ 1023 -> of_int z = Ok (SF2Prim (int_sf z)).
Proof.
  intros Hz. unfold of_int. change (binary_normalize prec emax z 0 false) with (int_sf z).
  pose proof (int_sf_finite z Hz) as Hf.
  destruct (int_sf z); try discriminate; reflexivity.
Qed.

(** A float that is not above a finite one is finite. *)
Lemma finite_below x y :
  nonneg_sf x = true -> finite_or_zero y = true -> SFleb x y = true ->
  finite_or_zero x = true.
Proof.
  destruct x as [[|]|[|]| |[|] mx ex]; try discriminate; try reflexivity.
  destruct y as [[|]|[|]| |[|] my ey]; discriminate.
Qed.

Lemma good_Prim2SF x : nonneg_sf (Prim2SF x) = true -> good (Prim2SF x).
Proof. intros H. split; [exact H|apply Prim2SF_valid]. Qed.

End CostFloats.

(** ** [calculate_cost] on values *)
Module CostValue.
Import PyFloat Rounding SFOps CostFloats.

(** Token counts [float()] converts: below [2^1023] none overflows. *)
Definition float_range : Z := 2 ^ 1023.

(** Both prices are non-negative and finite. *)
Definition priced (c : CostPerToken) : bool :=
  nonneg_sf (Prim2SF (input c)) && finite_or_zero (Prim2SF (input c))
  && nonneg_sf (Prim2SF (output c)) && finite_or_zero (Prim2SF (output c)).

(** The value [calculate_cost] computes from the prices and the counts. *)
Definition cost_sf (c : CostPerToken) (i o : Z) : spec_float :=
  round6_sf
    (SFadd prec emax
       (SFmul prec emax (int_sf i) (Prim2SF (input c)))
       (SFmul prec emax (int_sf o) (Prim2SF (output c)))).

Section Generic.
Context {P : Type} `{BaseLLMProvider P}.
Variable self : P.

Lemma calculate_cost_value i o model c :
  calculate_cost self i o model = Ok c ->
  Prim2SF c = cost_sf (get_cost_per_token self model) i o
  /\ finite_or_zero (int_sf i) = true /\ finite_or_zero (int_sf o) = true.
Proof.
  unfold calculate_cost, mul_int.
  destruct (of_int i) as [fi|] eqn:Ei; [|discriminate].
  destruct (of_int o) as [fo|] eqn:Eo; [|discriminate].
  cbn [rbind]. intros Hc.
  apply (f_equal (fun r => match r with Ok a => a | Raise _ => c end)) in Hc.
  cbv beta iota in Hc. rewrite <- Hc.
  destruct (of_int_finite _ _ Ei) as [Hi Hfi], (of_int_finite _ _ Eo) as [Ho Hfo].
  rewrite Prim2SF_round6, add_spec, !mul_spec, Hi, Ho.
  repeat split; assumption.
Qed.

Lemma calculate_cost_total i o model :
  0 <= i < float_range -> 0 <= o < float_range ->
  exists c, calculate_cost self i o model = Ok c.
Proof.
  intros Hi Ho. unfold calculate_cost, mul_int.
  rewrite (of_int_total i Hi), (of_int_total o Ho). cbn [rbind].
  eexists. reflexivity.
Qed.

End Generic.

(** *** Non-negative and monotone, for non-negative finite prices *)
Section Priced.
Variable c : CostPerToken.
Hypothesis Hp : priced c = true.

Lemma priced_input : good (Prim2SF (input c)) /\ finite_or_zero (Prim2SF (input c)) = true.
Proof.
  unfold priced in Hp. rewrite !andb_true_iff in Hp.
  destruct Hp as [[[H1 H2] _] _]. split; [apply good_Prim2SF, H1|exact H2].
Qed.

Lemma priced_output : good (Prim2SF (output c)) /\ finite_or_zero (Prim2SF (output c)) = true.
Proof.
  unfold priced in Hp. rewrite !andb_true_iff in Hp.
  destruct Hp as [[_ H1] H2]. split; [apply good_Prim2SF, H1|exact H2].
Qed.

Lemma product_good z p :
  0 <= z -> finite_or_zero (int_sf z) = true ->
  good p -> finite_or_zero p = true -> good (SFmul prec emax (int_sf z) p).
Proof. intros Hz Hf Hg Hfp. apply SFmul_good; try assumption. apply int_sf_good, Hz. Qed.

Lemma product_mono z z' p :
  0 <= z <= z' -> finite_or_zero (int_sf z') = true ->
  good p -> finite_or_zero p = true ->
  finite_or_zero (int_sf z) = true
  /\ SFleb (SFmul prec emax (int_sf z) p) (SFmul prec emax (int_sf z') p) = true.
Proof.
  intros Hz Hf' Hg Hfp.
  pose proof (int_sf_mono z z' Hz) as Hle.
  destruct (int_sf_good z ltac:(lia)) as [Hn Hv].
  pose proof (finite_below _ _ Hn Hf' Hle) as Hf.
  split; [exact Hf|].
  apply SFmul_mono; try assumption; try (apply int_sf_good; lia).
Qed.

Lemma cost_sf_good i o :
  0 <= i -> 0 <= o ->
  finite_or_zero (int_sf i) = true -> finite_or_zero (int_sf o) = true ->
  good (cost_sf c i o).
Proof.
  intros Hi Ho Hfi Hfo. destruct priced_input as [Gi Fi], priced_output as [Go Fo].
  apply round6_sf_good, SFadd_good; apply product_good; assumption.
Qed.

Lemma cost_sf_mono_input i i' o :
  0 <= i <= i' -> 0 <= o ->
  finite_or_zero (int_sf i') = true -> finite_or_zero (int_sf o) = true ->
  SFleb (cost_sf c i o) (cost_sf c i' o) = true.
Proof.
  intros Hi Ho Hfi' Hfo. destruct priced_input as [Gi Fi], priced_output as [Go Fo].
  destruct (product_mono i i' _ Hi Hfi' Gi Fi) as [Hfi Hle].
  unfold cost_sf.
  apply round6_sf_mono;
    [apply SFadd_good; apply product_good; try assumption; lia..|].
  apply SFadd_mono; try assumption; apply product_good; try assumption; lia.
Qed.

Lemma cost_sf_mono_output i o o' :
  0 <= i -> 0 <= o <= o' ->
  finite_or_zero (int_sf i) = true -> finite_or_zero (int_sf o') = true ->
  SFleb (cost_sf c i o) (cost_sf c i o') = true.
Proof.
  intros Hi Ho Hfi Hfo'. destruct priced_input as [Gi Fi], priced_output as [Go Fo].
  destruct (product_mono o o' _ Ho Hfo' Go Fo) as [Hfo Hle].
  unfold cost_sf.
  apply round6_sf_mono;
    [apply SFadd_good; apply product_good; try assumption; lia..|].
  rewrite (SFadd_comm (SFmul prec emax (int_sf i) _)),
          (SFadd_comm (SFmul prec emax (int_sf i) _)).
  apply SFadd_mono; try assumption; apply product_good; try assumption; lia.
Qed.

End Priced.

(** The three properties of a cost, for an adapter whose prices are
    non-negative and finite. *)
Section PricedProvider.
Context {P : Type} `{BaseLLMProvider P}.
Variable self : P.
Hypothesis Hprices : forall model, priced (get_cost_per_token self model) = true.

Lemma cost_nonneg i o model c :
  0 <= i -> 0 <= o ->
  calculate_cost self i o model = Ok c -> (0 <=? c)%float = true.
Proof.
  intros Hi Ho Hc. destruct (calculate_cost_value self _ _ _ _ Hc) as (Hv & Hfi & Hfo).
  rewrite leb_spec, Hv. apply SFleb_zero_l.
  apply (cost_sf_good _ (Hprices model)); assumption.
Qed.

Lemma cost_mono_input i i' o model c c' :
  0 <= i <= i' -> 0 <= o ->
  calculate_cost self i o model = Ok c -> calculate_cost self i' o model = Ok c' ->
  (c <=? c')%float = true.
Proof.
  intros Hi Ho Hc Hc'.
  destruct (calculate_cost_value self _ _ _ _ Hc) as (Hv & Hfi & Hfo).
  destruct (calculate_cost_value self _ _ _ _ Hc') as (Hv' & Hfi' & _).
  rewrite leb_spec, Hv, Hv'.
  apply (cost_sf_mono_input _ (Hprices model)); assumption.
Qed.

Lemma cost_mono_output i o o' model c c' :
  0 <= i -> 0 <= o <= o' ->
  calculate_cost self i o model = Ok c -> calculate_cost self i o' model = Ok c' ->
  (c <=? c')%float = true.
Proof.
  intros Hi Ho Hc Hc'.
  destruct (calculate_cost_value self _ _ _ _ Hc) as (Hv & Hfi & Hfo).
  destruct (calculate_cost_value self _ _ _ _ Hc') as (Hv' & _ & Hfo').
  rewrite leb_spec, Hv, Hv'.
  apply (cost_sf_mono_output _ (Hprices model)); assumption.
Qed.

End PricedProvider.

End CostValue.

(** ** The prices of the three adapters *)
Section Prices.
Import CostValue.

Lemma anthropic_priced model : priced (AnthropicProvider.cost_per_token model) = true.
Proof.
  assert (Ht : map_Forall (fun _ c => priced c = true) AnthropicProvider.pricing).
  { unfold AnthropicProvider.pricing.
    repeat (apply map_Forall_insert_2; [vm_compute; reflexivity|]).
    apply map_Forall_empty. }
  unfold AnthropicProvider.cost_per_token.
  destruct (AnthropicProvider.pricing !! model) as [c|] eqn:E; simpl.
  - exact (Ht _ _ E).
  - vm_compute. reflexivity.
Qed.

Lemma openai_priced model : priced (OpenAIProvider.cost_per_token model) = true.
Proof.
  assert (Ht : map_Forall (fun _ c => priced c = true) OpenAIProvider.pricing).
  { unfold OpenAIProvider.pricing.
    repeat (apply map_Forall_insert_2; [vm_compute; reflexivity|]).
    apply map_Forall_empty. }
  unfold OpenAIProvider.cost_per_token.
  destruct (OpenAIProvider.pricing !! model) as [c|] eqn:E; simpl.
  - exact (Ht _ _ E).
  - vm_compute. reflexivity.
Qed.

(** A model the table does not list resolves to the default tier. *)
Lemma unlisted_model_default_tier model :
  (AnthropicProvider.pricing !! model = None ->
   AnthropicProvider.cost_per_token model
   = {| input := 3 / 1000000; output := 15 / 1000000 |}%float)
  /\ (OpenAIProvider.pricing !! model = None ->
      OpenAIProvider.cost_per_token model
      = {| input := 10 / 1000000; output := 30 / 1000000 |}%float).
Proof.
  unfold AnthropicProvider.cost_per_token, OpenAIProvider.cost_per_token.
  split; intros ->; reflexivity.
Qed.

Lemma gemini_zero_pair model :
  GeminiProvider.cost_per_token model = {| input := 0; output := 0 |}.
Proof.
  unfold GeminiProvider.cost_per_token.
  destruct (contains "flash" _); [reflexivity|].
  destruct (contains "pro" _); reflexivity.
Qed.

Lemma gemini_priced model : priced (GeminiProvider.cost_per_token model) = true.
Proof. rewrite gemini_zero_pair. vm_compute. reflexivity. Qed.

End Prices.

(** Adapters built with the defaults:
    [AnthropicProvider({'api_key': 'k'})] and [OpenAIProvider({'api_key': 'k'})]. *)
Definition anthropic_defaults : AnthropicProvider.t :=
  {| AnthropicProvider.config := key_only;
     AnthropicProvider.api_key := "k";
     AnthropicProvider.api_base := "https://api.anthropic.com";
     AnthropicProvider.api_version := "2023-06-01";
     AnthropicProvider.timeout := 60;
     AnthropicProvider.max_retries := 3 |}.

Definition openai_defaults : OpenAIProvider.t :=
  {| OpenAIProvider.config := key_only;
     OpenAIProvider.api_key := "k";
     OpenAIProvider.api_base := "https://api.openai.com/v1";
     OpenAIProvider.organization := None;
     OpenAIProvider.timeout := 60;
     OpenAIProvider.max_retries := 3 |}.

Lemma init_anthropic_openai_defaults :
  AnthropicProvider.init key_only (fun _ => None) = Ok anthropic_defaults
  /\ OpenAIProvider.init key_only (fun _ => None) = Ok openai_defaults.
Proof. split; reflexivity. Qed.

#[global] Existing Instance AnthropicProvider.provider.
#[global] Existing Instance OpenAIProvider.provider.
#[global] Existing Instance GeminiProvider.provider.

(** Costs of the usual size, computed: 0.06, 0.001017, 3e-06 and 0.0. *)
Example calculate_cost_examples :
  calculate_cost openai_defaults 1000 500 "gpt-4" = Ok (6 / 100)%float
  /\ calculate_cost anthropic_defaults 1234 567 "claude-3-haiku-20240307"
     = Ok (1017 / 1000000)%float
  /\ calculate_cost anthropic_defaults 1 0 "no-such-model" = Ok (3 / 1000000)%float
  /\ calculate_cost openai_defaults 0 0 "gpt-4o" = Ok 0%float.
Proof. repeat split; vm_compute; reflexivity. Qed.

(** ** The formula *)
Section Formula.
Import PyFloat CostFloats CostValue.

(** [x * z] for a [float] [x] and an [int] [z]. *)
Definition mul_float_int (x : float) (z : Z) : Result float :=
  let* f := of_int z in Ok (x * f)%float.

(** The cost as the specification writes it:
    [input_tokens * input_price + output_price * output_tokens], rounded to
    six fractional digits. *)
Definition compute_cost_spec (input_price output_price : float)
    (input_tokens output_tokens : Z) : Result float :=
  let* a := mul_int input_tokens input_price in
  let* b := mul_float_int output_price output_tokens in
  Ok (round6 (a + b)%float).

Lemma mul_float_int_comm x z : mul_float_int x z = mul_int z x.
Proof.
  unfold mul_float_int, mul_int. destruct (of_int z) as [f|e]; [|reflexivity].
  cbn [rbind]. rewrite float_mul_comm. reflexivity.
Qed.

(** C7: for every provider, every model and all non-negative token counts,
    [calculate_cost] is the specification's formula at the prices the
    provider's lookup returns for the model, rounded to six fractional
    digits; and for counts a float can hold it returns that number. *)
Theorem calculate_cost_formula {P} `{BaseLLMProvider P} (self : P)
    (input_tokens output_tokens : Z) (model : string) :
  0 <= input_tokens -> 0 <= output_tokens ->
  calculate_cost self input_tokens output_tokens model
  = compute_cost_spec (input (get_cost_per_token self model))
      (output (get_cost_per_token self model)) input_tokens output_tokens
  /\ (input_tokens < float_range -> output_tokens < float_range ->
      exists cost, calculate_cost self input_tokens output_tokens model = Ok cost).
Proof.
  intros Hi Ho. split.
  - unfold calculate_cost, compute_cost_spec. rewrite mul_float_int_comm. reflexivity.
  - intros Hi' Ho'. apply calculate_cost_total; lia.
Qed.

Lemma calculate_cost_formula_witness :
  calculate_cost openai_defaults 1000 500 "gpt-4"
  = compute_cost_spec (input (OpenAIProvider.cost_per_token "gpt-4"))
      (output (OpenAIProvider.cost_per_token "gpt-4")) 1000 500
  /\ exists cost, calculate_cost openai_defaults 1000 500 "gpt-4" = Ok cost.
Proof.
  destruct (calculate_cost_formula openai_defaults 1000 500 "gpt-4"
              ltac:(lia) ltac:(lia)) as [Hf Ht].
  split; [exact Hf|]. apply Ht; reflexivity.
Defined.

End Formula.

(** ** Non-negative, deterministic, monotone *)
Section Properties.
Import CostValue.

(** What C8 says of one adapter at one triple [(i, o, model)], against a
    larger input count [i'] and a larger output count [o']: the cost is a
    number, the same from any instance of the adapter, not below zero, and
    not above the cost of the larger counts. *)
Definition cost_behaves {P} `{BaseLLMProvider P} (self other : P)
    (i i' o o' : Z) (model : string) : Prop :=
  exists c ci co,
    calculate_cost self i o model = Ok c
    /\ calculate_cost other i o model = Ok c
    /\ calculate_cost self i' o model = Ok ci
    /\ calculate_cost self i o' model = Ok co
    /\ (0 <=? c)%float = true
    /\ (c <=? ci)%float = true
    /\ (c <=? co)%float = true.

Lemma priced_cost_behaves {P} `{BaseLLMProvider P} (self other : P) i i' o o' model :
  (forall m, priced (get_cost_per_token self m) = true) ->
  (forall m, get_cost_per_token other m = get_cost_per_token self m) ->
  0 <= i <= i' -> i' < float_range -> 0 <= o <= o' -> o' < float_range ->
  cost_behaves self other i i' o o' model.
Proof.
  intros Hp Hsame Hi Hi' Ho Ho'.
  destruct (calculate_cost_total self i o model) as [c Hc]; [lia|lia|].
  destruct (calculate_cost_total self i' o model) as [ci Hci]; [lia|lia|].
  destruct (calculate_cost_total self i o' model) as [co Hco]; [lia|lia|].
  exists c, ci, co. repeat split; try assumption.
  - unfold calculate_cost in *. rewrite Hsame. exact Hc.
  - apply (cost_nonneg self Hp i o model); [lia|lia|exact Hc].
  - apply (cost_mono_input self Hp i i' o model); [lia|lia|exact Hc|exact Hci].
  - apply (cost_mono_output self Hp i o o' model); [lia|lia|exact Hc|exact Hco].
Qed.

(** C8 as the claim states it, for the Anthropic adapter: at all triples,
    whatever the two counts are. *)
Definition cost_behaves_at_all_triples : Prop :=
  forall (a a' : AnthropicProvider.t) i i' o o' model,
    i <= i' -> o <= o' -> cost_behaves a a' i i' o o' model.

(** C8, as stated, fails: at a count of [10 ** 309] tokens there is no cost,
    the conversion of the count to a float raises [OverflowError]. *)
Lemma calculate_cost_not_at_all_triples : ~ cost_behaves_at_all_triples.
Proof.
  intros H.
  destruct (H anthropic_defaults anthropic_defaults (10 ^ 309) (10 ^ 309) 0 0
              "claude-3-opus-20240229" ltac:(lia) ltac:(lia)) as (c & _ & _ & Hc & _).
  vm_compute in Hc. discriminate Hc.
Qed.

(** Nor is the cost of a negative count above zero. *)
Lemma calculate_cost_negative_count :
  calculate_cost anthropic_defaults (-1) 0 "claude-3-opus-20240229"
  = Ok (-15 / 1000000)%float.
Proof. vm_compute. reflexivity. Qed.

(** C8 (amended): for the three adapters, every model and all token counts
    from 0 up to what a float can hold (below 2^1023), [calculate_cost]
    returns a non-negative number; it is a function of the counts and the
    model alone (no instance and nothing of the world enters it); and it
    does not decrease when either count grows. A model that the pricing
    table of the Anthropic or the OpenAI adapter does not list is priced at
    that adapter's default tier. *)
Theorem calculate_cost_nonneg_deterministic_monotone (i i' o o' : Z) (model : string) :
  0 <= i <= i' -> i' < float_range -> 0 <= o <= o' -> o' < float_range ->
  (forall a a' : AnthropicProvider.t, cost_behaves a a' i i' o o' model)
  /\ (forall a a' : OpenAIProvider.t, cost_behaves a a' i i' o o' model)
  /\ (forall a a' : GeminiProvider.t, cost_behaves a a' i i' o o' model)
  /\ (AnthropicProvider.pricing !! model = None ->
      forall a : AnthropicProvider.t,
        get_cost_per_token a model
        = {| input := 3 / 1000000; output := 15 / 1000000 |}%float)
  /\ (OpenAIProvider.pricing !! model = None ->
      forall a : OpenAIProvider.t,
        get_cost_per_token a model
        = {| input := 10 / 1000000; output := 30 / 1000000 |}%float).
Proof.
  intros Hi Hi' Ho Ho'.
  split; [intros a a'; apply priced_cost_behaves; try assumption;
          [apply anthropic_priced|reflexivity]|].
  split; [intros a a'; apply priced_cost_behaves; try assumption;
          [apply openai_priced|reflexivity]|].
  split; [intros a a'; apply priced_cost_behaves; try assumption;
          [apply gemini_priced|reflexivity]|].
  split; intros Hm a.
  - exact (proj1 (unlisted_model_default_tier model) Hm).
  - exact (proj2 (unlisted_model_default_tier model) Hm).
Qed.

Lemma calculate_cost_nonneg_deterministic_monotone_witness :
  cost_behaves anthropic_defaults anthropic_defaults 1000 2000 500 501 "no-such-model"
  /\ cost_behaves openai_defaults openai_defaults 1000 2000 500 501 "no-such-model"
  /\ cost_behaves gemini_defaults gemini_defaults 1000 2000 500 501 "no-such-model"
  /\ get_cost_per_token anthropic_defaults "no-such-model"
     = {| input := 3 / 1000000; output := 15 / 1000000 |}%float
  /\ get_cost_per_token openai_defaults "no-such-model"
     = {| input := 10 / 1000000; output := 30 / 1000000 |}%float.
Proof.
  destruct (calculate_cost_nonneg_deterministic_monotone 1000 2000 500 501 "no-such-model"
              ltac:(lia) eq_refl ltac:(lia) eq_refl) as (HA & HO & HG & HdA & HdO).
  split; [apply HA|]. split; [apply HO|]. split; [apply HG|].
  split; [apply HdA; reflexivity|apply HdO; reflexivity].
Defined.

End Properties.

(** ** The Gemini adapter charges nothing *)
Section GeminiCost.
Import GeminiProvider PyFloat Rounding SFOps CostFloats CostValue.

Definition is_zero_sf (x : spec_float) : bool :=
  match x with
  | S754_zero _ => true
  | _ => false
  end.

(** A zero of either sign compares equal to [0.0]. *)
Lemma eqb_zero c : is_zero_sf (Prim2SF c) = true -> (c =? 0)%float = true.
Proof.
  intros Hz. rewrite FloatAxioms.eqb_spec.
  destruct (Prim2SF c) as [s|s| |s m e]; try discriminate. reflexivity.
Qed.

Lemma cost_sf_zero i o :
  finite_or_zero (int_sf i) = true -> finite_or_zero (int_sf o) = true ->
  is_zero_sf (cost_sf {| input := 0; output := 0 |} i o) = true.
Proof.
  unfold cost_sf. cbn [input output]. change (Prim2SF 0) with (S754_zero false).
  destruct (int_sf i) as [[|]|[|]| |[|] mi ei]; try discriminate;
    destruct (int_sf o) as [[|]|[|]| |[|] mo eo]; try discriminate; reflexivity.
Qed.

Lemma cost_sf_zero_nonneg i o :
  0 <= i -> 0 <= o ->
  finite_or_zero (int_sf i) = true -> finite_or_zero (int_sf o) = true ->
  cost_sf {| input := 0; output := 0 |} i o = S754_zero false.
Proof.
  intros Hi Ho. destruct (int_sf_good i Hi) as [Hni _], (int_sf_good o Ho) as [Hno _].
  unfold cost_sf. cbn [input output]. change (Prim2SF 0) with (S754_zero false).
  destruct (int_sf i) as [[|]|[|]| |[|] mi ei]; try discriminate;
    destruct (int_sf o) as [[|]|[|]| |[|] mo eo]; try discriminate; reflexivity.
Qed.

(** Whatever the counts, a cost the Gemini adapter computes equals [0.0]. *)
Lemma gemini_cost_zero (self : t) i o model c :
  calculate_cost self i o model = Ok c -> (c =? 0)%float = true.
Proof.
  intros Hc. destruct (calculate_cost_value self _ _ _ _ Hc) as (Hv & Hfi & Hfo).
  apply eqb_zero. rewrite Hv.
  change (get_cost_per_token self model) with (cost_per_token model).
  rewrite gemini_zero_pair. apply cost_sf_zero; assumption.
Qed.

Lemma gemini_cost_zero_exact (self : t) i o model :
  0 <= i < float_range -> 0 <= o < float_range ->
  calculate_cost self i o model = Ok 0%float.
Proof.
  intros Hi Ho. destruct (calculate_cost_total self i o model Hi Ho) as [c Hc].
  rewrite Hc. f_equal. apply Prim2SF_inj.
  destruct (calculate_cost_value self _ _ _ _ Hc) as (Hv & Hfi & Hfo).
  rewrite Hv. change (get_cost_per_token self model) with (cost_per_token model).
  rewrite gemini_zero_pair. apply cost_sf_zero_nonneg; try assumption; lia.
Qed.

(** *** What a call can return *)

Definition yields {D A} (Q : A -> Prop) (m : M D A) : Prop :=
  forall w a w', m w = (Ok a, w') -> Q a.

Lemma y_ret {D A} (Q : A -> Prop) a : Q a -> yields (D:=D) Q (ret a).
Proof. intros H w a' w' [= <- _]. exact H. Qed.

Lemma y_raise {D A} (Q : A -> Prop) e : yields (D:=D) Q (raise e).
Proof. intros w a w' [=]. Qed.

Lemma y_lift {D A} (Q : A -> Prop) (r : Result A) :
  (forall a, r = Ok a -> Q a) -> yields (D:=D) Q (lift r).
Proof. intros H w a w' [= -> _]. apply H. reflexivity. Qed.

Lemma y_bind {D A B} (R : A -> Prop) (Q : B -> Prop) (m : M D A) (k : A -> M D B) :
  yields R m -> (forall a, R a -> yields Q (k a)) -> yields Q (bind m k).
Proof.
  intros Hm Hk w b w'. unfold bind. specialize (Hm w).
  destruct (m w) as [[a|e] w1]; [|discriminate].
  apply (Hk a (Hm a w1 eq_refl)).
Qed.

Lemma y_bind_any {D A B} (Q : B -> Prop) (m : M D A) (k : A -> M D B) :
  (forall a, yields Q (k a)) -> yields Q (bind m k).
Proof.
  intros Hk. apply (y_bind (fun _ => True)); [intros w a w' _; exact I|].
  intros a _. apply Hk.
Qed.

Lemma y_catch {D A} (Q : A -> Prop) (m : M D A) (h : PyExc -> M D A) :
  yields Q m -> (forall e, yields Q (h e)) -> yields Q (catch m h).
Proof.
  intros Hm Hh w a w'. unfold catch. specialize (Hm w).
  destruct (m w) as [[a0|e] w1].
  - intros [= <- <-]. apply (Hm a0 w1 eq_refl).
  - apply Hh.
Qed.

Lemma y_gate {D A} (Q : A -> Prop) (m : M D A) :
  yields Q m -> yields Q (async_with_gate m).
Proof.
  intros Hm w a w'. unfold async_with_gate.
  specialize (Hm (set_held (S (held w)) w)).
  destruct (m _) as [r w1]. intros [= -> _]. apply (Hm a w1 eq_refl).
Qed.

Lemma y_SmartRetry_from {D A} (Q : A -> Prop) retry_on base_delay (f : M D A) n k :
  yields Q f -> yields Q (SmartRetry_from retry_on base_delay n k f).
Proof.
  intros Hf. revert k. induction n as [|n IH]; intros k; simpl.
  - apply y_catch; [exact Hf|]. intros e. apply y_raise.
  - apply y_catch; [exact Hf|]. intros e.
    destruct (retry_on e); [|apply y_raise].
    apply y_bind_any. intros _. apply IH.
Qed.

Definition zero_cost (r : LLMResponse.t) : Prop :=
  (LLMResponse.cost r =? 0)%float = true.

Definition flow_zero_cost (f : Flow) : Prop :=
  match f with
  | Returned r => zero_cost r
  | Continued => True
  end.

Definition option_zero_cost (o : option LLMResponse.t) : Prop :=
  match o with
  | Some r => zero_cost r
  | None => True
  end.

Lemma y_cost {D} (self : t) i o model :
  yields (D:=D) (fun c => (c =? 0)%float = true) (lift (calculate_cost self i o model)).
Proof. apply y_lift. intros c. apply gemini_cost_zero. Qed.

Lemma y_backoff self attempt last :
  yields flow_zero_cost last -> yields flow_zero_cost (backoff self attempt last).
Proof.
  intros H. unfold backoff. destruct (_ <? _); [|exact H].
  do 2 (apply y_bind_any; intros _). apply y_ret. exact I.
Qed.

Lemma y_try_body self model st attempt cand o :
  yields flow_zero_cost (try_body self model st attempt cand o).
Proof.
  unfold try_body. destruct o as [status body json| |msg]; try apply y_raise.
  destruct (negb _); [apply y_bind_any; intros _; apply y_backoff, y_raise|].
  apply y_bind_any. intros result.
  apply y_bind_any. intros generated.
  apply y_bind_any. intros now.
  apply (y_bind _ _ _ _ (y_cost self _ _ model)). intros cost Hcost.
  apply y_bind_any. intros finish.
  apply y_bind_any. intros _.
  apply y_ret. exact Hcost.
Qed.

Lemma y_retry_loop self model st todo cand :
  yields option_zero_cost (retry_loop self model st todo cand).
Proof.
  revert cand. induction todo as [|a rest IH]; intros cand; simpl.
  - apply y_ret. exact I.
  - apply y_bind_any. intros o.
    apply (y_bind flow_zero_cost).
    + apply y_catch; [apply y_try_body|].
      intros e. unfold handlers.
      destruct e; apply y_bind_any; intros _; apply y_backoff, y_raise.
    + intros [r|] Hr; [apply y_ret; exact Hr|apply IH].
Qed.

Lemma y_generate_with_sdk self request model budget :
  yields zero_cost (_generate_with_sdk self request model budget).
Proof.
  unfold _generate_with_sdk.
  apply y_bind_any. intros st.
  apply y_catch; [|intros e; apply y_bind_any; intros _; apply y_raise].
  do 2 (apply y_bind_any; intros _).
  apply y_bind_any. intros response.
  apply y_bind_any. intros now.
  apply y_bind_any. intros [[p c] tot].
  apply (y_bind _ _ _ _ (y_cost self _ _ model)). intros cost Hcost.
  do 3 (apply y_bind_any; intros _).
  apply y_ret. exact Hcost.
Qed.

Lemma y_generate_body self request :
  yields option_zero_cost (generate_body self request).
Proof.
  unfold generate_body. apply y_bind_any. intros _.
  destruct (_ && _)%bool.
  - apply (y_bind zero_cost); [apply y_generate_with_sdk|].
    intros r Hr. apply y_ret. exact Hr.
  - apply y_bind_any. intros st. apply y_gate, y_retry_loop.
Qed.

Lemma y_generate self request : yields option_zero_cost (generate self request).
Proof. apply y_SmartRetry_from, y_generate_body. Qed.

(** A 200 body with one candidate and a usage block. *)
Definition hello_body : Data :=
  {| candidates :=
       Some [{| content := Some {| parts := Some [{| text := Some "hello" |}] |};
                finishReason := Some "STOP" |}];
     usageMetadata :=
       Some {| promptTokenCount := Some 3;
               candidatesTokenCount := Some 5;
               totalTokenCount := Some 8 |} |}.

Definition hello_response : LLMResponse.t :=
  {| LLMResponse.content := Some "hello";
     LLMResponse.model := "gemini-2.5-flash";
     LLMResponse.provider := ByName "gemini";
     LLMResponse.tokens_used := Some 8;
     LLMResponse.cost := 0;
     LLMResponse.latency_ms := 0;
     LLMResponse.metadata :=
       <["prompt_tokens" := MVal (VInt 3)]>
       (<["completion_tokens" := MVal (VInt 5)]>
       (<["thinking_mode" := MVal (VBool true)]>
       (<["finish_reason" := MVal (VStr "STOP")]> ∅)));
     LLMResponse.finish_reason := None;
     LLMResponse.error := None |}.

(** The world of a run that read the clock twice and called the vendor
    once. *)
Definition after_one_call (o : Outcome Data) : World Data :=
  {| vendor := fun _ => o; clock := fun _ => 0%float; sdk_config := accepting;
     posts := 1; reads := 2; sleeps := []; held := 0 |}.

(** The Gemini adapter does return a response on a 200, after one vendor
    call and with its slot given back. *)
Lemma gemini_200_response :
  generate gemini_defaults (request_of "hi") (always (Responded 200 "" (Some hello_body)))
  = (Ok (Some hello_response), after_one_call (Responded 200 "" (Some hello_body))).
Proof. vm_compute. reflexivity. Qed.

(** C10 as the claim states it: a cost of zero for all token counts. *)
Definition zero_for_all_counts : Prop :=
  forall (self : t) i o model,
    exists c, calculate_cost self i o model = Ok c /\ (c =? 0)%float = true.

(** C10, as stated, fails: at [10 ** 309] tokens [calculate_cost] returns no
    cost, it raises [OverflowError]. *)
Lemma gemini_cost_overflows : ~ zero_for_all_counts.
Proof.
  intros H.
  destruct (H gemini_defaults (10 ^ 309) 0 "gemini-2.5-flash") as (c & Hc & _).
  vm_compute in Hc. discriminate Hc.
Qed.

(** C10 (amended): the Gemini lookup returns the zero pair for every model;
    so [calculate_cost] returns [0.0] for all token counts from 0 up to what
    a float can hold (below 2^1023), a cost it returns for any counts equals
    [0.0], and every response a Gemini [generate] returns (with the
    decorator or without it, over REST or through the SDK) carries a cost
    equal to [0.0]. *)
Theorem gemini_cost_is_zero (self : t) (model : string) :
  get_cost_per_token self model = {| input := 0; output := 0 |}
  /\ (forall i o,
        0 <= i < float_range -> 0 <= o < float_range ->
        calculate_cost self i o model = Ok 0%float)
  /\ (forall i o c, calculate_cost self i o model = Ok c -> (c =? 0)%float = true)
  /\ (forall request w w' r,
        generate_body self request w = (Ok (Some r), w')
        \/ generate self request w = (Ok (Some r), w') ->
        (LLMResponse.cost r =? 0)%float = true).
Proof.
  split; [apply gemini_zero_pair|].
  split; [intros i o; apply gemini_cost_zero_exact|].
  split; [intros i o c; apply gemini_cost_zero|].
  intros request w w' r [Hg|Hg].
  - exact (y_generate_body self request w (Some r) w' Hg).
  - exact (y_generate self request w (Some r) w' Hg).
Qed.

Lemma gemini_cost_is_zero_witness :
  get_cost_per_token gemini_defaults "gemini-2.5-pro" = {| input := 0; output := 0 |}
  /\ calculate_cost gemini_defaults 1000 500 "gemini-2.5-pro" = Ok 0%float
  /\ (LLMResponse.cost hello_response =? 0)%float = true.
Proof.
  destruct (gemini_cost_is_zero gemini_defaults "gemini-2.5-pro") as (Hp & Hc & _ & Hr).
  split; [exact Hp|]. split.
  - apply Hc; split; first [lia | reflexivity].
  - apply (Hr (request_of "hi") (always (Responded 200 "" (Some hello_body)))
              (after_one_call (Responded 200 "" (Some hello_body)))).
    right. vm_compute. reflexivity.
Defined.

End GeminiCost.

(** * Further properties *)

(** ** [exceptions.py]: the remaining constructors *)

(** [ContentFilterError.__init__(self, provider, reason=None, **kwargs)]. *)
Definition ContentFilterError_init (provider : string)
    (explicit : list (string * PyVal)) (star : kwargs) : Result LLMProviderError :=
  let* kw := pass_kw explicit star in
  let* _ := bound_by_position ["self"; "provider"] kw in
  let '(reason, rest) := take_kw "reason" VNone kw in
  let message :=
    "Content filtered by " ++ provider
    ++ (if truthy reason then ": " ++ py_str reason else "") in
  let* b := LLMProviderError_init message [("provider", VStr provider)] rest in
  Ok (ContentFilterError b reason).

(** [ContextLengthExceededError.__init__(self, provider, input_length,
    max_length, **kwargs)], the two lengths given by position. *)
Definition ContextLengthExceededError_init (provider : string)
    (input_length max_length : Z)
    (explicit : list (string * PyVal)) (star : kwargs) : Result LLMProviderError :=
  let* kw := pass_kw explicit star in
  let* _ := bound_by_position ["self"; "provider"; "input_length"; "max_length"] kw in
  let* b := LLMProviderError_init
              ("Context length " ++ str_of_Z input_length ++ " exceeds " ++ provider
               ++ " limit of " ++ str_of_Z max_length)
              [("provider", VStr provider)] kw in
  Ok (ContextLengthExceededError b input_length max_length).

(** [TimeoutError.__init__(self, provider, timeout, **kwargs)], the timeout
    given by position. *)
Definition TimeoutError_init (provider : string) (timeout : Z)
    (explicit : list (string * PyVal)) (star : kwargs) : Result LLMProviderError :=
  let* kw := pass_kw explicit star in
  let* _ := bound_by_position ["self"; "provider"; "timeout"] kw in
  let* b := LLMProviderError_init
              ("Request to " ++ provider ++ " timed out after " ++ str_of_Z timeout ++ "s")
              [("provider", VStr provider)] kw in
  Ok (TimeoutError b timeout).

(** ** Substrings *)
Section Substrings.

Lemma prefix_nil s : String.prefix "" s = true.
Proof. destruct s; reflexivity. Qed.

Lemma prefix_app n b : String.prefix n (n ++ b) = true.
Proof.
  induction n as [|c n IH]; simpl; [apply prefix_nil|].
  destruct (ascii_dec c c); [exact IH|contradiction].
Qed.

Lemma prefix_app_l n s t : String.prefix n s = true -> String.prefix n (s ++ t) = true.
Proof.
  revert s. induction n as [|c n IH]; intros s; [intros _; apply prefix_nil|].
  destruct s as [|d s]; simpl; [discriminate|].
  destruct (ascii_dec c d); [apply IH|discriminate].
Qed.

Lemma contains_unfold n hay :
  contains n hay =
  if String.prefix n hay then true
  else match hay with
       | EmptyString => false
       | String _ hay' => contains n hay'
       end.
Proof. destruct hay; reflexivity. Qed.

Lemma contains_app_r n a s : contains n s = true -> contains n (a ++ s) = true.
Proof.
  intros H. induction a as [|c a IH]; [exact H|].
  change (String c a ++ s) with (String c (a ++ s)). rewrite contains_unfold.
  destruct (String.prefix n (String c (a ++ s))); [reflexivity|exact IH].
Qed.

Lemma contains_app_l n s t : contains n s = true -> contains n (s ++ t) = true.
Proof.
  induction s as [|c s IH]; intros H.
  - rewrite contains_unfold in H. destruct n; [|simpl in H; discriminate].
    rewrite contains_unfold, prefix_nil. reflexivity.
  - rewrite contains_unfold in H. change (String c s ++ t) with (String c (s ++ t)).
    rewrite contains_unfold.
    destruct (String.prefix n (String c s)) eqn:E.
    + change (String c (s ++ t)) with (String c s ++ t).
      rewrite (prefix_app_l _ _ t E). reflexivity.
    + destruct (String.prefix n (String c (s ++ t))); [reflexivity|]. apply IH, H.
Qed.

Lemma contains_here n b : contains n (n ++ b) = true.
Proof. rewrite contains_unfold, prefix_app. reflexivity. Qed.

Lemma contains_mid a n b : contains n (a ++ n ++ b) = true.
Proof. apply contains_app_r, contains_here. Qed.

Lemma prefix_refl n : String.prefix n n = true.
Proof.
  induction n as [|c n IH]; simpl; [reflexivity|].
  destruct (ascii_dec c c); [exact IH|contradiction].
Qed.

Lemma contains_end a n : contains n (a ++ n) = true.
Proof. apply contains_app_r. rewrite contains_unfold, prefix_refl. reflexivity. Qed.

End Substrings.

(** ** Keywords through the constructors *)
Section Keywords.

(** The keywords of a call, merged: those behind [**] and those written. *)
Lemma pass_kw_Ok explicit star kw :
  pass_kw explicit star = Ok kw ->
  (forall k v, star !! k = Some v -> kw !! k = Some v)
  /\ (forall k v, In (k, v) explicit -> kw !! k = Some v)
  /\ (forall k v, kw !! k = Some v -> star !! k = Some v \/ In (k, v) explicit).
Proof.
  revert kw. induction explicit as [|[k0 v0] rest IH]; intros kw; simpl.
  - intros [= <-]. repeat split; auto. intros k v [].
  - destruct (pass_kw rest star) as [kw'|e] eqn:E; simpl; [|discriminate].
    destruct (kw' !! k0) eqn:E0; [discriminate|]. intros [= <-].
    destruct (IH kw' eq_refl) as (H1 & H2 & H3). repeat split; intros k v Hk.
    + destruct (decide (k0 = k)) as [<-|Hne].
      * rewrite (H1 _ _ Hk) in E0. discriminate.
      * rewrite lookup_insert_ne by done. apply H1, Hk.
    + destruct Hk as [[= <- <-]|Hk]; [apply lookup_insert_eq|].
      destruct (decide (k0 = k)) as [<-|Hne].
      * rewrite (H2 _ _ Hk) in E0. discriminate.
      * rewrite lookup_insert_ne by done. apply H2, Hk.
    + destruct (decide (k0 = k)) as [<-|Hne].
      * rewrite lookup_insert_eq in Hk. injection Hk as <-. right. left. reflexivity.
      * rewrite lookup_insert_ne in Hk by done.
        destruct (H3 _ _ Hk); [left|right; right]; assumption.
Qed.

Lemma pass_kw_disjoint explicit star kw :
  pass_kw explicit star = Ok kw -> forall k v, In (k, v) explicit -> star !! k = None.
Proof.
  revert kw. induction explicit as [|[k0 v0] rest IH]; intros kw; simpl; [intros _ k v []|].
  destruct (pass_kw rest star) as [kw'|e] eqn:E; simpl; [|discriminate].
  destruct (kw' !! k0) eqn:E0; [discriminate|]. intros _ k v [[= <- <-]|Hk].
  - destruct (star !! k0) as [x|] eqn:Es; [|reflexivity].
    destruct (pass_kw_Ok _ _ _ E) as (H1 & _). rewrite (H1 _ _ Es) in E0. discriminate.
  - apply (IH kw' eq_refl k v Hk).
Qed.

Lemma pass_kw_Raise explicit star e :
  pass_kw explicit star = Raise e -> exists msg, e = TypeError msg.
Proof.
  revert e. induction explicit as [|[k0 v0] rest IH]; intros e; simpl; [discriminate|].
  destruct (pass_kw rest star) as [kw'|e'] eqn:E; simpl.
  - destruct (kw' !! k0); [|discriminate]. intros [= <-]. eauto.
  - intros [= <-]. apply IH. reflexivity.
Qed.

(** Written keywords that differ from each other and from those behind
    [**] are accepted. *)
Lemma pass_kw_clear explicit star :
  NoDup (map fst explicit) ->
  (forall k, In k (map fst explicit) -> star !! k = None) ->
  exists kw, pass_kw explicit star = Ok kw.
Proof.
  induction explicit as [|[k0 v0] rest IH]; intros Hnd Hs; simpl; [eauto|].
  apply NoDup_cons in Hnd as [Hk0 Hnd].
  destruct IH as [kw' E]; [exact Hnd|intros k Hk; apply Hs; right; exact Hk|].
  rewrite E. simpl. destruct (kw' !! k0) as [v|] eqn:E0; [|eauto].
  exfalso. destruct (pass_kw_Ok _ _ _ E) as (_ & _ & H3).
  destruct (H3 _ _ E0) as [H|H].
  - rewrite (Hs k0) in H; [discriminate|left; reflexivity].
  - apply Hk0. apply list_elem_of_In. apply (in_map fst) in H. exact H.
Qed.

Lemma require_kw_Raise p kw e :
  require_kw p kw = Raise e -> exists msg, e = TypeError msg.
Proof. unfold require_kw. destruct (kw !! p); [discriminate|intros [= <-]; eauto]. Qed.

(** The base constructor called by a subclass: [provider=provider, **rest]. *)
Lemma base_init_Ok message provider rest b :
  LLMProviderError_init message [("provider", VStr provider)] rest = Ok b ->
  rest !! "provider" = None /\ rest !! "self" = None /\ rest !! "message" = None
  /\ b = {| Exceptions.message := message; Exceptions.provider := VStr provider;
            Exceptions.metadata := rest |}.
Proof.
  unfold LLMProviderError_init. simpl.
  destruct (rest !! "provider") eqn:Ep; simpl; [discriminate|].
  rewrite !lookup_insert_ne by done.
  destruct (rest !! "self") eqn:Es; simpl; [discriminate|].
  destruct (rest !! "message") eqn:Em; simpl; [discriminate|].
  rewrite lookup_insert_eq. simpl. rewrite delete_insert_eq, delete_id by exact Ep.
  intros [= <-]. repeat split.
Qed.

Lemma base_init_clear message provider rest :
  rest !! "provider" = None -> rest !! "self" = None -> rest !! "message" = None ->
  LLMProviderError_init message [("provider", VStr provider)] rest
  = Ok {| Exceptions.message := message; Exceptions.provider := VStr provider;
          Exceptions.metadata := rest |}.
Proof.
  intros Ep Es Em. unfold LLMProviderError_init. simpl. rewrite Ep. simpl.
  rewrite !lookup_insert_ne by done. rewrite Es, Em. simpl.
  rewrite lookup_insert_eq. simpl. rewrite delete_insert_eq, delete_id by exact Ep.
  reflexivity.
Qed.

Lemma base_init_Raise message explicit star e :
  LLMProviderError_init message explicit star = Raise e -> exists msg, e = TypeError msg.
Proof.
  unfold LLMProviderError_init.
  destruct (pass_kw explicit star) as [kw|e'] eqn:E; cbn [rbind].
  - destruct (bound_by_position_cases ["self"; "message"] kw) as [->|[msg ->]]; cbn [rbind].
    + destruct (take_kw _ _ _). discriminate.
    + intros [= <-]. eauto.
  - intros [= <-]. apply (pass_kw_Raise _ _ _ E).
Qed.

End Keywords.

(** ** What every constructed error carries *)
Section Constructors.

(** An error built for [provider] from the keywords [explicit] and [star],
    by a constructor whose own keyword parameters are [named]: it stores the
    provider, its message names the provider, and its metadata holds the
    keywords given, those of the constructor's own parameters left out. *)
Definition made_from (provider : string) (named : list string)
    (explicit : list (string * PyVal)) (star : kwargs) (e : LLMProviderError) : Prop :=
  Exceptions.provider (base_of e) = VStr provider
  /\ contains provider (Exceptions.message (base_of e)) = true
  /\ (forall k v,
        Exceptions.metadata (base_of e) !! k = Some v <->
        (star !! k = Some v \/ In (k, v) explicit) /\ ~ In k named)
  /\ (forall k, In k ["self"; "provider"; "message"] ->
        Exceptions.metadata (base_of e) !! k = None).

Lemma given_iff explicit star kw :
  pass_kw explicit star = Ok kw ->
  forall k v, kw !! k = Some v <-> (star !! k = Some v \/ In (k, v) explicit).
Proof.
  intros H k v. destruct (pass_kw_Ok _ _ _ H) as (H1 & H2 & H3).
  split; [apply H3|]. intros [Hk|Hk]; [apply H1|apply H2]; exact Hk.
Qed.

Lemma made_of_base provider named explicit star kw rest message b e :
  pass_kw explicit star = Ok kw ->
  LLMProviderError_init message [("provider", VStr provider)] rest = Ok b ->
  contains provider message = true ->
  (forall k v, rest !! k = Some v <-> kw !! k = Some v /\ ~ In k named) ->
  base_of e = b ->
  made_from provider named explicit star e.
Proof.
  intros Hkw Hb Hc Hrest He.
  apply base_init_Ok in Hb as (Hp & Hs & Hm & ->).
  unfold made_from. rewrite He. simpl.
  split; [reflexivity|]. split; [exact Hc|]. split.
  - intros k v. rewrite Hrest, (given_iff _ _ _ Hkw). tauto.
  - intros k [<-|[<-|[<-|[]]]]; assumption.
Qed.

Lemma same_keywords (kw : kwargs) k v :
  kw !! k = Some v <-> kw !! k = Some v /\ ~ In k [].
Proof. simpl. tauto. Qed.

Ltac open_init H :=
  repeat match type of H with
         | rbind ?r _ = Ok _ =>
             let E := fresh "E" in
             destruct r eqn:E; cbn [rbind] in H; [|discriminate H]
         | (let '(_, _) := ?p in _) = Ok _ =>
             let E := fresh "E" in
             destruct p eqn:E
         end.

Lemma QuotaExceededError_made provider explicit star e :
  QuotaExceededError_init provider explicit star = Ok e ->
  made_from provider [] explicit star e.
Proof.
  unfold QuotaExceededError_init. intros H. open_init H.
  injection H as <-.
  eapply made_of_base;
    [eassumption|eassumption|apply contains_mid|apply same_keywords|reflexivity].
Qed.

Lemma AuthenticationError_made provider explicit star e :
  AuthenticationError_init provider explicit star = Ok e ->
  made_from provider [] explicit star e.
Proof.
  unfold AuthenticationError_init. intros H. open_init H.
  injection H as <-.
  eapply made_of_base;
    [eassumption|eassumption|apply contains_mid|apply same_keywords|reflexivity].
Qed.

Lemma ProviderUnavailableError_made provider explicit star e :
  ProviderUnavailableError_init provider explicit star = Ok e ->
  made_from provider [] explicit star e.
Proof.
  unfold ProviderUnavailableError_init. intros H. open_init H.
  injection H as <-.
  eapply made_of_base;
    [eassumption|eassumption|apply contains_mid|apply same_keywords|reflexivity].
Qed.

Lemma ContextLengthExceededError_made provider i m explicit star e :
  ContextLengthExceededError_init provider i m explicit star = Ok e ->
  made_from provider [] explicit star e.
Proof.
  unfold ContextLengthExceededError_init. intros H. open_init H.
  injection H as <-.
  eapply made_of_base;
    [eassumption|eassumption| |apply same_keywords|reflexivity].
  do 3 apply contains_app_r. apply contains_here.
Qed.

Lemma TimeoutError_made provider t explicit star e :
  TimeoutError_init provider t explicit star = Ok e ->
  made_from provider [] explicit star e.
Proof.
  unfold TimeoutError_init. intros H. open_init H.
  injection H as <-.
  eapply made_of_base;
    [eassumption|eassumption|apply contains_mid|apply same_keywords|reflexivity].
Qed.

Lemma delete_one (kw : kwargs) p k v :
  delete p kw !! k = Some v <-> kw !! k = Some v /\ ~ In k [p].
Proof. rewrite lookup_delete_Some. simpl. intuition congruence. Qed.

Lemma delete_two (kw : kwargs) p q k v :
  delete q (delete p kw) !! k = Some v <-> kw !! k = Some v /\ ~ In k [p; q].
Proof. rewrite !lookup_delete_Some. simpl. intuition congruence. Qed.

Lemma RateLimitError_made provider explicit star e :
  RateLimitError_init provider explicit star = Ok e ->
  made_from provider ["retry_after"] explicit star e.
Proof.
  unfold RateLimitError_init, take_kw. intros H. open_init H.
  injection H as <-.
  eapply made_of_base;
    [eassumption|eassumption|apply contains_mid|apply delete_one|reflexivity].
Qed.

Lemma ContentFilterError_made provider explicit star e :
  ContentFilterError_init provider explicit star = Ok e ->
  made_from provider ["reason"] explicit star e.
Proof.
  unfold ContentFilterError_init, take_kw. intros H. open_init H.
  injection H as <-.
  eapply made_of_base;
    [eassumption|eassumption|apply contains_mid|apply delete_one|reflexivity].
Qed.

Lemma InvalidRequestError_made provider explicit star e :
  InvalidRequestError_init provider explicit star = Ok e ->
  made_from provider ["parameter"; "reason"] explicit star e.
Proof.
  unfold InvalidRequestError_init, require_kw. intros H.
  destruct (pass_kw explicit star) as [kw|] eqn:Ekw; cbn [rbind] in H; [|discriminate].
  destruct (bound_by_position _ kw) as [[]|] eqn:Eb; cbn [rbind] in H; [|discriminate].
  destruct (kw !! "parameter") as [parameter|]; cbn [rbind] in H; [|discriminate].
  destruct (delete "parameter" kw !! "reason") as [reason|]; cbn [rbind] in H; [|discriminate].
  open_init H.
  injection H as <-.
  eapply made_of_base; [eassumption|eassumption| |apply delete_two|reflexivity].
  do 3 apply contains_app_r. apply contains_here.
Qed.

Lemma ModelNotFoundError_made provider explicit star e :
  ModelNotFoundError_init provider explicit star = Ok e ->
  made_from provider ["model"; "available_models"] explicit star e.
Proof.
  unfold ModelNotFoundError_init, require_kw, take_kw. intros H.
  destruct (pass_kw explicit star) as [kw|] eqn:Ekw; cbn [rbind] in H; [|discriminate].
  destruct (bound_by_position _ kw) as [[]|] eqn:Eb; cbn [rbind] in H; [|discriminate].
  destruct (kw !! "model") as [model|]; cbn [rbind] in H; [|discriminate].
  match type of H with
  | rbind ?r _ = Ok _ =>
      assert (Hm : forall m, r = Ok m -> contains provider m = true)
  end.
  { intros m. destruct (truthy _).
    - destruct (join_first5 _); cbn [rbind]; [|discriminate].
      intros [= <-]. apply contains_app_l. do 2 apply contains_app_r.
      apply contains_end.
    - intros [= <-]. do 2 apply contains_app_r. apply contains_end. }
  open_init H.
  injection H as <-.
  eapply made_of_base;
    [eassumption|eassumption|apply Hm; reflexivity|apply delete_two|reflexivity].
Qed.

End Constructors.

(** The keyword parameters a class's constructor takes for itself. *)
Definition own_keywords (e : LLMProviderError) : list string :=
  match e with
  | RateLimitError _ _ => ["retry_after"]
  | ModelNotFoundError _ _ _ => ["model"; "available_models"]
  | ContentFilterError _ _ => ["reason"]
  | InvalidRequestError _ _ _ => ["parameter"; "reason"]
  | _ => []
  end.

Ltac head_of H :=
  repeat match type of H with
         | rbind ?r _ = Ok _ =>
             destruct r; cbn [rbind] in H; [|discriminate H]
         | (let '(_, _) := ?p in _) = Ok _ => destruct p
         end;
  injection H as <-.

(** X1: whichever subclass of [LLMProviderError] is constructed, with whatever
    keywords, an instance that is built stores the provider it was given,
    names it in its message, and keeps in [metadata] exactly the keywords of
    the call that are not parameters of its constructor; [self], [provider]
    and [message] are never among them. *)
Theorem subclass_constructors_keep_provider_and_keywords
    provider explicit star e i m t :
  RateLimitError_init provider explicit star = Ok e
  \/ QuotaExceededError_init provider explicit star = Ok e
  \/ ModelNotFoundError_init provider explicit star = Ok e
  \/ AuthenticationError_init provider explicit star = Ok e
  \/ ProviderUnavailableError_init provider explicit star = Ok e
  \/ ContentFilterError_init provider explicit star = Ok e
  \/ ContextLengthExceededError_init provider i m explicit star = Ok e
  \/ InvalidRequestError_init provider explicit star = Ok e
  \/ TimeoutError_init provider t explicit star = Ok e ->
  made_from provider (own_keywords e) explicit star e.
Proof.
  intros [H|[H|[H|[H|[H|[H|[H|[H|H]]]]]]]].
  - pose proof (RateLimitError_made _ _ _ _ H) as Hm.
    unfold RateLimitError_init in H. head_of H. exact Hm.
  - pose proof (QuotaExceededError_made _ _ _ _ H) as Hm.
    unfold QuotaExceededError_init in H. head_of H. exact Hm.
  - pose proof (ModelNotFoundError_made _ _ _ _ H) as Hm.
    unfold ModelNotFoundError_init in H. head_of H. exact Hm.
  - pose proof (AuthenticationError_made _ _ _ _ H) as Hm.
    unfold AuthenticationError_init in H. head_of H. exact Hm.
  - pose proof (ProviderUnavailableError_made _ _ _ _ H) as Hm.
    unfold ProviderUnavailableError_init in H. head_of H. exact Hm.
  - pose proof (ContentFilterError_made _ _ _ _ H) as Hm.
    unfold ContentFilterError_init in H. head_of H. exact Hm.
  - pose proof (ContextLengthExceededError_made _ _ _ _ _ _ H) as Hm.
    unfold ContextLengthExceededError_init in H. head_of H. exact Hm.
  - pose proof (InvalidRequestError_made _ _ _ _ H) as Hm.
    unfold InvalidRequestError_init in H. head_of H. exact Hm.
  - pose proof (TimeoutError_made _ _ _ _ _ H) as Hm.
    unfold TimeoutError_init in H. head_of H. exact Hm.
Qed.

(** [RateLimitError("openai", retry_after=5, request_id="r1")]. *)
Definition rate_limited_r1 : LLMProviderError :=
  RateLimitError
    {| Exceptions.message := "Rate limit exceeded for openai, retry after 5s";
       Exceptions.provider := VStr "openai";
       Exceptions.metadata := {[ "request_id" := VStr "r1" ]} |}
    (VInt 5).

Lemma subclass_constructors_keep_provider_and_keywords_witness :
  made_from "openai" ["retry_after"]
    [("retry_after", VInt 5); ("request_id", VStr "r1")] ∅ rate_limited_r1.
Proof.
  apply (subclass_constructors_keep_provider_and_keywords "openai"
           [("retry_after", VInt 5); ("request_id", VStr "r1")] ∅ rate_limited_r1 0 0 0).
  left. vm_compute. reflexivity.
Defined.

(** ** [from_http_status] and the caller's keywords *)
Section ClassifierKeywords.

(** The names [from_http_status] and the constructors use themselves: the
    function's own parameters, and the parameters and written keywords of
    the constructors it calls. *)
Definition reserved_keywords : list string :=
  ["status_code"; "provider"; "response_text"; "self"; "message"; "response";
   "retry_after"; "model"; "available_models"; "parameter"; "reason"].

Lemma kind_of_init provider explicit star e :
  (AuthenticationError_init provider explicit star = Ok e -> kind_of e = AuthenticationFailed)
  /\ (RateLimitError_init provider explicit star = Ok e -> kind_of e = RateLimited)
  /\ (QuotaExceededError_init provider explicit star = Ok e -> kind_of e = QuotaExceeded)
  /\ (ModelNotFoundError_init provider explicit star = Ok e -> kind_of e = ModelNotFound)
  /\ (InvalidRequestError_init provider explicit star = Ok e -> kind_of e = InvalidRequest)
  /\ (ProviderUnavailableError_init provider explicit star = Ok e ->
      kind_of e = ProviderUnavailable).
Proof.
  repeat split; intros H.
  - unfold AuthenticationError_init in H. head_of H. reflexivity.
  - unfold RateLimitError_init in H. head_of H. reflexivity.
  - unfold QuotaExceededError_init in H. head_of H. reflexivity.
  - unfold ModelNotFoundError_init in H. head_of H. reflexivity.
  - unfold InvalidRequestError_init in H. head_of H. reflexivity.
  - unfold ProviderUnavailableError_init in H. head_of H. reflexivity.
Qed.

(** The kind of whatever the classifier returns is the kind of the table,
    whatever keywords came with the call. *)
Lemma from_http_status_kind status provider body kw e :
  from_http_status status provider body kw = Ok e ->
  classify status provider body = Ok (kind_of e).
Proof.
  rewrite classify_cases. unfold from_http_status, has_quota_marker.
  destruct (bound_by_position _ kw) as [[]|]; cbn [rbind]; [|discriminate].
  repeat match goal with
         | |- context [if ?c then _ else _] => destruct c
         end; intros H; f_equal; symmetry;
    first [ eapply (fun x s => proj1 (kind_of_init provider x s e)); exact H
          | eapply (fun x s => proj1 (proj2 (kind_of_init provider x s e))); exact H
          | eapply (fun x s => proj1 (proj2 (proj2 (kind_of_init provider x s e)))); exact H
          | eapply (fun x s => proj1 (proj2 (proj2 (proj2 (kind_of_init provider x s e)))));
            exact H
          | eapply (fun x s =>
                      proj1 (proj2 (proj2 (proj2 (proj2 (kind_of_init provider x s e))))));
            exact H
          | eapply (fun x s =>
                      proj2 (proj2 (proj2 (proj2 (proj2 (kind_of_init provider x s e))))));
            exact H
          | unfold rmap in H; head_of H; reflexivity ].
Qed.

Lemma join_first5_Raise v e : join_first5 v = Raise e -> exists msg, e = TypeError msg.
Proof. destruct v; simpl; [| | |discriminate]; intros [= <-]; eauto. Qed.

Ltac raise_of H :=
  repeat match type of H with
         | rbind ?r _ = Raise _ =>
             let E := fresh "E" in
             destruct r eqn:E; cbn [rbind] in H;
             [|injection H as <-;
               first [ exact (pass_kw_Raise _ _ _ E)
                     | exact (bound_by_position_Raise _ _ _ E)
                     | exact (require_kw_Raise _ _ _ E)
                     | exact (base_init_Raise _ _ _ _ E)
                     | exact (join_first5_Raise _ _ E)
                     | idtac ]]
         | (let '(_, _) := ?p in _) = Raise _ => destruct p
         | Ok _ = Raise _ => discriminate H
         end.

(** A constructor that refuses its arguments raises [TypeError]. *)
Lemma init_raises provider explicit star e :
  AuthenticationError_init provider explicit star = Raise e
  \/ RateLimitError_init provider explicit star = Raise e
  \/ QuotaExceededError_init provider explicit star = Raise e
  \/ ModelNotFoundError_init provider explicit star = Raise e
  \/ InvalidRequestError_init provider explicit star = Raise e
  \/ ProviderUnavailableError_init provider explicit star = Raise e ->
  exists msg, e = TypeError msg.
Proof.
  intros [H|[H|[H|[H|[H|H]]]]].
  - unfold AuthenticationError_init in H. raise_of H.
  - unfold RateLimitError_init in H. raise_of H.
  - unfold QuotaExceededError_init in H. raise_of H.
  - unfold ModelNotFoundError_init in H. raise_of H.
    destruct (truthy _); [|discriminate E2]. raise_of E2.
  - unfold InvalidRequestError_init in H. raise_of H.
  - unfold ProviderUnavailableError_init in H. raise_of H.
Qed.

(** The only exception [from_http_status] raises is [TypeError]. *)
Lemma from_http_status_Raise status provider body kw e :
  from_http_status status provider body kw = Raise e -> exists msg, e = TypeError msg.
Proof.
  unfold from_http_status.
  destruct (bound_by_position_cases ["status_code"; "provider"; "response_text"] kw)
    as [->|[msg ->]]; cbn [rbind]; [|intros [= <-]; eauto].
  repeat match goal with
         | |- context [if ?c then _ else _] => destruct c
         end; intros H;
    first [ eapply init_raises; left; exact H
          | eapply init_raises; right; left; exact H
          | eapply init_raises; right; right; left; exact H
          | eapply init_raises; right; right; right; left; exact H
          | eapply init_raises; right; right; right; right; left; exact H
          | eapply init_raises; right; right; right; right; right; exact H
          | unfold rmap in H; raise_of H ].
Qed.

Ltac crunch Hc :=
  repeat first
    [ progress cbn [rbind pass_kw bound_by_position take_kw require_kw default
                    truthy fst snd]
    | rewrite lookup_insert_eq
    | rewrite lookup_insert_ne by done
    | rewrite lookup_delete_ne by done
    | rewrite (Hc "self") by (simpl; tauto)
    | rewrite (Hc "provider") by (simpl; tauto)
    | rewrite (Hc "message") by (simpl; tauto)
    | rewrite (Hc "response") by (simpl; tauto)
    | rewrite (Hc "retry_after") by (simpl; tauto)
    | rewrite (Hc "model") by (simpl; tauto)
    | rewrite (Hc "available_models") by (simpl; tauto)
    | rewrite (Hc "parameter") by (simpl; tauto)
    | rewrite (Hc "reason") by (simpl; tauto)
    | rewrite (Hc "status_code") by (simpl; tauto) ].

Ltac kept Hc Hk :=
  cbn [base_of Exceptions.metadata Exceptions.provider];
  repeat first
    [ rewrite lookup_delete_ne by (intros <-; rewrite Hc in Hk by (simpl; tauto);
                                   discriminate Hk)
    | rewrite lookup_insert_ne by (intros <-; rewrite Hc in Hk by (simpl; tauto);
                                   discriminate Hk) ];
  exact Hk.

Lemma from_http_status_clear status provider body kw :
  (forall k, In k reserved_keywords -> kw !! k = None) ->
  exists e,
    from_http_status status provider body kw = Ok e
    /\ Exceptions.provider (base_of e) = VStr provider
    /\ (forall k v, kw !! k = Some v -> Exceptions.metadata (base_of e) !! k = Some v).
Proof.
  intros Hc. unfold from_http_status.
  assert (Hb : bound_by_position ["status_code"; "provider"; "response_text"] kw = Ok tt).
  { apply bound_by_position_Ok. intros p Hp. apply Hc. simpl in *. tauto. }
  rewrite Hb. cbn [rbind].
  repeat match goal with
         | |- context [if ?c then _ else _] => destruct c
         end.
  - unfold AuthenticationError_init, LLMProviderError_init. crunch Hc.
    eexists. split; [reflexivity|]. split; [reflexivity|]. intros k v Hk. kept Hc Hk.
  - unfold RateLimitError_init, LLMProviderError_init. crunch Hc.
    eexists. split; [reflexivity|]. split; [reflexivity|]. intros k v Hk. kept Hc Hk.
  - unfold QuotaExceededError_init, LLMProviderError_init. crunch Hc.
    eexists. split; [reflexivity|]. split; [reflexivity|]. intros k v Hk. kept Hc Hk.
  - unfold ModelNotFoundError_init, LLMProviderError_init, require_kw, take_kw. crunch Hc.
    eexists. split; [reflexivity|]. split; [reflexivity|]. intros k v Hk. kept Hc Hk.
  - unfold InvalidRequestError_init, LLMProviderError_init, require_kw, take_kw. crunch Hc.
    eexists. split; [reflexivity|]. split; [reflexivity|]. intros k v Hk. kept Hc Hk.
  - unfold ProviderUnavailableError_init, LLMProviderError_init. crunch Hc.
    eexists. split; [reflexivity|]. split; [reflexivity|]. intros k v Hk. kept Hc Hk.
  - unfold rmap, LLMProviderError_init. crunch Hc.
    eexists. split; [reflexivity|]. split; [reflexivity|]. intros k v Hk. kept Hc Hk.
Qed.

(** A call the classifier completes had none of [self], [provider] and
    [message] among its keywords. *)
Lemma from_http_status_Ok_reserved status provider body kw e k :
  from_http_status status provider body kw = Ok e ->
  In k ["self"; "provider"; "message"] -> kw !! k = None.
Proof.
  intros H Hk.
  assert (Hmade : (exists named explicit,
                      made_from provider named explicit kw e /\ ~ In k named)
                  \/ exists message explicit b,
                       LLMProviderError_init message explicit kw = Ok b
                       /\ In ("provider", VStr provider) explicit).
  { revert H. unfold from_http_status.
    destruct (bound_by_position _ kw) as [[]|]; cbn [rbind]; [|discriminate].
    repeat match goal with
           | |- context [if ?c then _ else _] => destruct c
           end; intros H.
    - left. eexists _, _. split; [apply (AuthenticationError_made _ _ _ _ H)|].
      simpl. tauto.
    - left. eexists _, _. split; [apply (RateLimitError_made _ _ _ _ H)|].
      simpl. destruct Hk as [<-|[<-|[<-|[]]]]; intuition discriminate.
    - left. eexists _, _. split; [apply (QuotaExceededError_made _ _ _ _ H)|].
      simpl. tauto.
    - left. eexists _, _. split; [apply (ModelNotFoundError_made _ _ _ _ H)|].
      simpl. destruct Hk as [<-|[<-|[<-|[]]]]; intuition discriminate.
    - left. eexists _, _. split; [apply (InvalidRequestError_made _ _ _ _ H)|].
      simpl. destruct Hk as [<-|[<-|[<-|[]]]]; intuition discriminate.
    - left. eexists _, _. split; [apply (ProviderUnavailableError_made _ _ _ _ H)|].
      simpl. tauto.
    - right. unfold rmap in H.
      destruct (LLMProviderError_init _ _ kw) as [b|] eqn:E; [|discriminate].
      eexists _, _, b. split; [exact E|]. left. reflexivity. }
  destruct (kw !! k) as [v|] eqn:Ekw; [exfalso|reflexivity].
  destruct Hmade as [(named & explicit & (_ & _ & Hmeta & Hres) & Hn)
                    |(message & explicit & b & Hb & Hin)].
  - specialize (Hres k Hk).
    rewrite (proj2 (Hmeta k v)) in Hres by (split; [left; exact Ekw|exact Hn]).
    discriminate.
  - unfold LLMProviderError_init in Hb.
    destruct (pass_kw explicit kw) as [kw'|] eqn:Ep; cbn [rbind] in Hb; [|discriminate].
    destruct (bound_by_position _ kw') as [[]|] eqn:Eb; cbn [rbind] in Hb; [|discriminate].
    destruct (pass_kw_Ok _ _ _ Ep) as (H1 & _).
    destruct Hk as [<-|[<-|[<-|[]]]].
    + pose proof (proj1 (bound_by_position_Ok _ _) Eb "self" ltac:(simpl; tauto)) as Hs.
      rewrite (H1 _ _ Ekw) in Hs. discriminate.
    + rewrite (pass_kw_disjoint _ _ _ Ep _ _ Hin) in Ekw. discriminate.
    + pose proof (proj1 (bound_by_position_Ok _ _) Eb "message" ltac:(simpl; tauto)) as Hm.
      rewrite (H1 _ _ Ekw) in Hm. discriminate.
Qed.

End ClassifierKeywords.

(** X2: with keywords that avoid the names the classifier and the constructors
    use themselves (the function's own parameters [status_code], [provider]
    and [response_text] among them), [from_http_status] returns an error at
    every status: of the kind of the table, for the provider given, and with
    every keyword of the caller in its [metadata]. *)
Theorem from_http_status_keeps_keywords status provider body kw :
  (forall k, In k reserved_keywords -> kw !! k = None) ->
  exists e,
    from_http_status status provider body kw = Ok e
    /\ classify status provider body = Ok (kind_of e)
    /\ Exceptions.provider (base_of e) = VStr provider
    /\ (forall k v, kw !! k = Some v -> Exceptions.metadata (base_of e) !! k = Some v).
Proof.
  intros Hc. destruct (from_http_status_clear status provider body kw Hc) as (e & He & Hp & Hm).
  exists e. split; [exact He|]. split; [exact (from_http_status_kind _ _ _ _ _ He)|].
  split; assumption.
Qed.

Lemma from_http_status_keeps_keywords_witness :
  exists e,
    from_http_status 503 "gemini" "overloaded" {[ "request_id" := VStr "r1" ]} = Ok e
    /\ kind_of e = ProviderUnavailable
    /\ Exceptions.metadata (base_of e) !! "request_id" = Some (VStr "r1").
Proof.
  destruct (from_http_status_keeps_keywords 503 "gemini" "overloaded"
              {[ "request_id" := VStr "r1" ]}) as (e & He & Hk & _ & Hm).
  - intros k Hk. vm_compute in Hk.
    repeat (destruct Hk as [<-|Hk]; [reflexivity|]). destruct Hk.
  - exists e. split; [exact He|]. split; [|apply Hm; reflexivity].
    vm_compute in Hk. injection Hk as Hk'. exact (eq_sym Hk').
Defined.

(** X3: a keyword named [self] or [message] is refused at every status: the
    call raises [TypeError] and no error object is built. *)
Theorem from_http_status_refuses_reserved status provider body kw :
  is_Some (kw !! "self") \/ is_Some (kw !! "message") ->
  exists msg, from_http_status status provider body kw = Raise (TypeError msg).
Proof.
  intros Hk. destruct (from_http_status status provider body kw) as [e|x] eqn:E.
  - exfalso.
    destruct Hk as [[v Hv]|[v Hv]];
      rewrite (from_http_status_Ok_reserved _ _ _ _ _ _ E) in Hv by (simpl; tauto);
      discriminate.
  - destruct (from_http_status_Raise _ _ _ _ _ E) as [msg ->]. eauto.
Qed.

Lemma from_http_status_refuses_reserved_witness :
  exists msg,
    from_http_status 500 "openai" "oops" {[ "message" := VStr "upstream failed" ]}
    = Raise (TypeError msg).
Proof.
  apply (from_http_status_refuses_reserved 500 "openai" "oops"
           {[ "message" := VStr "upstream failed" ]}).
  right. exists (VStr "upstream failed"). reflexivity.
Defined.

Lemma from_http_status_provider status provider body kw e :
  from_http_status status provider body kw = Ok e ->
  Exceptions.provider (base_of e) = VStr provider.
Proof.
  unfold from_http_status.
  destruct (bound_by_position _ kw) as [[]|]; cbn [rbind]; [|discriminate].
  repeat match goal with
         | |- context [if ?c then _ else _] => destruct c
         end; intros H.
  - apply (AuthenticationError_made _ _ _ _ H).
  - apply (RateLimitError_made _ _ _ _ H).
  - apply (QuotaExceededError_made _ _ _ _ H).
  - apply (ModelNotFoundError_made _ _ _ _ H).
  - apply (InvalidRequestError_made _ _ _ _ H).
  - apply (ProviderUnavailableError_made _ _ _ _ H).
  - unfold rmap, LLMProviderError_init, take_kw in H.
    destruct (pass_kw _ kw) as [kw'|] eqn:Ep; cbn [rbind] in H; [|discriminate].
    destruct (bound_by_position _ kw'); cbn [rbind] in H; [|discriminate].
    injection H as <-. cbn [base_of Exceptions.provider].
    destruct (pass_kw_Ok _ _ _ Ep) as (_ & H2 & _).
    rewrite (H2 "provider" (VStr provider)) by (left; reflexivity). reflexivity.
Qed.

(** X4: whatever keywords come with the call, [from_http_status] has two
    outcomes only: it returns an error of the kind the table gives the
    status and the body, for the provider given; or it raises [TypeError]
    (its keywords collide with an argument of a constructor). *)
Theorem from_http_status_outcomes status provider body kw :
  (exists e,
     from_http_status status provider body kw = Ok e
     /\ classify status provider body = Ok (kind_of e)
     /\ Exceptions.provider (base_of e) = VStr provider)
  \/ (exists msg, from_http_status status provider body kw = Raise (TypeError msg)).
Proof.
  destruct (from_http_status status provider body kw) as [e|x] eqn:E.
  - left. exists e. split; [reflexivity|].
    split; [exact (from_http_status_kind _ _ _ _ _ E)
           |exact (from_http_status_provider _ _ _ _ _ E)].
  - right. destruct (from_http_status_Raise _ _ _ _ _ E) as [msg ->]. eauto.
Qed.

(** X5: the model name a caller passes never reaches a [ModelNotFoundError]:
    [model=kwargs.get('model', 'unknown')] is written beside [**kwargs], so a
    call that names the model is refused, and the error the classifier
    returns always says ['unknown']. *)
Theorem from_http_status_model_unknown status provider body kw b model available :
  from_http_status status provider body kw = Ok (ModelNotFoundError b model available) ->
  model = VStr "unknown" /\ kw !! "model" = None.
Proof.
  unfold from_http_status.
  destruct (bound_by_position _ kw) as [[]|]; cbn [rbind]; [|discriminate].
  repeat match goal with
         | |- context [if ?c then _ else _] => destruct c
         end; intros H.
  - apply (proj1 (kind_of_init _ _ _ _)) in H. discriminate H.
  - apply (proj1 (proj2 (kind_of_init _ _ _ _))) in H. discriminate H.
  - apply (proj1 (proj2 (proj2 (kind_of_init _ _ _ _)))) in H. discriminate H.
  - unfold ModelNotFoundError_init, require_kw, take_kw in H. cbn [pass_kw rbind] in H.
    destruct (kw !! "model") eqn:Em; cbn [rbind default] in H; [discriminate H|].
    destruct (bound_by_position _ _); cbn [rbind] in H; [|discriminate H].
    rewrite lookup_insert_eq in H. cbn [rbind] in H.
    repeat match type of H with
           | rbind ?r _ = Ok _ => destruct r; cbn [rbind] in H; [|discriminate H]
           end.
    injection H as _ Hm _. split; [exact (eq_sym Hm)|reflexivity].
  - apply (proj1 (proj2 (proj2 (proj2 (proj2 (kind_of_init _ _ _ _)))))) in H.
    discriminate H.
  - apply (proj2 (proj2 (proj2 (proj2 (proj2 (kind_of_init _ _ _ _)))))) in H.
    discriminate H.
  - unfold rmap in H.
    destruct (LLMProviderError_init _ _ _); cbn [rbind] in H; discriminate H.
Qed.

Lemma from_http_status_model_unknown_witness :
  from_http_status 404 "openai" "no such model" {[ "request_id" := VStr "r1" ]}
  = Ok (ModelNotFoundError
          {| Exceptions.message := "Model 'unknown' not found on openai";
             Exceptions.provider := VStr "openai";
             Exceptions.metadata := {[ "request_id" := VStr "r1" ]} |}
          (VStr "unknown") VNone)
  /\ ({[ "request_id" := VStr "r1" ]} : kwargs) !! "model" = None.
Proof.
  assert (H : from_http_status 404 "openai" "no such model" {[ "request_id" := VStr "r1" ]}
              = Ok (ModelNotFoundError
                      {| Exceptions.message := "Model 'unknown' not found on openai";
                         Exceptions.provider := VStr "openai";
                         Exceptions.metadata := {[ "request_id" := VStr "r1" ]} |}
                      (VStr "unknown") VNone))
    by (vm_compute; reflexivity).
  split; [exact H|].
  exact (proj2 (from_http_status_model_unknown _ _ _ _ _ _ _ H)).
Defined.

(** ** The quota marker *)
Section QuotaMarker.

Lemma lower_app a b : lower (a ++ b) = lower a ++ lower b.
Proof.
  induction a as [|c a IH]; [reflexivity|].
  change (String c a ++ b) with (String c (a ++ b)). simpl. rewrite IH. reflexivity.
Qed.

Lemma has_quota_marker_anywhere pre q post :
  lower q = "quota" -> has_quota_marker (pre ++ q ++ post) = true.
Proof.
  intros Hq. unfold has_quota_marker. rewrite !lower_app, Hq. apply contains_mid.
Qed.

End QuotaMarker.

(** X6: the word "quota", in any mix of upper and lower case and anywhere in
    the response body, makes every status but 401, 403 and 429 a
    QuotaExceeded error: it overrides 404, 400, 502 and 503. *)
Theorem quota_marker_overrides_status status provider pre q post :
  lower q = "quota" -> status <> 401 -> status <> 403 -> status <> 429 ->
  classify status provider (pre ++ q ++ post) = Ok QuotaExceeded.
Proof.
  intros Hq H1 H3 H9. rewrite classify_cases, (has_quota_marker_anywhere _ _ _ Hq).
  destruct (Z.eqb_spec status 401); [contradiction|].
  destruct (Z.eqb_spec status 403); [contradiction|].
  destruct (Z.eqb_spec status 429); [contradiction|].
  rewrite orb_true_r. reflexivity.
Qed.

Lemma quota_marker_overrides_status_witness :
  classify 404 "gemini" ("Model not found. " ++ "Quota" ++ " project: 12") = Ok QuotaExceeded.
Proof.
  apply (quota_marker_overrides_status 404 "gemini" "Model not found. " "Quota"
           " project: 12"); [reflexivity|lia|lia|lia].
Defined.

(** ** Which requests pass validation *)
Section Accepted.

Lemma SFcompare_refl x : x <> S754_nan -> SFcompare x x = Some Eq.
Proof.
  destruct x as [s|s| |s m e]; simpl; intros H; try reflexivity; try contradiction.
  - destruct s; reflexivity.
  - rewrite Z.compare_refl.
    change (Pos.compare_cont Eq m m) with (m ?= m)%positive.
    rewrite Pos.compare_refl. destruct s; reflexivity.
Qed.

Lemma is_nan_spec x : PrimFloat.is_nan x = true <-> Prim2SF x = S754_nan.
Proof.
  unfold PrimFloat.is_nan. rewrite FloatAxioms.eqb_spec. unfold SFeqb.
  destruct (Prim2SF x) as [s|s| |s m e] eqn:E.
  - simpl. split; discriminate.
  - destruct s; simpl; split; discriminate.
  - simpl. split; reflexivity.
  - rewrite SFcompare_refl by discriminate. simpl. split; discriminate.
Qed.

Lemma SFcompare_None x y : SFcompare x y = None <-> x = S754_nan \/ y = S754_nan.
Proof.
  destruct x as [sx|sx| |sx mx ex], y as [sy|sy| |sy my ey]; simpl;
    split; try discriminate; try tauto;
    try (intros [H|H]; discriminate H).
Qed.

(** [x < y] is false exactly when [y <= x] or one of the two is a NaN. *)
Lemma ltb_false_iff (x y : float) :
  (x <? y)%float = false <->
  (y <=? x)%float = true \/ PrimFloat.is_nan x = true \/ PrimFloat.is_nan y = true.
Proof.
  rewrite ltb_spec, leb_spec, !is_nan_spec. unfold SFltb, SFleb.
  destruct (SFcompare (Prim2SF x) (Prim2SF y)) as [c|] eqn:E.
  - rewrite (FloatFacts.SFcompare_antisym _ _ _ E).
    assert (Hn : ~ (Prim2SF x = S754_nan \/ Prim2SF y = S754_nan)).
    { intros H. apply SFcompare_None in H. congruence. }
    destruct c; simpl; split; try discriminate; try tauto; intros [H|H];
      try discriminate; tauto.
  - apply SFcompare_None in E as E'.
    assert (SFcompare (Prim2SF y) (Prim2SF x) = None) as -> by (apply SFcompare_None; tauto).
    split; [tauto|reflexivity].
Qed.

End Accepted.

(** X7: [validate_request] accepts exactly the requests with a non-empty prompt,
    at least one output token, and a temperature that is in [0, 2] or is a
    NaN (neither comparison of the check holds for a NaN); every other
    request is refused with a [ValueError]. *)
Theorem validate_request_accepts r :
  (validate_request r = Ok true <->
   LLMRequest.prompt r <> ""
   /\ (PrimFloat.is_nan (LLMRequest.temperature r) = true
       \/ ((0 <=? LLMRequest.temperature r)%float = true
           /\ (LLMRequest.temperature r <=? 2)%float = true))
   /\ 1 <= LLMRequest.max_tokens r)
  /\ (validate_request r = Ok true
      \/ exists msg, validate_request r = Raise (ValueError msg)).
Proof.
  assert (Hnan2 : PrimFloat.is_nan 2 = false) by reflexivity.
  assert (Hnan0 : PrimFloat.is_nan 0 = false) by reflexivity.
  unfold validate_request.
  destruct (String.eqb_spec (LLMRequest.prompt r) "") as [Hp|Hp].
  { split; [|right; eauto]. split; [discriminate|]. intros (H & _). contradiction. }
  destruct (LLMRequest.temperature r <? 0)%float eqn:E0; cbn [orb].
  { split; [|right; eauto]. split; [discriminate|]. intros (_ & [Hn|[H0 _]] & _).
    - assert (H : (LLMRequest.temperature r <? 0)%float = false)
        by (apply ltb_false_iff; tauto).
      congruence.
    - assert (H : (LLMRequest.temperature r <? 0)%float = false)
        by (apply ltb_false_iff; tauto).
      congruence. }
  destruct (2 <? LLMRequest.temperature r)%float eqn:E2.
  { split; [|right; eauto]. split; [discriminate|]. intros (_ & [Hn|[_ H2]] & _).
    - assert (H : (2 <? LLMRequest.temperature r)%float = false)
        by (apply ltb_false_iff; tauto).
      congruence.
    - assert (H : (2 <? LLMRequest.temperature r)%float = false)
        by (apply ltb_false_iff; tauto).
      congruence. }
  destruct (Z.ltb_spec (LLMRequest.max_tokens r) 1) as [Hm|Hm].
  { split; [|right; eauto]. split; [discriminate|]. intros (_ & _ & H). lia. }
  split; [|left; reflexivity]. split; [|reflexivity]. intros _.
  split; [exact Hp|]. split; [|exact Hm].
  apply ltb_false_iff in E0, E2.
  destruct E0 as [H0|[Hn|Hn]]; [|left; exact Hn|congruence].
  destruct E2 as [H2|[Hn|Hn]]; [|congruence|left; exact Hn].
  right. split; assumption.
Qed.

(** [LLMRequest(prompt="hi", temperature=float("nan"))] passes validation. *)
Example validate_request_nan_temperature :
  validate_request
    {| LLMRequest.prompt := "hi"; LLMRequest.system_message := None;
       LLMRequest.temperature := PrimFloat.nan; LLMRequest.max_tokens := 2048;
       LLMRequest.top_p := 0x1.ccccccccccccdp-1; LLMRequest.stream := false;
       LLMRequest.metadata := ∅; LLMRequest.model_override := None;
       LLMRequest.timeout := None |}
  = Ok true.
Proof. reflexivity. Qed.

(** ** Counts too large for a float *)
Section Overflow.
Import PyFloat Rounding SFOps CostFloats CostValue.

(** A number with more than 1024 bits rounds to an infinity. *)
Lemma binary_round_overflow s m e :
  1025 <= Zpos (digits2_pos m) + e -> binary_round prec emax s m e = S754_infinity s.
Proof.
  intros Hmag.
  destruct (binary_round_rounded s m e) as (mz & ez & -> & Ha & _ & _ & Hd).
  assert (Hg : 972 <= grid mz ez) by (unfold grid; rewrite fx_eq; lia).
  pose proof (rmant_normal mz ez Ha ltac:(lia)) as Hn.
  rewrite rounded_unfold.
  destruct (rmant mz ez) as [|p|p]; try (exfalso; lia).
  destruct (_ =? _)%positive.
  - destruct (Z.leb_spec (grid mz ez + 1) 971); [lia|reflexivity].
  - destruct (Z.leb_spec (grid mz ez) 971); [lia|reflexivity].
Qed.

Lemma digits_of_large p : 2 ^ 1024 <= Zpos p -> 1025 <= Zpos (digits2_pos p).
Proof.
  intros H. destruct (digits2_bounds p) as [_ Hu].
  destruct (Z.le_gt_cases 1025 (Zpos (digits2_pos p))); [assumption|].
  assert (2 ^ Zpos (digits2_pos p) <= 2 ^ 1024) by (apply Z.pow_le_mono_r; lia).
  lia.
Qed.

Lemma of_int_overflow z :
  2 ^ 1024 <= Z.abs z ->
  of_int z = Raise (OverflowError "int too large to convert to float").
Proof.
  intros Hz. unfold of_int.
  destruct z as [|p|p]; simpl in Hz.
  - exfalso. assert (0 < 2 ^ 1024) by (apply Z.pow_pos_nonneg; lia). lia.
  - cbn [binary_normalize].
    rewrite (binary_round_overflow false p 0)
      by (pose proof (digits_of_large p Hz); lia).
    reflexivity.
  - cbn [binary_normalize].
    rewrite (binary_round_overflow true p 0)
      by (pose proof (digits_of_large p Hz); lia).
    reflexivity.
Qed.

Lemma of_int_cases z :
  (exists f, of_int z = Ok f)
  \/ of_int z = Raise (OverflowError "int too large to convert to float").
Proof.
  unfold of_int. destruct (binary_normalize prec emax z 0 false); eauto.
Qed.

End Overflow.

(** X8: [calculate_cost] is not total: when either count has 1025 bits or more
    (10**309 tokens, say), the product of the [int] and the [float] price
    raises [OverflowError], for every provider and model. *)
Theorem calculate_cost_overflow {P} `{BaseLLMProvider P} (self : P)
    (input_tokens output_tokens : Z) (model : string) :
  2 ^ 1024 <= Z.abs input_tokens \/ 2 ^ 1024 <= Z.abs output_tokens ->
  calculate_cost self input_tokens output_tokens model
  = Raise (OverflowError "int too large to convert to float").
Proof.
  intros Hz. unfold calculate_cost, PyFloat.mul_int.
  destruct Hz as [Hz|Hz].
  - rewrite (of_int_overflow _ Hz). reflexivity.
  - destruct (of_int_cases input_tokens) as [[f ->]| ->]; [|reflexivity].
    cbn [rbind]. rewrite (of_int_overflow _ Hz). reflexivity.
Qed.

Lemma calculate_cost_overflow_witness :
  calculate_cost openai_defaults (10 ^ 309) 500 "gpt-4"
  = Raise (OverflowError "int too large to convert to float").
Proof.
  apply (calculate_cost_overflow openai_defaults (10 ^ 309) 500 "gpt-4").
  left. vm_compute. discriminate.
Defined.

(** ** The Gemini adapter: a first answer of 200 *)
Section GeminiSuccess.
Import GeminiProvider CostValue.








End GeminiSuccess.






(** ** The Gemini adapter: the SDK path *)
Section SdkPath.
Import GeminiProvider.

(** A branch in which the [except] clause has run. *)
Ltac sdk_failed :=
  destruct (Logging.error _); cbn [fst snd posts sleeps held];
  repeat split; intros; congruence.

(** What [_generate_with_sdk] does to the world, and what it returns: the
    vendor is called once the SDK has accepted the config, and not when it
    refuses it. *)
Lemma generate_with_sdk_effects self r model budget (w : World Data) :
  posts (snd (_generate_with_sdk self r model budget w))
  = match sdk_config w r budget with
    | Ok _ => S (posts w)
    | Raise _ => posts w
    end
  /\ sleeps (snd (_generate_with_sdk self r model budget w)) = sleeps w
  /\ held (snd (_generate_with_sdk self r model budget w)) = held w
  /\ (forall x,
        fst (_generate_with_sdk self r model budget w) = Ok x ->
        LLMResponse.metadata x !! "sdk_used" = Some (MVal (VStr "google-genai"))
        /\ LLMResponse.metadata x !! "thinking_budget" = Some (MVal budget)
        /\ LLMResponse.metadata x !! "thinking_mode" = Some (MVal (VBool true))).
Proof.
  unfold _generate_with_sdk, build_sdk_config, sdk_generate_content.
  rewrite !info_returns.
  unfold bind, catch, time, post, ret, raise, lift.
  cbn [vendor posts clock reads sleeps held sdk_config].
  destruct (sdk_config w r budget) as [[]|?]; cbn [fst snd posts sleeps held];
    [|sdk_failed].
  destruct (vendor w (posts w)) as [status body [d|]| |msg]; cbn [fst snd posts sleeps held];
    try (sdk_failed).
  destruct (status =? 200); cbn [fst snd posts sleeps held];
    [|sdk_failed].
  destruct (sdk_usage (sdk_response d)) as [[[p c] tot]|?];
    cbn [fst snd posts sleeps held];
    [|sdk_failed].
  destruct (calculate_cost self p c model) as [cost|?];
    cbn [fst snd vendor clock sdk_config posts reads sleeps held];
    [|sdk_failed].
  destruct (int_of_float_defined _) as [[]|?];
    cbn [fst snd posts sleeps held];
    [|sdk_failed].
  change (LLMResponse.init_keywords _) with (@Ok unit tt).
  cbn [fst snd posts sleeps held].
  repeat split;
    match goal with
    | H : Ok _ = Ok _ |- _ => injection H as <-
    end; reflexivity.
Qed.

End SdkPath.

(** X14: when the request's metadata gives a thinking budget (any value but
    [None], 0 included) and the SDK client exists, the call goes through the
    SDK: one vendor call whatever its outcome when the SDK accepts the
    generation config, none when it refuses it; no retry and no sleep, and
    as many slots of the gate held afterwards as before. A response it
    returns is marked with the SDK's name, the budget, and thinking mode on,
    whatever the adapter's own [thinking_mode] is; and whatever fails on the
    way, the error that leaves is the [TypeError] of the logging call in the
    [except] clause. *)
Theorem generate_body_sdk_path
    (self : GeminiProvider.t) (r : LLMRequest.t) (w : World GeminiProvider.Data) :
  validate_request r = Ok true ->
  GeminiProvider.thinking_budget_of r <> VNone ->
  GeminiProvider.genai_client self = true ->
  posts (snd (GeminiProvider.generate_body self r w))
  = match sdk_config w r (GeminiProvider.thinking_budget_of r) with
    | Ok _ => S (posts w)
    | Raise _ => posts w
    end
  /\ sleeps (snd (GeminiProvider.generate_body self r w)) = sleeps w
  /\ held (snd (GeminiProvider.generate_body self r w)) = held w
  /\ (forall resp,
        fst (GeminiProvider.generate_body self r w) = Ok resp ->
        exists x,
          resp = Some x
          /\ LLMResponse.metadata x !! "sdk_used" = Some (MVal (VStr "google-genai"))
          /\ LLMResponse.metadata x !! "thinking_budget"
             = Some (MVal (GeminiProvider.thinking_budget_of r))
          /\ LLMResponse.metadata x !! "thinking_mode" = Some (MVal (VBool true)))
  /\ (forall e,
        fst (GeminiProvider.generate_body self r w) = Raise e -> type_error e).
Proof.
  intros Hv Hb Hc.
  assert (Hg : GeminiProvider.generate_body self r w
               = (let! x := GeminiProvider._generate_with_sdk self r
                              (GeminiProvider.or_str (LLMRequest.model_override r)
                                 (GeminiProvider.default_model self))
                              (GeminiProvider.thinking_budget_of r) in
                  ret (Some x)) w).
  { unfold GeminiProvider.generate_body, bind at 1, lift. rewrite Hv, Hc.
    rewrite bool_decide_eq_false_2 by exact Hb. reflexivity. }
  rewrite Hg. clear Hg. unfold bind, ret.
  match goal with
  | |- context [GeminiProvider._generate_with_sdk ?s ?q ?m ?b ?w0] =>
      destruct (generate_with_sdk_effects s q m b w0) as (Hp & Hs & Hh & Hm);
      pose proof (ro_sdk s q m b w0) as Hro;
      destruct (GeminiProvider._generate_with_sdk s q m b w0) as [[x|e] w1]
  end; cbn [fst snd] in *.
  - repeat split; try assumption.
    + intros resp [= <-]. exists x. split; [reflexivity|]. apply Hm. reflexivity.
    + intros e [=].
  - repeat split; try assumption.
    + intros resp [=].
    + intros e' [= <-]. exact (Hro e w1 eq_refl).
Qed.

(** [LLMRequest(prompt="hi", metadata={"thinking_budget": 0})]. *)
Definition thinking_request : LLMRequest.t :=
  {| LLMRequest.prompt := "hi"; LLMRequest.system_message := None;
     LLMRequest.temperature := 0x1.6666666666666p-1; LLMRequest.max_tokens := 2048;
     LLMRequest.top_p := 0x1.ccccccccccccdp-1; LLMRequest.stream := false;
     LLMRequest.metadata := {[ "thinking_budget" := VInt 0 ]};
     LLMRequest.model_override := None; LLMRequest.timeout := None |}.

(** A Gemini adapter built with the defaults and the SDK installed. *)
Definition gemini_with_sdk : GeminiProvider.t :=
  {| GeminiProvider.api_key := "k";
     GeminiProvider.default_model := "gemini-2.5-flash";
     GeminiProvider.thinking_mode := true;
     GeminiProvider.base_url := "https://generativelanguage.googleapis.com/v1beta";
     GeminiProvider.timeout := 60;
     GeminiProvider.max_retries := 3;
     GeminiProvider.genai_client := true |}.

(** A world whose SDK refuses every generation config, as its classes do
    when a value is not of the type they declare. *)
Definition refusing_sdk : World GeminiProvider.Data :=
  {| vendor := fun _ => TimedOut; clock := fun _ => 0%float;
     sdk_config := fun _ _ => Raise (ValueError "validation error for ThinkingConfig");
     posts := 0; reads := 0; sleeps := []; held := 0 |}.

(** The theorem at a vendor that times out: one vendor call when the SDK
    accepts the config, none when it refuses it, and a [TypeError] either
    way. *)
Lemma generate_body_sdk_path_witness :
  (posts (snd (GeminiProvider.generate_body gemini_with_sdk thinking_request
                 (always TimedOut))) = 1%nat
   /\ sleeps (snd (GeminiProvider.generate_body gemini_with_sdk thinking_request
                     (always TimedOut))) = [])
  /\ (posts (snd (GeminiProvider.generate_body gemini_with_sdk thinking_request
                    refusing_sdk)) = 0%nat
      /\ type_error (TypeError "Logger._log() got an unexpected keyword argument 'model'")).
Proof.
  split.
  - destruct (generate_body_sdk_path gemini_with_sdk thinking_request (always TimedOut))
      as (Hp & Hs & _).
    + reflexivity.
    + vm_compute. discriminate.
    + reflexivity.
    + split; [exact Hp|exact Hs].
  - destruct (generate_body_sdk_path gemini_with_sdk thinking_request refusing_sdk)
      as (Hp & _ & _ & _ & He).
    + reflexivity.
    + vm_compute. discriminate.
    + reflexivity.
    + split; [exact Hp|]. apply He. vm_compute. reflexivity.
Defined.

(** ** The Gemini adapter: a run never retries *)
Section SinglePass.
Import GeminiProvider.

(** One run of the function under the decorator, whatever the request, the
    adapter and the vendor: at most one vendor call and no sleep. *)
Lemma generate_body_effects self r (w : World Data) :
  (posts w <= posts (snd (generate_body self r w)) <= posts w + 1)%nat
  /\ sleeps (snd (generate_body self r w)) = sleeps w.
Proof.
  destruct (validate_request r) as [b|e] eqn:Hv.
  - assert (Hb : b = true).
    { revert Hv. unfold validate_request.
      repeat match goal with |- context [if ?c then _ else _] => destruct c end;
        congruence. }
    subst b.
    destruct (negb (bool_decide (thinking_budget_of r = VNone)) && genai_client self)%bool
      eqn:Hpath.
    + apply andb_true_iff in Hpath as [Hn Hc].
      apply negb_true_iff, bool_decide_eq_false in Hn.
      assert (Hg : generate_body self r w
                   = (let! x := _generate_with_sdk self r
                                  (or_str (LLMRequest.model_override r) (default_model self))
                                  (thinking_budget_of r) in
                      ret (Some x)) w).
      { unfold generate_body, bind at 1, lift. rewrite Hv, Hc.
        rewrite bool_decide_eq_false_2 by exact Hn. reflexivity. }
      rewrite Hg. unfold bind, ret.
      match goal with
      | |- context [_generate_with_sdk ?s ?q ?m ?b ?w0] =>
          destruct (generate_with_sdk_effects s q m b w0) as (Hp & Hs & _);
          destruct (_generate_with_sdk s q m b w0) as [[x|e] w1]
      end; cbn [fst snd] in *; (split; [|exact Hs]);
        rewrite Hp; destruct (sdk_config w r _); lia.
    + assert (Hrest : uses_rest self r).
      { apply andb_false_iff in Hpath as [Hn|Hc]; [left|right; exact Hc].
        apply negb_false_iff, bool_decide_eq_true in Hn. exact Hn. }
      destruct (Z.le_gt_cases 1 (max_retries self)) as [Hn|Hn].
      * destruct (generate_body_one_call self r w Hv Hrest Hn) as (Hp & Hs & _).
        split; [lia|exact Hs].
      * rewrite (generate_body_no_attempt self r w Hv Hrest) by lia.
        cbn [snd posts sleeps]. split; [lia|reflexivity].
  - unfold generate_body, bind, lift. rewrite Hv. cbn [snd]. split; [lia|reflexivity].
Qed.

End SinglePass.




(** X12: whatever the vendor does, one run of the Gemini [generate] function
    (the function under the decorator) makes at most [max_retries] vendor
    calls on the REST path, and at most one through the SDK. *)
Theorem generate_body_vendor_calls_bounded
    (self : GeminiProvider.t) (r : LLMRequest.t) (w : World GeminiProvider.Data) :
  (posts w
   <= posts (snd (GeminiProvider.generate_body self r w))
   <= posts w + Nat.max 1 (Z.to_nat (GeminiProvider.max_retries self)))%nat
  /\ (uses_rest self r ->
      (posts (snd (GeminiProvider.generate_body self r w))
       <= posts w + Z.to_nat (GeminiProvider.max_retries self))%nat)
  /\ (~ uses_rest self r ->
      (posts (snd (GeminiProvider.generate_body self r w)) <= posts w + 1)%nat).
Proof.
  destruct (generate_body_effects self r w) as [Hp _].
  split; [lia|]. split; [|intros _; lia].
  intros Hrest. destruct (validate_request r) as [b|e] eqn:Hv.
  - assert (Hb : b = true).
    { revert Hv. unfold validate_request.
      repeat match goal with |- context [if ?c then _ else _] => destruct c end;
        congruence. }
    subst b.
    destruct (Z.le_gt_cases 1 (GeminiProvider.max_retries self)) as [Hn|Hn]; [lia|].
    rewrite (generate_body_no_attempt self r w Hv Hrest) by lia. cbn [snd posts]. lia.
  - unfold GeminiProvider.generate_body, bind, lift. rewrite Hv. cbn [snd]. lia.
Qed.

(** ** The Gemini adapter: what every response looks like *)
Section ResponseShape.
Import GeminiProvider.

(** A response of the Gemini adapter for [model]: it names the provider
    by the plain string, leaves the dataclass fields [finish_reason] and
    [error] at [None], and records the two token counts and the thinking
    mode in its metadata. *)
Definition gemini_shaped (model : string) (r : LLMResponse.t) : Prop :=
  LLMResponse.provider r = ByName "gemini"
  /\ LLMResponse.model r = model
  /\ LLMResponse.finish_reason r = None
  /\ LLMResponse.error r = None
  /\ (exists p c b,
        LLMResponse.metadata r !! "prompt_tokens" = Some (MVal (VInt p))
        /\ LLMResponse.metadata r !! "completion_tokens" = Some (MVal (VInt c))
        /\ LLMResponse.metadata r !! "thinking_mode" = Some (MVal (VBool b))).

Definition flow_shaped (model : string) (f : Flow) : Prop :=
  match f with
  | Returned r => gemini_shaped model r
  | Continued => True
  end.

Definition option_shaped (model : string) (o : option LLMResponse.t) : Prop :=
  match o with
  | Some r => gemini_shaped model r
  | None => True
  end.

Lemma ys_backoff self model attempt last :
  yields (flow_shaped model) last -> yields (flow_shaped model) (backoff self attempt last).
Proof.
  intros H. unfold backoff. destruct (_ <? _); [|exact H].
  do 2 (apply y_bind_any; intros _). apply y_ret. exact I.
Qed.

Lemma ys_try_body self model st attempt cand o :
  yields (flow_shaped model) (try_body self model st attempt cand o).
Proof.
  unfold try_body. destruct o as [status body json| |msg]; try apply y_raise.
  destruct (negb _); [apply y_bind_any; intros _; apply ys_backoff, y_raise|].
  do 5 (apply y_bind_any; intros ?).
  apply y_bind_any. intros _. apply y_ret.
  repeat split. eexists _, _, _. repeat split; reflexivity.
Qed.

Lemma ys_retry_loop self model st todo cand :
  yields (option_shaped model) (retry_loop self model st todo cand).
Proof.
  revert cand. induction todo as [|a rest IH]; intros cand; simpl.
  - apply y_ret. exact I.
  - apply y_bind_any. intros o.
    apply (y_bind (flow_shaped model)).
    + apply y_catch; [apply ys_try_body|].
      intros e. unfold handlers.
      destruct e; apply y_bind_any; intros _; apply ys_backoff, y_raise.
    + intros [r|] Hr; [apply y_ret; exact Hr|apply IH].
Qed.

Lemma ys_sdk self request model budget :
  yields (gemini_shaped model) (_generate_with_sdk self request model budget).
Proof.
  unfold _generate_with_sdk.
  apply y_bind_any. intros st.
  apply y_catch; [|intros e; apply y_bind_any; intros _; apply y_raise].
  do 2 (apply y_bind_any; intros _).
  apply y_bind_any. intros response.
  apply y_bind_any. intros now.
  apply y_bind_any. intros [[p c] tot].
  apply y_bind_any. intros cost.
  do 3 (apply y_bind_any; intros _).
  apply y_ret. repeat split. eexists _, _, _. repeat split; reflexivity.
Qed.

Lemma ys_generate_body self request :
  yields (option_shaped (or_str (LLMRequest.model_override request) (default_model self)))
         (generate_body self request).
Proof.
  unfold generate_body. apply y_bind_any. intros _.
  destruct (_ && _)%bool.
  - apply (y_bind (gemini_shaped
                     (or_str (LLMRequest.model_override request) (default_model self))));
      [apply ys_sdk|].
    intros r Hr. apply y_ret. exact Hr.
  - apply y_bind_any. intros st. apply y_gate, ys_retry_loop.
Qed.

End ResponseShape.

(** X13: every response a Gemini call returns, over REST or through the SDK,
    carries the model the call resolved ([model_override], or the adapter's
    default when that is missing or empty; a "models/" prefix is kept), the
    provider "gemini", and no [finish_reason] or [error] field: the finish
    reason is only in the metadata, next to the two token counts. *)
Theorem generate_body_response_shape
    (self : GeminiProvider.t) (r : LLMRequest.t) (w w' : World GeminiProvider.Data)
    (resp : LLMResponse.t) :
  GeminiProvider.generate_body self r w = (Ok (Some resp), w') ->
  gemini_shaped
    (match LLMRequest.model_override r with
     | Some m => if String.eqb m "" then GeminiProvider.default_model self else m
     | None => GeminiProvider.default_model self
     end)
    resp.
Proof.
  intros H. exact (ys_generate_body self r w (Some resp) w' H).
Qed.

Lemma generate_body_response_shape_witness :
  gemini_shaped "gemini-2.5-flash" hello_response.
Proof.
  apply (generate_body_response_shape gemini_defaults (request_of "hi")
           (always (Responded 200 "" (Some hello_body)))
           (after_one_call (Responded 200 "" (Some hello_body)))
           hello_response).
  vm_compute. reflexivity.
Defined.

(** ** Construction and health of the adapters *)
Section Keys.

Lemma prefix_trans a b c :
  String.prefix a b = true -> String.prefix b c = true -> String.prefix a c = true.
Proof.
  revert b c. induction a as [|x a IH]; intros b c; [intros _ _; apply prefix_nil|].
  destruct b as [|y b]; simpl; [discriminate|].
  destruct (ascii_dec x y) as [<-|]; [|discriminate].
  destruct c as [|z c]; simpl; [discriminate|].
  destruct (ascii_dec x z); [apply IH|discriminate].
Qed.

Lemma found_key_nonempty key : Config.falsy key = false -> default "" key <> "".
Proof.
  destruct key as [s|]; simpl; [|discriminate].
  destruct (String.eqb_spec s ""); [discriminate|]. intros _. assumption.
Qed.

End Keys.

(** X15: an Anthropic or OpenAI adapter that [__init__] has built holds a
    non-empty API key, so its [health_check] is only the test of the key's
    prefix ("sk-ant-", "sk-"); it follows that a key the Anthropic adapter
    finds healthy is healthy for the OpenAI adapter too. *)
Theorem health_check_is_key_prefix cfg env cfg' env' a o :
  AnthropicProvider.init cfg env = Ok a ->
  OpenAIProvider.init cfg' env' = Ok o ->
  AnthropicProvider.api_key a <> ""
  /\ OpenAIProvider.api_key o <> ""
  /\ AnthropicProvider.health_check a = String.prefix "sk-ant-" (AnthropicProvider.api_key a)
  /\ OpenAIProvider.health_check o = String.prefix "sk-" (OpenAIProvider.api_key o)
  /\ (OpenAIProvider.api_key o = AnthropicProvider.api_key a ->
      AnthropicProvider.health_check a = true -> OpenAIProvider.health_check o = true).
Proof.
  unfold AnthropicProvider.init, OpenAIProvider.init.
  destruct (Config.falsy (Config.or_else (Config.api_key cfg) _)) eqn:Ea; [discriminate|].
  destruct (Config.falsy (Config.or_else (Config.api_key cfg') _)) eqn:Eo; [discriminate|].
  rewrite !info_returns. cbn [rbind].
  intros [= <-] [= <-]. cbn [AnthropicProvider.api_key OpenAIProvider.api_key].
  pose proof (found_key_nonempty _ Ea) as Ha. pose proof (found_key_nonempty _ Eo) as Ho.
  assert (HA : forall x, AnthropicProvider.api_key x <> "" ->
                 AnthropicProvider.health_check x
                 = String.prefix "sk-ant-" (AnthropicProvider.api_key x)).
  { intros x Hx. unfold AnthropicProvider.health_check.
    destruct (String.eqb_spec (AnthropicProvider.api_key x) ""); [contradiction|].
    cbn [orb]. destruct (String.prefix _ _); reflexivity. }
  assert (HO : forall x, OpenAIProvider.api_key x <> "" ->
                 OpenAIProvider.health_check x
                 = String.prefix "sk-" (OpenAIProvider.api_key x)).
  { intros x Hx. unfold OpenAIProvider.health_check.
    destruct (String.eqb_spec (OpenAIProvider.api_key x) ""); [contradiction|].
    cbn [orb]. destruct (String.prefix _ _); reflexivity. }
  split; [exact Ha|]. split; [exact Ho|].
  rewrite HA, HO by assumption. cbn [AnthropicProvider.api_key OpenAIProvider.api_key].
  split; [reflexivity|]. split; [reflexivity|].
  intros -> Hk. exact (prefix_trans "sk-" "sk-ant-" _ eq_refl Hk).
Qed.

Definition anthropic_key_config : Config.t :=
  {| Config.api_key := Some "sk-ant-api03-xyz"; Config.api_key_env := None;
     Config.api_base := None; Config.api_version := None;
     Config.organization := None; Config.default_model := None;
     Config.timeout := None; Config.max_retries := None;
     Config.max_concurrent_requests := None; Config.thinking_mode := None |}.

Lemma health_check_is_key_prefix_witness :
  exists a o,
    AnthropicProvider.init anthropic_key_config (fun _ => None) = Ok a
    /\ OpenAIProvider.init anthropic_key_config (fun _ => None) = Ok o
    /\ AnthropicProvider.health_check a = true
    /\ OpenAIProvider.health_check o = true.
Proof.
  eexists _, _. split; [reflexivity|]. split; [reflexivity|].
  destruct (health_check_is_key_prefix anthropic_key_config (fun _ => None)
              anthropic_key_config (fun _ => None) _ _ eq_refl eq_refl)
    as (_ & _ & Ha & _ & Hcross).
  split; [rewrite Ha; reflexivity|]. apply Hcross; [reflexivity|].
  rewrite Ha. reflexivity.
Defined.

(** X16: the class-wide limiter of the Gemini adapter is made by the first
    construction attempt whose [max_concurrent_requests] (8 by default) is
    not negative, before the API key is looked at: it is made even when that
    attempt then fails for want of a key; an attempt with a negative size
    fails on the semaphore and makes none; and once there is a limiter no
    construction replaces it. *)
Theorem gemini_limiter_fixed_by_first_attempt cfg env sdk :
  snd (GeminiProvider.init cfg env sdk None)
  = (if default 8 (Config.max_concurrent_requests cfg) <? 0 then None
     else Some (default 8 (Config.max_concurrent_requests cfg)))
  /\ (forall made, snd (GeminiProvider.init cfg env sdk (Some made)) = Some made)
  /\ (default 8 (Config.max_concurrent_requests cfg) < 0 ->
      fst (GeminiProvider.init cfg env sdk None)
      = Raise (ValueError "Semaphore initial value must be >= 0"))
  /\ (0 <= default 8 (Config.max_concurrent_requests cfg) ->
      Config.falsy (Config.or_else (Config.api_key cfg) (env "GEMINI_API_KEY")) = true ->
      fst (GeminiProvider.init cfg env sdk None)
      = Raise (ValueError "Gemini API key not provided")).
Proof.
  unfold GeminiProvider.init. repeat split.
  - destruct (_ <? 0); [reflexivity|]. rewrite info_returns.
    destruct (Config.falsy _); reflexivity.
  - intros made. destruct (Config.falsy _); reflexivity.
  - intros Hn. destruct (Z.ltb_spec (default 8 (Config.max_concurrent_requests cfg)) 0);
      [reflexivity|lia].
  - intros Hn Hk. destruct (Z.ltb_spec (default 8 (Config.max_concurrent_requests cfg)) 0);
      [lia|]. rewrite info_returns, Hk. reflexivity.
Qed.

Definition keyless_two_slots : Config.t :=
  {| Config.api_key := None; Config.api_key_env := None;
     Config.api_base := None; Config.api_version := None;
     Config.organization := None; Config.default_model := None;
     Config.timeout := None; Config.max_retries := None;
     Config.max_concurrent_requests := Some 2; Config.thinking_mode := None |}.

(** A first attempt without a key and with a size of 2, then a second with
    a key and the default size: the limiter stays the first one's. *)
Lemma gemini_limiter_fixed_by_first_attempt_witness :
  GeminiProvider.init keyless_two_slots (fun _ => None) false None
  = (Raise (ValueError "Gemini API key not provided"), Some 2)
  /\ snd (GeminiProvider.init key_only (fun _ => None) false (Some 2)) = Some 2.
Proof.
  destruct (gemini_limiter_fixed_by_first_attempt keyless_two_slots (fun _ => None) false)
    as (H1 & _ & _ & H4).
  destruct (gemini_limiter_fixed_by_first_attempt key_only (fun _ => None) false)
    as (_ & H2 & _).
  split; [|apply H2].
  rewrite (surjective_pairing (GeminiProvider.init keyless_two_slots _ false None)).
  rewrite H1, H4; [reflexivity|simpl; lia|reflexivity].
Defined.

(** ** The Gemini adapter: the schedule of a call *)
Section Schedule.


End Schedule.



(** ** The Anthropic adapter: the text of a message *)
Section TextBlocks.
Import AnthropicProvider.

Lemma match_text {A} (ty : option string) (x y : A) :
  match ty with
  | Some "text" => x
  | _ => y
  end = if bool_decide (ty = Some "text") then x else y.
Proof.
  destruct ty as [s|]; [|reflexivity].
  destruct (decide (s = "text")) as [->|Hne]; [reflexivity|].
  rewrite bool_decide_eq_false_2 by congruence.
  repeat (destruct s as [|[[] [] [] [] [] [] [] []] s]; try reflexivity).
  contradiction Hne. reflexivity.
Qed.

(** What one block adds to the content. *)
Definition block_text (b : Block) : string :=
  if bool_decide (type_ b = Some "text") then default "" (text b) else "".

Lemma string_app_nil_r s : s ++ "" = s.
Proof.
  induction s as [|c s IH]; [reflexivity|].
  change (String c s ++ "") with (String c (s ++ "")). rewrite IH. reflexivity.
Qed.

Lemma string_app_assoc a b c : (a ++ b) ++ c = a ++ (b ++ c).
Proof.
  induction a as [|x a IH]; [reflexivity|].
  change ((String x a ++ b) ++ c) with (String x ((a ++ b) ++ c)).
  rewrite IH. reflexivity.
Qed.

(** The blocks' texts, one after the other. *)
Fixpoint texts (l : list Block) : string :=
  match l with
  | [] => ""
  | b :: rest => block_text b ++ texts rest
  end.

Lemma texts_app l1 l2 : texts (l1 ++ l2)%list = texts l1 ++ texts l2.
Proof.
  induction l1 as [|b l1 IH]; [reflexivity|].
  cbn [texts app]. rewrite IH, string_app_assoc. reflexivity.
Qed.

Lemma text_fold l acc :
  fold_left (fun acc b =>
               match type_ b with
               | Some "text" => acc ++ default "" (text b)
               | _ => acc
               end) l acc
  = acc ++ texts l.
Proof.
  revert acc. induction l as [|b l IH]; intros acc.
  - simpl. symmetry. apply string_app_nil_r.
  - cbn [fold_left texts]. rewrite IH, match_text, <- string_app_assoc. f_equal.
    unfold block_text. destruct (bool_decide _); [reflexivity|].
    symmetry. apply string_app_nil_r.
Qed.

Lemma text_of_texts l : text_of (Some l) = texts l.
Proof. unfold text_of. apply text_fold. Qed.

End TextBlocks.

(** X18: the content the Anthropic adapter extracts from a message is the
    concatenation of its blocks' contributions, in order: a block of type
    "text" gives its text (nothing when the text is missing), a block of any
    other type, or without a type, gives nothing. *)
Theorem text_of_blocks (l1 l2 : list AnthropicProvider.Block) (b : AnthropicProvider.Block) :
  AnthropicProvider.text_of (Some (l1 ++ l2)%list)
  = AnthropicProvider.text_of (Some l1) ++ AnthropicProvider.text_of (Some l2)
  /\ (AnthropicProvider.type_ b <> Some "text" ->
      AnthropicProvider.text_of (Some (l1 ++ b :: l2)%list)
      = AnthropicProvider.text_of (Some (l1 ++ l2)%list))
  /\ (AnthropicProvider.type_ b = Some "text" ->
      AnthropicProvider.text_of (Some (l1 ++ b :: l2)%list)
      = AnthropicProvider.text_of (Some l1)
        ++ default "" (AnthropicProvider.text b)
        ++ AnthropicProvider.text_of (Some l2)).
Proof.
  rewrite !text_of_texts, !texts_app. cbn [texts]. unfold block_text.
  split; [reflexivity|]. split; intros Hb.
  - rewrite bool_decide_eq_false_2 by exact Hb. reflexivity.
  - rewrite bool_decide_eq_true_2 by exact Hb. reflexivity.
Qed.
